(** * publish_daily.py: the daily-update publisher of daliu.github.io

    A shallow embedding of [publish_daily.py] and the properties of its
    description extractor, index merge engine and orchestrator.

    Python [str] values are sequences of Unicode code points, modelled as
    [list N].  The [re] module is modelled by a backtracking matcher with
    Python's priorities (leftmost alternative first, greedy repetition
    longest first, lazy repetition shortest first). *)

From Stdlib Require Import ZArith NArith Lia List Ascii String Bool.
From stdpp Require Import base list gmap sorting.

Local Open Scope list_scope.

(** ** Strings *)

Abbreviation str := (list N).

(** An ASCII literal as a sequence of code points. *)
Definition u (s : string) : str :=
  List.map N_of_ascii (list_ascii_of_string s).

(** An ASCII literal in which each apostrophe stands for a double quote
    (code point 34); used for the HTML fragments of the script, none of
    which holds an apostrophe. *)
Definition uq (s : string) : str :=
  List.map (fun c => if (c =? 39)%N then 34%N else c) (u s).

(** [sep.join(parts)] *)
Fixpoint join (sep : str) (parts : list str) : str :=
  match parts with
  | [] => []
  | [p] => p
  | p :: ps => p ++ sep ++ join sep ps
  end.

(** [Py_UNICODE_ISSPACE]: the code points [str.strip] removes and the
    class [\s] of a [str] pattern matches. *)
Definition isspace (c : N) : bool :=
  ((9 <=? c) && (c <=? 13) || (28 <=? c) && (c <=? 32)
   || (c =? 133) || (c =? 160) || (c =? 5760)
   || (8192 <=? c) && (c <=? 8202)
   || (c =? 8232) || (c =? 8233) || (c =? 8239) || (c =? 8287)
   || (c =? 12288))%N.

(** [s.lstrip()], [s.rstrip()] and [s.strip()] *)
Fixpoint lstrip (s : str) : str :=
  match s with
  | c :: s' => if isspace c then lstrip s' else s
  | [] => []
  end.

Definition rstrip (s : str) : str := rev (lstrip (rev s)).

Definition strip (s : str) : str := rstrip (lstrip s).

(** ASCII letters and their case mappings. *)
Definition isupper (c : N) : bool := ((65 <=? c) && (c <=? 90))%N.
Definition islower (c : N) : bool := ((97 <=? c) && (c <=? 122))%N.
Definition to_lower (c : N) : N := if isupper c then (c + 32)%N else c.
Definition to_upper (c : N) : N := if islower c then (c - 32)%N else c.

(** [s.title()]: a cased character becomes upper case after an uncased one
    and lower case after a cased one.  The case tables are those of the
    ASCII letters; the extractor applies [title] only to labels made of
    [A-Z] and spaces. *)
Fixpoint title_from (previous_is_cased : bool) (s : str) : str :=
  match s with
  | [] => []
  | c :: s' =>
      (if previous_is_cased then to_lower c else to_upper c)
        :: title_from (isupper c || islower c) s'
  end.

Definition title (s : str) : str := title_from false s.

(** [str(n)] for a natural number: its decimal digits. *)
Fixpoint digits_fuel (fuel : nat) (n : N) (acc : str) : str :=
  match fuel with
  | O => acc
  | S f =>
      let acc' := (48 + n mod 10)%N :: acc in
      if (n <? 10)%N then acc' else digits_fuel f (n / 10)%N acc'
  end.

Definition str_of_N (n : N) : str := digits_fuel (S (N.to_nat (N.log2 n))) n [].

(** [s.find(sub)]: the lowest index where [sub] occurs, or -1. *)
Fixpoint starts_with (sub s : str) : bool :=
  match sub, s with
  | [], _ => true
  | a :: sub', b :: s' => (a =? b)%N && starts_with sub' s'
  | _ :: _, [] => false
  end.

Fixpoint find_from (sub s : str) (i : Z) : Z :=
  if starts_with sub s then i
  else match s with
       | [] => (-1)%Z
       | _ :: s' => find_from sub s' (i + 1)%Z
       end.

Definition find (s sub : str) : Z := find_from sub s 0%Z.

(** [sub in s] *)
Definition contains (s sub : str) : bool := (0 <=? find s sub)%Z.

(** Slices [s[lo:hi]], [s[:hi]] and [s[lo:]] with Python's treatment of
    negative and out-of-range bounds. *)
Definition clamp_index (s : str) (i : Z) : nat :=
  let n := Z.of_nat (length s) in
  let i' := if (i <? 0)%Z then (i + n)%Z else i in
  Z.to_nat (Z.max 0 (Z.min n i')).

Definition slice (s : str) (lo hi : Z) : str :=
  let a := clamp_index s lo in
  let b := clamp_index s hi in
  take (b - a) (drop a s).

Definition slice_to (s : str) (hi : Z) : str := take (clamp_index s hi) s.
Definition slice_from (s : str) (lo : Z) : str := drop (clamp_index s lo) s.

(** ** Regular expressions *)

(** The fragment of [re] syntax the script uses.  Repetition is applied to
    single-character classes only, as in every pattern of the script. *)
Inductive regex : Type :=
| Eps : regex
| Lit : str -> regex                    (* a literal string *)
| Cls : (N -> bool) -> regex            (* one character of a class *)
| Seq : regex -> regex -> regex
| Alt : regex -> regex -> regex         (* r1|r2, r1 tried first *)
| Star : (N -> bool) -> regex           (* c*, greedy *)
| StarLazy : (N -> bool) -> regex       (* c*?, lazy *)
| Grp : nat -> regex -> regex.          (* capturing group number n *)

Definition Plus (p : N -> bool) : regex := Seq (Cls p) (Star p).
Definition Opt (r : regex) : regex := Alt r Eps.
Definition Chr (c : N) : regex := Cls (N.eqb c).

(** Captured groups, most recent first. *)
Abbreviation captures := (list (nat * str)).

Fixpoint group_of (caps : captures) (n : nat) : str :=
  match caps with
  | [] => []
  | (k, s) :: caps' => if Nat.eqb k n then s else group_of caps' n
  end.

Fixpoint strip_prefix (p s : str) : option str :=
  match p, s with
  | [], _ => Some s
  | a :: p', b :: s' => if (a =? b)%N then strip_prefix p' s' else None
  | _ :: _, [] => None
  end.

Section Matcher.
Context {R : Type}.

(** Greedy repetition: take every character of the class that is there,
    then give characters back one at a time until the rest matches. *)
Fixpoint star_greedy (p : N -> bool) (s : str) (k : str -> option R)
  : option R :=
  match s with
  | c :: s' =>
      if p c then
        match star_greedy p s' k with
        | Some r => Some r
        | None => k s
        end
      else k s
  | [] => k []
  end.

(** Lazy repetition: try the rest first, take one more character of the
    class only when the rest fails. *)
Fixpoint star_lazy (p : N -> bool) (s : str) (k : str -> option R)
  : option R :=
  match k s with
  | Some r => Some r
  | None =>
      match s with
      | c :: s' => if p c then star_lazy p s' k else None
      | [] => None
      end
  end.

(** [match_k r s caps k]: match [r] at the start of [s], then continue
    with [k] on the rest; backtrack into [r] when [k] fails. *)
Fixpoint match_k (r : regex) (s : str) (caps : captures)
         (k : str -> captures -> option R) {struct r} : option R :=
  match r with
  | Eps => k s caps
  | Lit l =>
      match strip_prefix l s with
      | Some s' => k s' caps
      | None => None
      end
  | Cls p =>
      match s with
      | c :: s' => if p c then k s' caps else None
      | [] => None
      end
  | Seq a b => match_k a s caps (fun s' caps' => match_k b s' caps' k)
  | Alt a b =>
      match match_k a s caps k with
      | Some x => Some x
      | None => match_k b s caps k
      end
  | Star p => star_greedy p s (fun s' => k s' caps)
  | StarLazy p => star_lazy p s (fun s' => k s' caps)
  | Grp n a =>
      match_k a s caps
        (fun s' caps' => k s' ((n, take (length s - length s') s) :: caps'))
  end.
End Matcher.

(** A match object: the captured groups and the text after the match. *)
Record match_obj : Type := Match { groups : captures; after : str }.

Definition group (m : match_obj) (n : nat) : str := group_of (groups m) n.

(** [pattern.match(s)]: a match anchored at the start of [s]. *)
Definition match_here (r : regex) (s : str) : option match_obj :=
  match_k r s [] (fun s' caps => Some (Match caps s')).

(** [re.search(pattern, s)]: the leftmost position where the pattern
    matches. *)
Fixpoint search (r : regex) (s : str) : option match_obj :=
  match match_here r s with
  | Some m => Some m
  | None =>
      match s with
      | [] => None
      | _ :: s' => search r s'
      end
  end.

(** Scanning for successive non-overlapping matches, for patterns that
    never match the empty string (all patterns the script passes to
    [re.sub] and [finditer] consume at least one character).  [skip] counts
    the characters of the last match that are still to be passed over. *)
Fixpoint sub_scan (r : regex) (repl : str) (s : str) (skip : nat) : str :=
  match s with
  | [] => []
  | c :: s' =>
      match skip with
      | S n => sub_scan r repl s' n
      | O =>
          match match_here r s with
          | Some m =>
              match length s - length (after m) with
              | O => c :: sub_scan r repl s' 0
              | S n => repl ++ sub_scan r repl s' n
              end
          | None => c :: sub_scan r repl s' 0
          end
      end
  end.

(** [re.sub(pattern, repl, s)] *)
Definition re_sub (r : regex) (repl s : str) : str := sub_scan r repl s 0.

Fixpoint finditer_scan (r : regex) (s : str) (skip : nat) : list match_obj :=
  match s with
  | [] => []
  | c :: s' =>
      match skip with
      | S n => finditer_scan r s' n
      | O =>
          match match_here r s with
          | Some m =>
              match length s - length (after m) with
              | O => finditer_scan r s' 0
              | S n => m :: finditer_scan r s' n
              end
          | None => finditer_scan r s' 0
          end
      end
  end.

(** [pattern.finditer(s)] *)
Definition finditer (r : regex) (s : str) : list match_obj :=
  finditer_scan r s 0.

(** ** Effects: the file system, standard output, exits and exceptions *)

Inductive exn : Type :=
| ValueError | FileNotFoundError | SameFileError | CalledProcessError
| UnicodeDecodeError | UnicodeEncodeError.

(** How a computation ends: it returns, calls [sys.exit], or raises. *)
Inductive outcome (A : Type) : Type :=
| Return : A -> outcome A
| SysExit : Z -> outcome A
| Raise : exn -> outcome A.
Arguments Return {A} _.
Arguments SysExit {A} _.
Arguments Raise {A} _.

(** What a file holds: the code points its bytes decode to in the
    encoding of text files, kept as they are stored (a carriage return is
    a code point of the file); or bytes that this encoding does not
    decode. *)
Inductive data : Type :=
| Text : str -> data
| Bytes : list N -> data.

(** Files by path, and the lines printed so far. *)
Record world : Type := World { files : gmap str data; stdout : list str }.

Definition M (A : Type) : Type := world -> outcome A * world.

#[global] Instance M_ret : MRet M := fun A a w => (Return a, w).

#[global] Instance M_bind : MBind M := fun A B f m w =>
  match m w with
  | (Return a, w') => f a w'
  | (SysExit c, w') => (SysExit c, w')
  | (Raise e, w') => (Raise e, w')
  end.

Definition sys_exit {A : Type} (code : Z) : M A := fun w => (SysExit code, w).

Definition raise {A : Type} (e : exn) : M A := fun w => (Raise e, w).

(** [os.path.exists(path)] *)
Definition path_exists (path : str) : M bool :=
  fun w => (Return (bool_decide (is_Some (files w !! path))), w).

(** What a file opened in text mode hands to the reader (universal
    newlines): a carriage return followed by a line feed becomes a line
    feed, and any other carriage return becomes a line feed. *)
Fixpoint universal_newlines (s : str) : str :=
  match s with
  | [] => []
  | c :: s' =>
      if (c =? 13)%N then
        10%N :: match s' with
                | c' :: s'' =>
                    if (c' =? 10)%N then universal_newlines s''
                    else universal_newlines s'
                | [] => []
                end
      else c :: universal_newlines s'
  end.

(** [open(path, "r").read()]: the text of the file with its line ends
    translated; [FileNotFoundError] when there is no file, and
    [UnicodeDecodeError] when its bytes do not decode. *)
Definition read_file (path : str) : M str :=
  fun w => match files w !! path with
           | Some (Text text) => (Return (universal_newlines text), w)
           | Some (Bytes _) => (Raise UnicodeDecodeError, w)
           | None => (Raise FileNotFoundError, w)
           end.

(** The text can be encoded: each code point is ASCII or one of those
    the encoding [enc] has beyond ASCII (error handler [strict]). *)
Definition can_encode (enc : N -> bool) (s : str) : bool :=
  forallb (fun c => (c <? 128)%N || enc c) s.

(** [shutil.copy2(src, dst)]: the bytes of the file, whatever they hold. *)
Definition copy2 (src dst : str) : M unit :=
  fun w => match files w !! src with
           | Some content =>
               if decide (src = dst) then (Raise SameFileError, w)
               else (Return tt, World (<[dst := content]> (files w)) (stdout w))
           | None => (Raise FileNotFoundError, w)
           end.

(** The exit status of the process: 0 on return, the argument of
    [sys.exit], 1 after an uncaught exception (the interpreter prints the
    traceback and exits with status 1). *)
Definition exit_status {A : Type} (o : outcome A) : Z :=
  match o with
  | Return _ => 0
  | SysExit c => c
  | Raise _ => 1
  end%Z.

(** [os.path.join(a, b)] on POSIX paths. *)
Definition path_join (a b : str) : str :=
  match b with
  | 47%N :: _ => b
  | _ =>
      match rev a with
      | [] => b
      | 47%N :: _ => a ++ b
      | _ => a ++ [47%N] ++ b
      end
  end.

(** The digit table with no decimal digit beyond ASCII. *)
Definition ascii_only : N -> option N := fun _ => None.

Section Publish.

(** The Unicode decimal digits beyond ASCII and their values: the part
    of the Unicode database behind [\d] and [int] that varies between
    Python versions. *)
Variable nd : N -> option N.

Definition decimal (c : N) : option N :=
  if (c <? 128)%N then
    if ((48 <=? c) && (c <=? 57))%N then Some (c - 48)%N else None
  else nd c.

(** The class [\d] of a [str] pattern. *)
Definition isdecimal (c : N) : bool :=
  match decimal c with Some _ => true | None => false end.

(** *** The description extractor *)

Definition tag_re : regex :=
  Seq (Chr 60) (Seq (Plus (fun c => negb (c =? 62)%N)) (Chr 62)).

Definition spaces_re : regex := Plus isspace.

(** The class [[-–]] *)
Definition dash (c : N) : bool := ((c =? 45) || (c =? 8211))%N.

(** The class [[A-Z ]] *)
Definition upper_or_space (c : N) : bool := (isupper c || (c =? 32)%N).

Definition tickers_re : regex :=
  Seq (Lit (u "Total Tickers"))
    (Seq (Star isspace) (Seq (Chr 58) (Seq (Star isspace)
      (Grp 1 (Plus isdecimal))))).

Definition score_label_re : regex :=
  Seq (Star isspace) (Seq (Chr 58) (Seq (Star isspace)
    (Seq (Grp 1 (Plus isdecimal)) (Seq (Lit (u "/100"))
      (Seq (Star isspace) (Seq (Cls dash) (Seq (Star isspace)
        (Grp 2 (Seq (Cls isupper) (Star upper_or_space)))))))))).

Definition stock_re : regex :=
  Seq (Lit (u "Stock Market")) score_label_re.

Definition crypto_re : regex :=
  Seq (Lit (u "Crypto"))
    (Seq (Opt (Seq (Plus isspace) (Lit (u "Market")))) score_label_re).

Definition trades_re : regex :=
  Seq (Grp 1 (Plus isdecimal)) (Seq (Plus isspace)
    (Seq (Lit (u "trade")) (Seq (Opt (Chr 115)) (Seq (Plus isspace)
      (Seq (Lit (u "in")) (Seq (Plus isspace) (Seq (Lit (u "last"))
        (Seq (Plus isspace) (Seq (Plus isdecimal) (Seq (Plus isspace)
          (Seq (Lit (u "day")) (Opt (Chr 115))))))))))))).

Definition FALLBACK : str := u "Daily market predictions and analysis".

(** The text the patterns are searched in: tags replaced by a space,
    runs of whitespace collapsed to one space. *)
Definition plain_text (email_html : str) : str :=
  re_sub spaces_re (u " ") (re_sub tag_re (u " ") email_html).

Definition tickers_part (text : str) : list str :=
  match search tickers_re text with
  | Some m => [group m 1 ++ u " tickers analyzed"]
  | None => []
  end.

Definition sentiment_part (r : regex) (name : str) (text : str) : list str :=
  match search r text with
  | Some m =>
      let score := group m 1 in
      let label := strip (group m 2) in
      [name ++ title label ++ u " (" ++ score ++ u "/100)"]
  | None => []
  end.

Definition trades_part (text : str) : list str :=
  match search trades_re text with
  | Some m => [group m 1 ++ u " congress trades tracked"]
  | None => []
  end.

Definition extract_description (email_html : str) : str :=
  let text := plain_text email_html in
  let parts :=
    tickers_part text
      ++ sentiment_part stock_re (u "Market sentiment: ") text
      ++ sentiment_part crypto_re (u "Crypto: ") text
      ++ trades_part text in
  match parts with
  | [] => FALLBACK
  | _ => join (u " &middot; ") parts
  end.


(** *** Dates *)

(** [datetime] objects, of which the script uses the calendar date. *)
Record date : Type := Date { year : N; month : N; day : N }.

Definition is_leap (y : N) : bool :=
  ((y mod 4 =? 0) && (negb (y mod 100 =? 0) || (y mod 400 =? 0)))%N.

Definition days_in_month (y m : N) : N :=
  match m with
  | 1 | 3 | 5 | 7 | 8 | 10 | 12 => 31
  | 4 | 6 | 9 | 11 => 30
  | 2 => if is_leap y then 29 else 28
  | _ => 0
  end%N.

(** The dates [datetime] accepts: years 1 to 9999. *)
Definition valid_date (y m d : N) : bool :=
  ((1 <=? y) && (y <=? 9999) && (1 <=? m) && (m <=? 12)
   && (1 <=? d) && (d <=? days_in_month y m))%N.

Definition days_before_month (y m : N) : N :=
  match m with
  | 1 => 0 | 2 => 31 | 3 => 59 | 4 => 90 | 5 => 120 | 6 => 151
  | 7 => 181 | 8 => 212 | 9 => 243 | 10 => 273 | 11 => 304 | _ => 334
  end%N + (if (2 <? m)%N && is_leap y then 1 else 0)%N.

(** [date.toordinal()]: day 1 is 0001-01-01. *)
Definition toordinal (d : date) : N :=
  let y := (year d - 1)%N in
  (y * 365 + y / 4 - y / 100 + y / 400
   + days_before_month (year d) (month d) + day d)%N.

(** [date.weekday()]: Monday is 0. *)
Definition weekday (d : date) : N := ((toordinal d + 6) mod 7)%N.

(** [strftime('%B')] and [strftime('%A')] in the C locale. *)
Definition month_name (m : N) : str :=
  match m with
  | 1 => u "January" | 2 => u "February" | 3 => u "March"
  | 4 => u "April" | 5 => u "May" | 6 => u "June" | 7 => u "July"
  | 8 => u "August" | 9 => u "September" | 10 => u "October"
  | 11 => u "November" | _ => u "December"
  end%N.

Definition weekday_name (w : N) : str :=
  match w with
  | 0 => u "Monday" | 1 => u "Tuesday" | 2 => u "Wednesday"
  | 3 => u "Thursday" | 4 => u "Friday" | 5 => u "Saturday"
  | _ => u "Sunday"
  end%N.

(** [int(s)] on a string of decimal digits with surrounding whitespace. *)
Definition int_of (s : str) : N :=
  fold_left (fun acc c => match decimal c with
                          | Some v => (10 * acc + v)%N
                          | None => acc
                          end) (strip s) 0%N.

Definition in_range (lo hi : N) (c : N) : bool := ((lo <=? c) && (c <=? hi))%N.

(** The pattern [_strptime] compiles for the format [%Y-%m-%d]:
    [(\d\d\d\d)-(1[0-2]|0[1-9]|[1-9])-(3[0-1]|[1-2]\d|0[1-9]|[1-9]| [1-9])] *)
Definition strptime_re : regex :=
  Seq (Grp 1 (Seq (Cls isdecimal) (Seq (Cls isdecimal)
               (Seq (Cls isdecimal) (Cls isdecimal)))))
    (Seq (Chr 45)
      (Seq (Grp 2 (Alt (Seq (Chr 49) (Cls (in_range 48 50)))
                  (Alt (Seq (Chr 48) (Cls (in_range 49 57)))
                       (Cls (in_range 49 57)))))
        (Seq (Chr 45)
          (Grp 3 (Alt (Seq (Chr 51) (Cls (in_range 48 49)))
                 (Alt (Seq (Cls (in_range 49 50)) (Cls isdecimal))
                 (Alt (Seq (Chr 48) (Cls (in_range 49 57)))
                 (Alt (Cls (in_range 49 57))
                      (Seq (Chr 32) (Cls (in_range 49 57))))))))))).

(** [datetime.strptime(s, "%Y-%m-%d")]; [None] stands for [ValueError]:
    the string does not match the format, text remains after the match, or
    the fields are not a calendar date. *)
Definition strptime (s : str) : option date :=
  match match_here strptime_re s with
  | Some m =>
      match after m with
      | [] =>
          let y := int_of (group m 1) in
          let mo := int_of (group m 2) in
          let d := int_of (group m 3) in
          if valid_date y mo d then Some (Date y mo d) else None
      | _ :: _ => None
      end
  | None => None
  end.

Definition format_date_display (date_obj : date) : str :=
  month_name (month date_obj) ++ u " " ++ str_of_N (day date_obj) ++ u ", "
    ++ str_of_N (year date_obj) ++ u " &middot; "
    ++ weekday_name (weekday date_obj).

Definition format_month_header (date_obj : date) : str :=
  month_name (month date_obj) ++ u " " ++ str_of_N (year date_obj).

(** *** The page generator *)

(** [strftime('%b')] in the C locale. *)
Definition month_abbr (m : N) : str :=
  match m with
  | 1 => u "Jan" | 2 => u "Feb" | 3 => u "Mar" | 4 => u "Apr"
  | 5 => u "May" | 6 => u "Jun" | 7 => u "Jul" | 8 => u "Aug"
  | 9 => u "Sep" | 10 => u "Oct" | 11 => u "Nov" | _ => u "Dec"
  end%N.

(** The lines of the page [generate_wrapper_page] returns: the template
    of the script with the date substituted. *)
Definition wrapper_lines (date_str : str) (date_obj : date) : list str :=
  [ u "<!DOCTYPE html>";
    uq "<html lang='en'><head>";
    uq "<meta http-equiv='content-type' content='text/html; charset="
      ++ uq "UTF-8'>";
    u "  <title>Daily Update - "
      ++ month_abbr (month date_obj)
      ++ u " "
      ++ str_of_N (day date_obj)
      ++ u ", "
      ++ str_of_N (year date_obj)
      ++ u " - AutoTrader</title>";
    uq "  <meta charset='utf-8'>";
    uq "  <meta name='viewport' content='width=device-width, initial"
      ++ uq "-scale=1'>";
    uq "  <meta name='description' content='AutoTrader daily market "
      ++ u "predictions for "
      ++ month_name (month date_obj)
      ++ u " "
      ++ str_of_N (day date_obj)
      ++ u ", "
      ++ str_of_N (year date_obj)
      ++ uq "'>";
    uq "  <link rel='icon' type='image/svg+xml' href='../../favicon."
      ++ uq "svg'>";
    uq "  <link rel='stylesheet' href='../../Bootstrap%20Theme%20Com"
      ++ uq "pany%20Page_files/bootstrap.css'>";
    uq "  <link href='../../Bootstrap%20Theme%20Company%20Page_files"
      ++ uq "/css_002.css' rel='stylesheet' type='text/css'>";
    uq "  <link href='../../Bootstrap%20Theme%20Company%20Page_files"
      ++ uq "/css.css' rel='stylesheet' type='text/css'>";
    uq "  <script src='../../Bootstrap%20Theme%20Company%20Page_file"
      ++ uq "s/jquery.js'></script>";
    uq "  <script src='../../Bootstrap%20Theme%20Company%20Page_file"
      ++ uq "s/bootstrap.js'></script>";
    uq "  <script src='https://use.fontawesome.com/7c37a02403.js'></"
      ++ u "script>";
    u "  <style>";
    u "  body {";
    u "      font: 400 15px Lato, sans-serif;";
    u "      line-height: 1.8;";
    u "      color: #818181;";
    u "  }";
    u "  p { font-size: 16px; }";
    u "  .bg-1 { background-color: #1abc9c; color: #ffffff; }";
    u "  .bg-2 { background-color: #474e5d; color: #ffffff; }";
    u "  .bg-3 { background-color: #ffffff; color: #555555; }";
    u "  .bg-4 { background-color: #2f2f2f; color: #fff; }";
    u "  h2 {";
    u "      font-size: 24px;";
    u "      text-transform: uppercase;";
    u "      color: #303030;";
    u "      font-weight: 600;";
    u "      margin-bottom: 30px;";
    u "  }";
    u "  .navbar {";
    u "      margin-bottom: 0;";
    u "      background-color: #2f2f2f;";
    u "      z-index: 9999;";
    u "      border: 0;";
    u "      font-size: 12px !important;";
    u "      line-height: 1.42857143 !important;";
    u "      letter-spacing: 4px;";
    u "      border-radius: 0;";
    u "      font-family: Montserrat, sans-serif;";
    u "  }";
    u "  .navbar li a, .navbar .navbar-brand { color: #fff !importa"
      ++ u "nt; }";
    u "  .navbar-nav li a:hover, .navbar-nav li.active a {";
    u "      color: #1abc9c !important;";
    u "      background-color: #fff !important;";
    u "  }";
    u "  .navbar-default .navbar-toggle { border-color: transparent"
      ++ u "; color: #fff !important; }";
    u "  .container-fluid { padding: 60px 50px; }";
    u "  .section-divider {";
    u "      width: 60px;";
    u "      height: 3px;";
    u "      background: #1abc9c;";
    u "      margin: 0 0 30px 0;";
    u "  }";
    u "  .bg-grey { background-color: #f6f6f6; }";
    u "  .email-iframe {";
    u "      width: 100%;";
    u "      border: none;";
    u "      min-height: 600px;";
    u "      border-radius: 8px;";
    u "      box-shadow: 0 2px 12px rgba(0,0,0,0.08);";
    u "  }";
    u "  .back-link {";
    u "      display: inline-block;";
    u "      margin-bottom: 20px;";
    u "      color: #1abc9c;";
    u "      font-family: Montserrat, sans-serif;";
    u "      font-size: 13px;";
    u "      letter-spacing: 1px;";
    u "      text-decoration: none;";
    u "  }";
    u "  .back-link:hover { color: #16a085; text-decoration: underl"
      ++ u "ine; }";
    u "  .date-heading {";
    u "      font-family: Montserrat, sans-serif;";
    u "      font-size: 14px;";
    u "      color: #1abc9c;";
    u "      text-transform: uppercase;";
    u "      letter-spacing: 2px;";
    u "      margin-bottom: 5px;";
    u "  }";
    u "  @media screen and (max-width: 768px) {";
    u "    .container-fluid { padding: 40px 20px; }";
    u "  }";
    u "  </style>";
    u "</head>";
    u "<body>";
    [];
    uq "<nav class='navbar navbar-default navbar-fixed-top'>";
    uq "  <div class='container'>";
    uq "    <div class='navbar-header'>";
    uq "      <button type='button' class='navbar-toggle' data-toggl"
      ++ uq "e='collapse' data-target='#myNavbar'>";
    uq "        <span class='icon-bar'></span>";
    uq "        <span class='icon-bar'></span>";
    uq "        <span class='icon-bar'></span>";
    u "      </button>";
    uq "      <a class='navbar-brand' href='../../index.html'>Dave L"
      ++ u "iu</a>";
    u "    </div>";
    uq "    <div class='collapse navbar-collapse' id='myNavbar'>";
    uq "      <ul class='nav navbar-nav navbar-right'>";
    uq "        <li><a href='../../portfolio.html'>Portfolio</a></li"
      ++ u ">";
    uq "        <li><a href='../../index.html'>Data</a></li>";
    uq "        <li><a href='../../autotrader.html'>AutoTrader</a></"
      ++ u "li>";
    uq "        <li class='active'><a href='index.html'>Daily Update"
      ++ u "s</a></li>";
    uq "        <li><a href='https://www.linkedin.com/in/dave-liu-a3"
      ++ uq "139775/' target='_blank'><span class='fa fa-linkedin'></span"
      ++ u "></a></li>";
    uq "        <li><a href='https://github.com/daliu' target='_blan"
      ++ uq "k'><span class='fa fa-github'></span></a></li>";
    u "      </ul>";
    u "    </div>";
    u "  </div>";
    u "</nav>";
    [];
    uq "<div style='height: 50px;'></div>";
    [];
    uq "<div class='container-fluid'>";
    uq "  <a href='index.html' class='back-link'>&larr; All Daily Up"
      ++ u "dates</a>";
    uq "  <div class='date-heading'>"
      ++ month_name (month date_obj)
      ++ u " "
      ++ str_of_N (day date_obj)
      ++ u ", "
      ++ str_of_N (year date_obj)
      ++ u "</div>";
    u "  <h2>Daily Market Update</h2>";
    uq "  <div class='section-divider'></div>";
    u "  <p>AutoTrader's daily predictions and market analysis for "
      ++ u "the upcoming trading day. This report includes top bullish a"
      ++ u "nd bearish picks, market sentiment indicators, economic cale"
      ++ u "ndar events, and social sentiment data.</p>";
    [];
    uq "  <iframe src='emails/"
      ++ date_str
      ++ uq ".html' class='email-iframe' id='emailFrame'></iframe>";
    u "</div>";
    [];
    uq "<footer class='container-fluid text-center' style='backgroun"
      ++ uq "d: #2f2f2f; padding: 40px 50px; color: #95a5a6;'>";
    uq "  <div style='margin-bottom: 15px;'>";
    uq "    <a href='https://www.linkedin.com/in/dave-liu-a3139775/'"
      ++ uq " target='_blank' style='color: #fff; margin: 0 12px; font-si"
      ++ uq "ze: 20px;'><span class='fa fa-linkedin'></span></a>";
    uq "    <a href='https://github.com/daliu' target='_blank' style"
      ++ uq "='color: #fff; margin: 0 12px; font-size: 20px;'><span class"
      ++ uq "='fa fa-github'></span></a>";
    uq "    <a href='mailto:7david12liu@gmail.com' style='color: #ff"
      ++ uq "f; margin: 0 12px; font-size: 20px;'><span class='fa fa-enve"
      ++ uq "lope-o'></span></a>";
    u "  </div>";
    uq "  <p style='margin-bottom: 5px;'><a href='../../portfolio.ht"
      ++ uq "ml' style='color: #1abc9c;'>Portfolio</a> &middot; <a href='"
      ++ uq "../../index.html' style='color: #1abc9c;'>Data</a> &middot; "
      ++ uq "<a href='../../autotrader.html' style='color: #1abc9c;'>Auto"
      ++ uq "Trader</a> &middot; <a href='index.html' style='color: #1abc"
      ++ uq "9c;'>Daily Updates</a></p>";
    uq "  <p style='font-size: 12px; margin-bottom: 0;'>Dave Liu &co"
      ++ u "py; 2025</p>";
    u "</footer>";
    [];
    u "<script>";
    u "// Auto-resize iframe to fit content";
    u "function resizeIframe() {";
    u "  var iframe = document.getElementById('emailFrame');";
    u "  try {";
    u "    var height = iframe.contentWindow.document.documentEleme"
      ++ u "nt.scrollHeight;";
    u "    iframe.style.height = height + 40 + 'px';";
    u "  } catch(e) {";
    u "    // Cross-origin fallback: set a generous default";
    u "    iframe.style.height = '3000px';";
    u "  }";
    u "}";
    u "document.getElementById('emailFrame').addEventListener('load"
      ++ u "', resizeIframe);";
    u "</script>";
    [];
    u "</body></html>" ].

(** [generate_wrapper_page(date_str, date_obj)]: the lines above, each
    ended by a line break.  The orchestrator below takes the page
    generator as a parameter; this is the one the script passes. *)
Definition wrapper_page (date_str : str) (date_obj : date) : str :=
  join [10%N] (wrapper_lines date_str date_obj) ++ [10%N].

(** *** The index merge engine *)

Definition ENTRY_START : str := Eval cbv in u "<!-- DAILY-ENTRIES -->".
Definition ENTRY_END : str := Eval cbv in u "<!-- /DAILY-ENTRIES -->".

(** The value stored under a date: [{"description": str}]. *)
Record info : Type := Info { description : str }.

Definition any_char (c : N) : bool := true.

Definition card_date_re : regex :=
  Seq (Cls isdecimal) (Seq (Cls isdecimal) (Seq (Cls isdecimal)
    (Seq (Cls isdecimal) (Seq (Chr 45) (Seq (Cls isdecimal)
      (Seq (Cls isdecimal) (Seq (Chr 45) (Seq (Cls isdecimal)
        (Cls isdecimal))))))))).

(** The end of a card: [</p>\s*</a>\s*</div>] *)
Definition card_close_re : regex :=
  Seq (Lit (u "</p>")) (Seq (Star isspace)
  (Seq (Lit (u "</a>")) (Seq (Star isspace)
  (Lit (u "</div>"))))).

Definition card_pattern : regex :=
  Seq (Lit (uq "<div class='update-card'>")) (Seq (Star isspace)
  (Seq (Lit (uq "<a href='")) (Seq (Grp 1 card_date_re)
  (Seq (Lit (uq ".html'>")) (Seq (Star isspace)
  (Seq (Lit (uq "<div class='update-date'>")) (Seq (StarLazy any_char)
  (Seq (Lit (u "</div>")) (Seq (Star isspace)
  (Seq (Lit (uq "<div class='update-title'>")) (Seq (StarLazy any_char)
  (Seq (Lit (u "</div>")) (Seq (Star isspace)
  (Seq (Lit (uq "<p class='update-desc'>")) (Seq (Grp 2 (StarLazy any_char))
  card_close_re))))))))))))))).

Definition parse_existing_entries (index_html : str) : gmap str info :=
  let start_idx := find index_html ENTRY_START in
  let end_idx := find index_html ENTRY_END in
  if ((start_idx =? -1) || (end_idx =? -1))%Z then ∅
  else
    let content :=
      slice index_html (start_idx + Z.of_nat (length ENTRY_START)) end_idx in
    fold_left
      (fun entries m =>
         <[group m 1 := Info (strip (group m 2))]> entries)
      (finditer card_pattern content) ∅.

Definition generate_card (date_str : str) (date_obj : date)
           (description : str) : str :=
  uq "  <div class='update-card'>" ++ [10%N]
    ++ uq "    <a href='" ++ date_str ++ uq ".html'>" ++ [10%N]
    ++ uq "      <div class='update-date'>" ++ format_date_display date_obj
    ++ u "</div>" ++ [10%N]
    ++ uq "      <div class='update-title'>Daily Market Update</div>"
    ++ [10%N]
    ++ uq "      <p class='update-desc'>" ++ description ++ u "</p>"
    ++ [10%N]
    ++ u "    </a>" ++ [10%N]
    ++ u "  </div>".

(** The order of [str] values: lexicographic on code points. *)
Fixpoint str_ltb (a b : str) : bool :=
  match a, b with
  | _, [] => false
  | [], _ :: _ => true
  | x :: a', y :: b' => (x <? y)%N || ((x =? y)%N && str_ltb a' b')
  end.

(** [sorted(keys, reverse=True)] *)
Fixpoint insert_desc (x : str) (l : list str) : list str :=
  match l with
  | [] => [x]
  | y :: l' => if str_ltb x y then y :: insert_desc x l' else x :: l
  end.

Definition sorted_desc (l : list str) : list str :=
  fold_right insert_desc [] l.

Definition month_header_line (date_obj : date) : str :=
  [10%N] ++ uq "  <h4 style='margin-top: 30px;'>"
    ++ format_month_header date_obj ++ u "</h4>".

(** The loop of [generate_entries_html] over the sorted dates: the lines
    appended from [dates] on, [None] when [strptime] raises. *)
Fixpoint entries_lines (entries : gmap str info) (dates : list str)
         (current_month : option (N * N)) : option (list str) :=
  match dates with
  | [] => Some []
  | date_str :: dates' =>
      match strptime date_str with
      | None => None
      | Some date_obj =>
          let month_key := (year date_obj, month date_obj) in
          let header :=
            if decide (Some month_key = current_month) then []
            else [month_header_line date_obj] in
          let description :=
            match entries !! date_str with
            | Some i => description i
            | None => FALLBACK
            end in
          match entries_lines entries dates' (Some month_key) with
          | None => None
          | Some rest =>
              Some (header ++ [[]; generate_card date_str date_obj description]
                      ++ rest)
          end
      end
  end.

Definition generate_entries_html (entries : gmap str info) : option str :=
  if decide (entries = ∅) then Some []
  else
    let sorted_dates := sorted_desc (map_to_list entries).*1 in
    match entries_lines entries sorted_dates None with
    | Some lines => Some (join [10%N] lines)
    | None => None
    end.


(** *** The orchestrator *)

(** The directory of the script, [os.path.dirname(os.path.abspath(__file__))]. *)
Variable SCRIPT_DIR : str.

Definition DAILY_DIR : str :=
  path_join (path_join SCRIPT_DIR (u "autotrader")) (u "daily").
Definition EMAILS_DIR : str := path_join DAILY_DIR (u "emails").
Definition INDEX_PATH : str := path_join DAILY_DIR (u "index.html").

(** [generate_wrapper_page]: a static page template with the date
    substituted; its text takes no part in the index. *)
Variable generate_wrapper_page : str -> date -> str.

(** The external version-control tool: its exit status and what it does
    to the files. *)
Variable git : list str -> gmap str data -> Z * gmap str data.

(** The code points beyond ASCII that the encoding of text files, and
    the encoding of standard output, can encode. *)
Variable file_enc : N -> bool.
Variable stdout_enc : N -> bool.

Definition writable (text : str) : bool := can_encode file_enc text.
Definition printable (line : str) : bool := can_encode stdout_enc line.

(** [open(path, "w").write(text)]: opening truncates the file; the text
    is encoded before any of it is written, so a text that cannot be
    encoded leaves the file empty and raises [UnicodeEncodeError]. *)
Definition write_file (path : str) (text : str) : M unit :=
  fun w =>
    if writable text then
      (Return tt, World (<[path := Text text]> (files w)) (stdout w))
    else
      (Raise UnicodeEncodeError,
       World (<[path := Text []]> (files w)) (stdout w)).

(** [print(line)]: a line that cannot be encoded raises
    [UnicodeEncodeError] and prints nothing. *)
Definition print (line : str) : M unit :=
  fun w =>
    if printable line then
      (Return tt, World (files w) (stdout w ++ [line]))
    else (Raise UnicodeEncodeError, w).

(** [subprocess.run(["git", ...])]: the return code. *)
Definition run_git (args : list str) : M Z :=
  fun w => let '(code, fs) := git args (files w) in
           (Return code, World fs (stdout w)).

(** [subprocess.run(["git", ...], check=True)] *)
Definition run_git_checked (args : list str) : M unit :=
  code ← run_git args;
  if (code =? 0)%Z then mret tt else raise CalledProcessError.

(** [entries[date_str] = {"description": description}] *)
Definition merge_entry (entries : gmap str info) (date_str description : str)
  : gmap str info :=
  <[date_str := Info description]> entries.

Definition update_index (date_str description : str) : M unit :=
  html ← read_file INDEX_PATH;
  if negb (contains html ENTRY_START) || negb (contains html ENTRY_END) then
    print (u "ERROR: Markers not found in " ++ INDEX_PATH);;
    print (u "  Expected: " ++ ENTRY_START ++ u " and " ++ ENTRY_END);;
    sys_exit 1
  else
    let entries := parse_existing_entries html in
    let entries := merge_entry entries date_str description in
    match generate_entries_html entries with
    | None => raise ValueError
    | Some entries_html =>
        let start_idx := find html ENTRY_START in
        let end_idx := find html ENTRY_END in
        let new_html :=
          slice_to html (start_idx + Z.of_nat (length ENTRY_START))
            ++ entries_html ++ [10; 32; 32]%N ++ slice_from html end_idx in
        write_file INDEX_PATH new_html;;
        print (u "  Updated " ++ INDEX_PATH ++ u " ("
                 ++ str_of_N (N.of_nat (size entries)) ++ u " entries)")
    end.

(** The parsed command line: [--date], [--source], [--no-push]. *)
Record args : Type :=
  Args { arg_date : str; arg_source : str; arg_no_push : bool }.

Definition push_changes (date_str : str) : M unit :=
  print (u "  Committing and pushing...");;
  run_git_checked [u "add"; u "autotrader/daily/"];;
  result ← run_git [u "diff"; u "--cached"; u "--quiet"];
  if negb (result =? 0)%Z then
    run_git_checked
      [u "commit"; u "-m"; u "daily: " ++ date_str ++ u " market update"];;
    run_git_checked [u "pull"; u "--rebase"];;
    run_git_checked [u "push"];;
    print (u "  Pushed to GitHub!")
  else print (u "  No changes to commit (already up to date)").

Definition main (a : args) : M unit :=
  match strptime (arg_date a) with
  | None =>
      print (u "ERROR: Invalid date format '" ++ arg_date a
               ++ u "'. Use YYYY-MM-DD.");;
      sys_exit 1
  | Some date_obj =>
      let date_str := arg_date a in
      source_exists ← path_exists (arg_source a);
      if negb source_exists then
        print (u "ERROR: Source file not found: " ++ arg_source a);;
        sys_exit 1
      else
        print (u "Publishing daily email for " ++ date_str);;
        print (u "  Source: " ++ arg_source a);;
        let email_dest := path_join EMAILS_DIR (date_str ++ u ".html") in
        copy2 (arg_source a) email_dest;;
        print (u "  Copied email to " ++ email_dest);;
        email_html ← read_file email_dest;
        let description := extract_description email_html in
        print (u "  Description: " ++ description);;
        let wrapper_path := path_join DAILY_DIR (date_str ++ u ".html") in
        write_file wrapper_path (generate_wrapper_page date_str date_obj);;
        print (u "  Generated wrapper: " ++ wrapper_path);;
        update_index date_str description;;
        (if negb (arg_no_push a) then push_changes date_str
         else print (u "  Skipping git (--no-push)"));;
        print ([10%N] ++ u "Done! View at: https://daliu.github.io/autotrader/daily/"
                 ++ date_str ++ u ".html")
  end.

(** What [main] does after the index update. *)
Definition after_index (a : args) : M unit :=
  (if negb (arg_no_push a) then push_changes (arg_date a)
   else print (u "  Skipping git (--no-push)"));;
  print ([10%N] ++ u "Done! View at: https://daliu.github.io/autotrader/daily/"
           ++ arg_date a ++ u ".html").


(** *** Auxiliary notions of the statements *)

(** No match of [r] starts at any of the first [n] positions of [text]. *)
Definition no_match_before (r : regex) (text : str) (n : nat) : bool :=
  forallb (fun i => match match_here r (drop i text) with
                    | Some _ => false
                    | None => true
                    end) (seq 0 n).

(** The first character of [s], if any, is outside the class [p]. *)
Definition not_next (p : N -> bool) (s : str) : bool :=
  match s with
  | c :: _ => negb (p c)
  | [] => true
  end.

(** What [find] returns: the length of the text before the first
    occurrence, or -1 when there is none. *)
Inductive find_result (s sub : str) : Z -> Prop :=
| Found (a b : str) :
    s = a ++ sub ++ b ->
    (forall j, j < length a -> starts_with sub (drop j s) = false) ->
    find_result s sub (Z.of_nat (length a))
| NotFound :
    (forall j, starts_with sub (drop j s) = false) ->
    find_result s sub (-1).

(** [new] is [old] with the text between a start marker and a later end
    marker replaced: the text through the start marker and the text from
    the end marker on are those of [old]. *)
Definition spliced (old new : str) : Prop :=
  exists before between region after,
    old = before ++ ENTRY_START ++ between ++ ENTRY_END ++ after
    /\ new = before ++ ENTRY_START ++ region ++ ENTRY_END ++ after.

(** Every code point of the text is a printable ASCII character. *)
Definition is_plain (s : str) : bool :=
  forallb (fun c => (32 <=? c)%N && (c <? 127)%N) s.

(** Every code point of the text is ASCII. *)
Definition is_ascii (s : str) : bool := forallb (fun c => (c <? 128)%N) s.

(** The text [update_index] writes to the index file, for the text
    [html] it read and the region [entries_html] it generated. *)
Definition new_html (html entries_html : str) : str :=
  slice_to html (find html ENTRY_START + Z.of_nat (length ENTRY_START))
    ++ entries_html ++ [10; 32; 32]%N ++ slice_from html (find html ENTRY_END).

(** The closing line of [update_index], for a mapping of [n] entries. *)
Definition updated_line (n : nat) : str :=
  u "  Updated " ++ INDEX_PATH ++ u " ("
    ++ str_of_N (N.of_nat n) ++ u " entries)".

(** The text holds no carriage return. *)
Definition no_cr (s : str) : bool := forallb (fun c => negb (c =? 13)%N) s.

(** The entries with each description as a reader of the index file
    gets it. *)
Definition as_read (entries : gmap str info) : gmap str info :=
  (fun i => Info (universal_newlines (description i))) <$> entries.

(** [html] has its first end marker before its first start marker, and
    [new] holds the text [between] them twice: in the part kept through
    the start marker and in the part kept from the end marker on. *)
Definition duplicated_between (html new : str) : Prop :=
  exists a between c region,
    html = a ++ ENTRY_END ++ between ++ ENTRY_START ++ c
    /\ find html ENTRY_END = Z.of_nat (length a)
    /\ find html ENTRY_START
       = Z.of_nat (length (a ++ ENTRY_END ++ between))
    /\ new = (a ++ ENTRY_END ++ between ++ ENTRY_START) ++ region
               ++ (ENTRY_END ++ between ++ ENTRY_START ++ c).

(** A line starting with [ERROR: ] was printed between [w] and [w']. *)
Definition diagnostic_printed (w w' : world) : Prop :=
  exists before line after,
    stdout w' = stdout w ++ before ++ [u "ERROR: " ++ line] ++ after.

(** The lines [main] prints between its two checks and the index
    update, for the text [email_html] read from the archive copy. *)
Definition progress_lines (a : args) (email_html : str) : list str :=
  [u "Publishing daily email for " ++ arg_date a;
   u "  Source: " ++ arg_source a;
   u "  Copied email to " ++ path_join EMAILS_DIR (arg_date a ++ u ".html");
   u "  Description: " ++ extract_description email_html;
   u "  Generated wrapper: " ++ path_join DAILY_DIR (arg_date a ++ u ".html")].

(** The run reaches the index update: the date parses, the source is a
    file of text [email] other than its archive copy, the wrapper page
    can be encoded, and so can each line printed on the way. *)
Definition reaches_index (a : args) (w : world) (date_obj : date)
           (email : str) : Prop :=
  strptime (arg_date a) = Some date_obj
  /\ files w !! arg_source a = Some (Text email)
  /\ arg_source a <> path_join EMAILS_DIR (arg_date a ++ u ".html")
  /\ forallb printable (progress_lines a (universal_newlines email)) = true
  /\ writable (generate_wrapper_page (arg_date a) date_obj) = true.

(** The input errors [main] checks for, in the order it checks them, each
    with its [ERROR] line printed: the date does not parse; the source
    file does not exist; the index document, read once the run reaches the
    index update, lacks a marker. *)
Definition input_error (a : args) (w : world) : Prop :=
  (strptime (arg_date a) = None
   /\ printable (u "ERROR: Invalid date format '" ++ arg_date a
                   ++ u "'. Use YYYY-MM-DD.") = true)
  \/ (is_Some (strptime (arg_date a)) /\ files w !! arg_source a = None
      /\ printable (u "ERROR: Source file not found: " ++ arg_source a)
         = true)
  \/ (exists date_obj email index,
        reaches_index a w date_obj email
        /\ files w !! INDEX_PATH = Some (Text index)
        /\ (contains (universal_newlines index) ENTRY_START = false
            \/ contains (universal_newlines index) ENTRY_END = false)
        /\ printable (u "ERROR: Markers not found in " ++ INDEX_PATH) = true).

(** A computation that never calls [sys.exit]. *)
Definition no_exit {A : Type} (m : M A) : Prop :=
  forall w code w', m w <> (SysExit code, w').

(** The strings of the form [\d{4}-\d{2}-\d{2}], the dates a card can hold. *)
Definition is_card_date (d : str) : bool :=
  match d with
  | [y1; y2; y3; y4; h1; m1; m2; h2; d1; d2] =>
      isdecimal y1 && isdecimal y2 && isdecimal y3 && isdecimal y4
      && (h1 =? 45)%N && isdecimal m1 && isdecimal m2
      && (h2 =? 45)%N && isdecimal d1 && isdecimal d2
  | _ => false
  end.

(** [P] occurs in [s]. *)
Definition occurs (P s : str) : Prop := exists x y, s = x ++ P ++ y.

(** In [s ++ t], no occurrence of [P] starts inside [s]. *)
Definition absent (P s t : str) : Prop :=
  forall x y, s ++ t = x ++ P ++ y -> length s <= length x.

(** The text [s] starts with the end of a card. *)
Definition closes (s : str) : Prop :=
  exists w1 w2 r,
    forallb isspace w1 = true /\ forallb isspace w2 = true
    /\ s = u "</p>" ++ w1 ++ u "</a>" ++ w2 ++ u "</div>" ++ r.

(** Every [<] of [s] is followed, inside [s], by [/a] or [/d]. *)
Fixpoint lt_ok (s : str) : bool :=
  match s with
  | [] => true
  | c :: s' =>
      (if (c =? 60)%N then
         match s' with
         | 47%N :: x :: _ => (x =? 97)%N || (x =? 100)%N
         | _ => false
         end
       else true) && lt_ok s'
  end.

(** The text [generate_card] writes after a description. *)
Definition CARD_CLOSING : str :=
  u "</p>" ++ [10%N] ++ u "    </a>" ++ [10%N] ++ u "  </div>".

(** A description that [generate_card] followed by the card pattern gives
    back: no end of card is found from a place inside it. *)
Definition stable (D : str) : Prop :=
  forall a1 a2 tail,
    D = a1 ++ a2 -> a2 <> [] -> ~ closes (a2 ++ CARD_CLOSING ++ tail).

(** No end of card is found from any place of [D]. *)
Definition no_card_end (D : str) : bool :=
  forallb (fun i => match match_here card_close_re (drop i D) with
                    | Some _ => false
                    | None => true
                    end) (seq 0 (length D)).

(** The card [generate_card] writes, after its two leading spaces, with
    [shown] for the displayed date. *)
Definition card_body (date_str shown description : str) : str :=
  uq "<div class='update-card'>" ++ [10; 32; 32; 32; 32]%N
    ++ uq "<a href='" ++ date_str ++ uq ".html'>"
    ++ [10; 32; 32; 32; 32; 32; 32]%N
    ++ uq "<div class='update-date'>" ++ shown ++ u "</div>"
    ++ [10; 32; 32; 32; 32; 32; 32]%N
    ++ uq "<div class='update-title'>" ++ u "Daily Market Update"
    ++ u "</div>" ++ [10; 32; 32; 32; 32; 32; 32]%N
    ++ uq "<p class='update-desc'>" ++ description ++ CARD_CLOSING.

(** The text has no [<]. *)
Definition no_lt (s : str) : bool := forallb (fun c => negb (c =? 60)%N) s.

(** The literal a card starts with. *)
Definition CARD_OPEN : str := uq "<div class='update-card'>".

(** The entry [parse_existing_entries] stores for a match. *)
Definition entry_of (m : match_obj) : str * info :=
  (group m 1, Info (strip (group m 2))).

(** [P] and [s] differ at a place both have. *)
Fixpoint clash (P s : str) : bool :=
  match P, s with
  | x :: P', y :: s' => negb (x =? y)%N || clash P' s'
  | _, _ => false
  end.

(** From no place of the literal [L] can [P] start, whatever follows. *)
Definition lit_clear (P L : str) : bool :=
  forallb (fun i => clash P (drop i L)) (seq 0 (length L)).

(** [P] starts with its only [<]. *)
Definition tag_like (P : str) : Prop :=
  exists P', P = 60%N :: P' /\ no_lt P' = true.

(** The lines of the generated region, each after a line break. *)
Definition flat (lines : list str) : str :=
  concat (List.map (fun l => [10%N] ++ l) lines).

(** The description [generate_entries_html] writes for a date. *)
Definition desc_of (entries : gmap str info) (date_str : str) : str :=
  match entries !! date_str with
  | Some i => description i
  | None => FALLBACK
  end.

(** An entry that is read back as it is written. *)
Definition good (entries : gmap str info) (date_str : str) : Prop :=
  is_card_date date_str = true
  /\ stable (desc_of entries date_str)
  /\ strip (desc_of entries date_str) = desc_of entries date_str
  /\ ~ occurs ENTRY_END (desc_of entries date_str).

(** Zero-padded decimal digits, and [date.isoformat()]: the form
    [YYYY-MM-DD]. *)
Definition pad2 (n : N) : str :=
  [48 + n / 10 mod 10; 48 + n mod 10]%N.

Definition pad4 (n : N) : str :=
  [48 + n / 10 / 10 / 10 mod 10; 48 + n / 10 / 10 mod 10;
   48 + n / 10 mod 10; 48 + n mod 10]%N.

Definition isoformat (o : date) : str :=
  pad4 (year o) ++ [45%N] ++ pad2 (month o) ++ [45%N] ++ pad2 (day o).

(** A date string in the zero-padded form of the date it denotes. *)
Definition canonical (k : str) : bool :=
  match strptime k with
  | Some o => bool_decide (k = isoformat o)
  | None => false
  end.

(** The order of calendar dates, and of (year, month) pairs. *)
Definition date_ltb (a b : date) : bool :=
  ((year a <? year b)
   || ((year a =? year b)
       && ((month a <? month b)
           || ((month a =? month b) && (day a <? day b)))))%N.

Definition month_ltb (a b : N * N) : bool :=
  ((a.1 <? b.1) || ((a.1 =? b.1) && (a.2 <? b.2)))%N.

(** The (year, month) pair of a date string. *)
Definition month_key (k : str) : option (N * N) :=
  match strptime k with
  | Some o => Some (year o, month o)
  | None => None
  end.

(** [k1] comes before [k2] in a list sorted in descending string order. *)
Definition str_gt (k1 k2 : str) : Prop := str_ltb k2 k1 = true.

(** [k1] denotes a later calendar date than [k2]. *)
Definition later (k1 k2 : str) : Prop :=
  match strptime k1, strptime k2 with
  | Some o1, Some o2 => date_ltb o2 o1 = true
  | _, _ => False
  end.

(** The date string [k] lies in the month [mk]. *)
Definition in_month (mk : N * N) (k : str) : bool :=
  match month_key k with
  | Some (y, m) => ((y =? mk.1) && (m =? mk.2))%N
  | None => false
  end.

(** The dates [ks] span exactly the two distinct months [A] and [B]. *)
Definition spans_two (ks : list str) (A B : N * N) : bool :=
  negb ((A.1 =? B.1) && (A.2 =? B.2))%N
  && forallb (fun k => in_month A k || in_month B k) ks
  && existsb (in_month A) ks && existsb (in_month B) ks.

(** The lines of the cards of the dates [ks], each after an empty line. *)
Fixpoint card_lines (entries : gmap str info) (ks : list str) : list str :=
  match ks with
  | [] => []
  | k :: ks' =>
      match strptime k with
      | Some o => [[]; generate_card k o (desc_of entries k)]
      | None => []
      end ++ card_lines entries ks'
  end.

(** The header line of a (year, month) pair. *)
Definition header_of (mk : N * N) : str :=
  month_header_line (Date mk.1 mk.2 1).

(** The region generated for [entries] is the header of [hi], the cards
    of [ks1], the header of [lo] and the cards of [ks2]: two groups, the
    later month first, the dates in descending order. *)
Definition two_month_groups (entries : gmap str info) (A B : N * N)
           (html : str) : Prop :=
  exists hi lo ks1 ks2,
    ((hi = A /\ lo = B) \/ (hi = B /\ lo = A))
    /\ month_ltb lo hi = true
    /\ sorted_desc (map_to_list entries).*1 = ks1 ++ ks2
    /\ ks1 <> [] /\ ks2 <> []
    /\ (forall k, k ∈ ks1 -> month_key k = Some hi)
    /\ (forall k, k ∈ ks2 -> month_key k = Some lo)
    /\ StronglySorted later (ks1 ++ ks2)
    /\ html = join [10%N]
                ([header_of hi] ++ card_lines entries ks1
                   ++ [header_of lo] ++ card_lines entries ks2).

(** The example input of the specification. *)
Definition example_text : str :=
  u "...Total Tickers: 630... Stock Market: 40/100 - FEAR... Crypto Market: 9/100 - EXTREME FEAR... 50 trades in last 14 days...".

(** [matched r s caps s' caps']: the pattern [r] matches a prefix of [s]
    and leaves [s']; the captures [caps] become [caps']. *)
Fixpoint matched (r : regex) (s : str) (caps : captures) (s' : str)
         (caps' : captures) : Prop :=
  match r with
  | Eps => s' = s /\ caps' = caps
  | Lit l => s = l ++ s' /\ caps' = caps
  | Cls p => exists c, s = c :: s' /\ p c = true /\ caps' = caps
  | Seq a b =>
      exists s1 caps1, matched a s caps s1 caps1 /\ matched b s1 caps1 s' caps'
  | Alt a b => matched a s caps s' caps' \/ matched b s caps s' caps'
  | Star p | StarLazy p =>
      exists ws, s = ws ++ s' /\ forallb p ws = true /\ caps' = caps
  | Grp n a =>
      exists caps1,
        matched a s caps s' caps1
        /\ caps' = (n, take (length s - length s') s) :: caps1
  end.

(** A fragment of a description: not empty, without [<], and with no
    whitespace at either end. *)
Definition fragment_ok (p : str) : Prop :=
  p <> [] /\ no_lt p = true
  /\ not_next isspace p = true /\ not_next isspace (rev p) = true.

(** Every whitespace character of the text is a space, and no two of
    them are adjacent. *)
Fixpoint single_spaced (s : str) : bool :=
  match s with
  | [] => true
  | c :: s' =>
      (if isspace c then (c =? 32)%N && not_next isspace s' else true)
      && single_spaced s'
  end.

(** The dates [ks] cut into runs of consecutive dates of one month, each
    run with its (year, month); [generate_entries_html] starts a new
    header where the month changes. *)
Fixpoint month_runs (ks : list str) : list ((N * N) * list str) :=
  match ks with
  | [] => []
  | k :: ks' =>
      match month_key k with
      | None => month_runs ks'
      | Some mk =>
          match month_runs ks' with
          | (mk', run) :: runs =>
              if decide (mk = mk') then (mk, k :: run) :: runs
              else (mk, [k]) :: (mk', run) :: runs
          | [] => [(mk, [k])]
          end
      end
  end.

(** The lines of one run: its header, then its cards. *)
Definition run_lines (entries : gmap str info) (r : (N * N) * list str)
  : list str :=
  header_of r.1 :: card_lines entries r.2.

(** *** Example inputs *)

(** An index document with one hand-written card. *)
Definition example_region : str :=
  [10%N]
    ++ uq "<div class='update-card'> <a href='2026-02-17.html'>"
    ++ uq " <div class='update-date'>Tuesday</div>"
    ++ uq " <div class='update-title'>Update</div>"
    ++ uq " <p class='update-desc'> 630 tickers analyzed </p> </a> </div>"
    ++ [10%N].

Definition example_index : str :=
  u "<html>" ++ ENTRY_START ++ example_region ++ ENTRY_END ++ u "</html>".

(** An index document whose card holds a date that is no calendar date. *)
Definition bad_date_index : str :=
  ENTRY_START
    ++ uq "<div class='update-card'><a href='2026-02-30.html'>"
    ++ uq "<div class='update-date'></div>"
    ++ uq "<div class='update-title'></div>"
    ++ uq "<p class='update-desc'>x</p></a></div>"
    ++ ENTRY_END.

(** An index document with the end marker before the start marker. *)
Definition inverted_index : str :=
  u "<body>" ++ ENTRY_END ++ u "middle" ++ ENTRY_START ++ u "</body>".

Definition world_with (index_html : str) : world :=
  World {[INDEX_PATH := Text index_html]} [].

(** A world with an email to publish and the index [index_html]. *)
Definition world_with_email (index_html : str) : world :=
  World (<[u "/tmp/email.html" := Text example_text]>
           {[INDEX_PATH := Text index_html]}) [].

(** Entries of February and March 2026. *)
Definition two_month_entries : gmap str info :=
  <[u "2026-02-18" := Info (u "a")]>
    (<[u "2026-03-01" := Info (u "b")]>
       (<[u "2026-02-19" := Info (u "c")]> ∅)).

(** Entries of February and October 2026, the first not zero-padded. *)
Definition unpadded_entries : gmap str info :=
  <[u "2026-2-08" := Info (u "a")]> (<[u "2026-10-01" := Info (u "b")]> ∅).

(** A site directory, a wrapper page and a git that changes nothing. *)
Definition site : str := u "/site".

Definition plain_page : str -> date -> str :=
  fun _ _ => u "<html></html>".

Definition quiet_git : list str -> gmap str data -> Z * gmap str data :=
  fun _ fs => (0%Z, fs).

(** A git whose every command fails. *)
Definition failing_git : list str -> gmap str data -> Z * gmap str data :=
  fun _ fs => (1%Z, fs).

(** An index document without markers. *)
Definition bare_index : str := u "<html><body></body></html>".

(** A world whose email to publish does not decode, and whose index
    document has no markers. *)
Definition world_with_bytes : world :=
  World (<[u "/tmp/email.html" := Bytes [255%N]]>
           {[INDEX_PATH := Text bare_index]}) [].

(** The command line of the examples: publish 2026-02-18 from
    [/tmp/email.html] without pushing. *)
Definition example_args : args :=
  Args (u "2026-02-18") (u "/tmp/email.html") true.

(** An index document with an empty region. *)
Definition empty_index : str := ENTRY_START ++ ENTRY_END.

(** An index document whose first line ends with a carriage return and a
    line feed. *)
Definition crlf_index : str :=
  u "<html>" ++ [13; 10]%N ++ ENTRY_START ++ ENTRY_END ++ u "</html>".

(** UTF-8 with the error handler [strict]: every code point but the
    surrogates. *)
Definition utf8 : N -> bool := fun c => ((c <? 55296) || (57343 <? c))%N.

(** The description the specification gives for the example input,
    with the character U+00B7 between the fragments. *)
Definition claimed_description : str :=
  u "630 tickers analyzed " ++ [183%N]
    ++ u " Market sentiment: Fear (40/100) " ++ [183%N]
    ++ u " Crypto: Extreme Fear (9/100) " ++ [183%N]
    ++ u " 50 congress trades tracked".

(** ** Properties *)

#[local] Opaque ENTRY_START ENTRY_END.

(** *** The matcher *)

Lemma strip_prefix_app l s : strip_prefix l (l ++ s) = Some s.
Proof.
  induction l as [|a l IH]; simpl; [done|].
  by rewrite N.eqb_refl.
Qed.

Lemma strip_prefix_Some l s s' : strip_prefix l s = Some s' -> s = l ++ s'.
Proof.
  revert s; induction l as [|a l IH]; intros [|b s]; simpl; try congruence.
  destruct (N.eqb_spec a b); [|done].
  intros H; apply IH in H; by subst.
Qed.

Lemma match_lit {R} l s caps (k : str -> captures -> option R) :
  match_k (Lit l) (l ++ s) caps k = k s caps.
Proof. simpl. by rewrite strip_prefix_app. Qed.

Lemma star_greedy_app {R} p ws s (k : str -> option R) r :
  forallb p ws = true -> not_next p s = true -> k s = Some r ->
  star_greedy p (ws ++ s) k = Some r.
Proof.
  intros Hws Hs Hk. induction ws as [|c ws IH]; simpl in *.
  - destruct s as [|c s]; simpl in *; [done|].
    destruct (p c); [discriminate|done].
  - apply andb_prop in Hws as [-> Hws]. by rewrite IH.
Qed.

Lemma take_consumed (a b : str) : take (length (a ++ b) - length b) (a ++ b) = a.
Proof.
  rewrite length_app.
  replace (length a + length b - length b) with (length a) by lia.
  by rewrite take_app_length.
Qed.

Lemma search_here r s m : match_here r s = Some m -> search r s = Some m.
Proof. intros H. destruct s; simpl; by rewrite H. Qed.

Lemma forallb_seq_shift (f : nat -> bool) a n :
  forallb f (seq (S a) n) = forallb (fun i => f (S i)) (seq a n).
Proof.
  revert a; induction n as [|n IH]; intros a; simpl; [done|].
  by rewrite IH.
Qed.

Lemma search_skip r pre s :
  no_match_before r (pre ++ s) (length pre) = true ->
  search r (pre ++ s) = search r s.
Proof.
  unfold no_match_before.
  induction pre as [|c pre IH]; simpl; [done|].
  destruct (match_here r (c :: pre ++ s)) eqn:E; [done|].
  intros H. apply IH. by rewrite forallb_seq_shift in H.
Qed.

Lemma match_lit_inv {R} l s caps (k : str -> captures -> option R) r :
  match_k (Lit l) s caps k = Some r ->
  exists s', s = l ++ s' /\ k s' caps = Some r.
Proof.
  simpl. destruct (strip_prefix l s) as [s'|] eqn:E; [|done].
  intros H. exists s'. split; [by apply strip_prefix_Some|done].
Qed.

Lemma star_greedy_inv {R} p s (k : str -> option R) r :
  star_greedy p s k = Some r ->
  exists a b, s = a ++ b /\ forallb p a = true /\ k b = Some r.
Proof.
  induction s as [|c s IH]; simpl.
  - intros H. by exists [], [].
  - destruct (p c) eqn:Hc.
    + destruct (star_greedy p s k) as [r'|] eqn:E.
      * intros [= <-]. destruct (IH eq_refl) as (a & b & -> & Ha & Hk).
        exists (c :: a), b. simpl. by rewrite Hc.
      * intros H. by exists [], (c :: s).
    + intros H. by exists [], (c :: s).
Qed.

(** A lazy repetition stops at the first place where the rest matches. *)
Lemma star_lazy_inv {R} p s (k : str -> option R) r :
  star_lazy p s k = Some r ->
  exists a b, s = a ++ b /\ forallb p a = true /\ k b = Some r
              /\ forall a1 a2, a = a1 ++ a2 -> a2 <> [] -> k (a2 ++ b) = None.
Proof.
  induction s as [|c s IH]; simpl.
  - destruct (k []) eqn:E; [|done]. intros [= <-].
    exists [], []. repeat split; try done.
    intros a1 a2 Ha. by destruct a1, a2.
  - destruct (k (c :: s)) eqn:E.
    + intros [= <-]. exists [], (c :: s). repeat split; try done.
      intros a1 a2 Ha. by destruct a1, a2.
    + destruct (p c) eqn:Hc; [|done]. intros H.
      destruct (IH H) as (a & b & -> & Ha & Hk & Hmin).
      exists (c :: a), b. simpl. rewrite Hc. repeat split; try done.
      intros [|x a1] a2 Heq Hne; simpl in Heq.
      * by subst a2.
      * injection Heq as -> ->. by eapply Hmin.
Qed.

Lemma star_lazy_first {R} p a b (k : str -> option R) r :
  forallb p a = true ->
  (forall a1 a2, a = a1 ++ a2 -> a2 <> [] -> k (a2 ++ b) = None) ->
  k b = Some r ->
  star_lazy p (a ++ b) k = Some r.
Proof.
  intros Hp Hmin Hk. induction a as [|c a IH].
  - simpl. destruct b; simpl; by rewrite Hk.
  - simpl in Hp. apply andb_prop in Hp as [Hc Hp].
    pose proof (Hmin [] (c :: a) eq_refl) as H0.
    cbn [app star_lazy] in *. rewrite H0, Hc by done.
    apply IH; [done|]. intros a1 a2 -> Hne.
    by apply (Hmin (c :: a1) a2).
Qed.

Lemma card_date_fwd {R} d rest caps (k : str -> captures -> option R) :
  is_card_date d = true ->
  match_k card_date_re (d ++ rest) caps k = k rest caps.
Proof.
  unfold is_card_date. intros H.
  do 10 (destruct d as [|? d]; [done|]). destruct d; [|done].
  repeat (apply andb_prop in H as [H ?]).
  unfold card_date_re, Chr. cbn [match_k app].
  repeat match goal with
         | Hd : isdecimal _ = true |- _ => rewrite Hd; clear Hd
         | Hd : (_ =? 45)%N = true |- _ => apply N.eqb_eq in Hd as ->
         end.
  done.
Qed.

Lemma card_date_inv {R} s caps (k : str -> captures -> option R) r :
  match_k card_date_re s caps k = Some r ->
  exists d rest, s = d ++ rest /\ is_card_date d = true
                 /\ k rest caps = Some r.
Proof.
  unfold card_date_re, Chr. cbn [match_k].
  do 10 (destruct s as [|? s]; [done|];
         match goal with
         | |- context [if ?b then _ else _] =>
             destruct b eqn:?; [|done]
         end).
  intros H.
  repeat match goal with
         | Hd : (45 =? _)%N = true |- _ => apply N.eqb_eq in Hd as <-
         end.
  eexists [_; _; _; _; _; _; _; _; _; _], s. split; [reflexivity|].
  split; [|done]. unfold is_card_date.
  repeat match goal with
         | Hd : isdecimal _ = true |- _ => rewrite Hd; clear Hd
         end.
  done.
Qed.

Lemma app_split_prefix (a b a' b' : str) :
  a ++ b = a' ++ b' -> length a <= length a' ->
  exists m, a' = a ++ m /\ b = m ++ b'.
Proof.
  revert a'; induction a as [|x a IH]; intros a' H Hl; simpl in *.
  - by exists a'.
  - destruct a' as [|y a']; simpl in *; [lia|].
    injection H as -> H. destruct (IH a' H) as (m & -> & ->); [lia|].
    by exists m.
Qed.

(** A string whose only occurrence of [x] is its first character cannot
    run over a boundary after which the text starts with [x]. *)
Lemma no_straddle (P m m' t t' : str) (x : N) :
  P = m ++ m' -> m <> [] -> m' <> [] -> m' ++ t = x :: t' ->
  forallb (fun c => negb (c =? x)%N) (tail P) = true -> False.
Proof.
  intros -> Hm Hm' Ht Hall.
  destruct m as [|c m]; [done|]. destruct m' as [|c' m']; [done|].
  simpl in *. injection Ht as -> _.
  rewrite forallb_app in Hall. apply andb_prop in Hall as [_ Hall].
  simpl in Hall. by rewrite N.eqb_refl in Hall.
Qed.

(** *** The end of a card *)

Lemma isspace_not_lt c : isspace c = true -> (c =? 60)%N = false.
Proof.
  intros H. destruct (N.eqb_spec c 60) as [->|]; [|done].
  vm_compute in H. discriminate.
Qed.

Lemma close_inv {R} s caps (k : str -> captures -> option R) x :
  match_k card_close_re s caps k = Some x ->
  exists w1 w2 r,
    forallb isspace w1 = true /\ forallb isspace w2 = true
    /\ s = u "</p>" ++ w1 ++ u "</a>" ++ w2 ++ u "</div>" ++ r
    /\ k r caps = Some x.
Proof.
  unfold card_close_re. cbn [match_k]. intros H.
  destruct (strip_prefix (u "</p>") s) as [s1|] eqn:E1; [|done].
  apply strip_prefix_Some in E1 as ->.
  apply star_greedy_inv in H as (w1 & s2 & -> & Hw1 & H).
  destruct (strip_prefix (u "</a>") s2) as [s3|] eqn:E3; [|done].
  apply strip_prefix_Some in E3 as ->.
  apply star_greedy_inv in H as (w2 & s4 & -> & Hw2 & H).
  destruct (strip_prefix (u "</div>") s4) as [r|] eqn:E5; [|done].
  apply strip_prefix_Some in E5 as ->.
  by exists w1, w2, r.
Qed.

Lemma close_fwd {R} w1 w2 r caps (k : str -> captures -> option R) x :
  forallb isspace w1 = true -> forallb isspace w2 = true ->
  k r caps = Some x ->
  match_k card_close_re
    (u "</p>" ++ w1 ++ u "</a>" ++ w2 ++ u "</div>" ++ r) caps k = Some x.
Proof.
  intros H1 H2 Hk. unfold card_close_re. cbn [match_k].
  rewrite strip_prefix_app.
  erewrite star_greedy_app; [reflexivity|done|done|].
  rewrite strip_prefix_app.
  erewrite star_greedy_app; [reflexivity|done|done|].
  by rewrite strip_prefix_app.
Qed.

Lemma closes_iff s caps :
  closes s <->
  is_Some (match_k card_close_re s caps
             (fun s' caps' => Some (Match caps' s'))).
Proof.
  split.
  - intros (w1 & w2 & r & H1 & H2 & ->). eexists.
    by apply close_fwd.
  - intros [x Hx]. apply close_inv in Hx as (w1 & w2 & r & H1 & H2 & -> & _).
    by exists w1, w2, r.
Qed.

Lemma closes_app s t : closes s -> closes (s ++ t).
Proof.
  intros (w1 & w2 & r & H1 & H2 & ->). exists w1, w2, (r ++ t).
  by rewrite <- !app_assoc.
Qed.

Lemma lt_ok_drop a m : lt_ok (a ++ m) = true -> lt_ok m = true.
Proof.
  induction a as [|c a IH]; simpl; [done|].
  intros H. apply andb_prop in H as [_ H]. by apply IH.
Qed.

Lemma lt_ok_spaces w s :
  forallb isspace w = true -> lt_ok s = true -> lt_ok (w ++ s) = true.
Proof.
  intros Hw Hs. induction w as [|c w IH]; simpl in *; [done|].
  apply andb_prop in Hw as [Hc Hw]. rewrite (isspace_not_lt _ Hc).
  by apply IH.
Qed.

Lemma lt_ok_clash m r t :
  lt_ok m = true -> m <> [] -> m ++ r = 60%N :: 47%N :: 112%N :: t -> False.
Proof.
  intros Hm Hne Heq. destruct m as [|c m]; [done|].
  simpl in Heq. injection Heq as -> Heq. simpl in Hm.
  destruct m as [|c1 m]; [done|]. simpl in Heq. injection Heq as -> Heq.
  destruct m as [|c2 m]; [done|]. simpl in Heq. injection Heq as -> Heq.
  done.
Qed.

(** A card end that starts before the text [</p>...] ends before it. *)
Lemma close_straddle A B w1 w2 r :
  A <> [] ->
  forallb isspace w1 = true -> forallb isspace w2 = true ->
  A ++ u "</p>" ++ B = u "</p>" ++ w1 ++ u "</a>" ++ w2 ++ u "</div>" ++ r ->
  exists r', A = u "</p>" ++ w1 ++ u "</a>" ++ w2 ++ u "</div>" ++ r'.
Proof.
  intros HA H1 H2 Heq.
  set (W := u "</p>" ++ w1 ++ u "</a>" ++ w2 ++ u "</div>").
  assert (HW : A ++ u "</p>" ++ B = W ++ r)
    by (subst W; by rewrite <- !app_assoc).
  destruct (Nat.le_gt_cases (length W) (length A)) as [Hle|Hgt].
  - symmetry in HW.
    destruct (app_split_prefix _ _ _ _ HW Hle) as (r' & -> & _).
    exists r'. subst W. by rewrite <- !app_assoc.
  - exfalso.
    destruct (app_split_prefix _ _ _ _ HW (Nat.lt_le_incl _ _ Hgt))
      as (m & HWm & Hm).
    assert (Hmne : m <> []).
    { intros ->. rewrite app_nil_r in HWm. rewrite HWm in Hgt. lia. }
    destruct A as [|c A]; [done|].
    assert (Hok : lt_ok (tail W) = true).
    { subst W. cbn [u app tail List.map list_ascii_of_string N_of_ascii
                    N_of_digits].
      simpl. apply lt_ok_spaces; [done|]. simpl.
      apply lt_ok_spaces; [done|]. reflexivity. }
    rewrite HWm in Hok. simpl in Hok. apply lt_ok_drop in Hok.
    symmetry in Hm.
    exact (lt_ok_clash m r (62%N :: B) Hok Hmne Hm).
Qed.

(** *** Stripping whitespace *)

Lemma lstrip_decomp s : exists l, s = l ++ lstrip s.
Proof.
  induction s as [|c s [l IH]]; simpl; [by exists []|].
  destruct (isspace c); [|by exists []].
  exists (c :: l). simpl. by f_equal.
Qed.

Lemma rstrip_decomp s : exists t, s = rstrip s ++ t.
Proof.
  unfold rstrip. destruct (lstrip_decomp (rev s)) as [l Hl].
  exists (rev l). rewrite <- rev_app_distr, <- Hl. by rewrite rev_involutive.
Qed.

Lemma strip_decomp s : exists l t, s = l ++ strip s ++ t.
Proof.
  unfold strip. destruct (lstrip_decomp s) as [l Hl].
  destruct (rstrip_decomp (lstrip s)) as [t Ht].
  exists l, t. by rewrite <- Ht.
Qed.

Lemma forallb_strip (p : N -> bool) s :
  forallb p s = true -> forallb p (strip s) = true.
Proof.
  destruct (strip_decomp s) as (l & t & Hs). intros H.
  rewrite Hs, !forallb_app in H.
  apply andb_prop in H as [_ H]. by apply andb_prop in H as [H _].
Qed.

Lemma lstrip_not_next s : not_next isspace (lstrip s) = true.
Proof.
  induction s as [|c s IH]; simpl; [done|].
  destruct (isspace c) eqn:E; [done|]. simpl. by rewrite E.
Qed.

Lemma lstrip_fixed s : not_next isspace s = true -> lstrip s = s.
Proof. destruct s as [|c s]; simpl; [done|]. by destruct (isspace c). Qed.

Lemma lstrip_idem s : lstrip (lstrip s) = lstrip s.
Proof. apply lstrip_fixed, lstrip_not_next. Qed.

Lemma not_next_prefix p (y t : str) :
  not_next p (y ++ t) = true -> not_next p y = true.
Proof. by destruct y. Qed.

Lemma strip_idem s : strip (strip s) = strip s.
Proof.
  unfold strip.
  assert (H : lstrip (rstrip (lstrip s)) = rstrip (lstrip s)).
  { apply lstrip_fixed. destruct (rstrip_decomp (lstrip s)) as [t Ht].
    apply (not_next_prefix _ _ t). rewrite <- Ht. apply lstrip_not_next. }
  rewrite H. unfold rstrip. by rewrite rev_involutive, lstrip_idem.
Qed.

(** *** Descriptions that survive a round trip *)

Lemma stable_of_minimal M q :
  (forall a1 a2, M = a1 ++ a2 -> a2 <> [] -> ~ closes (a2 ++ q)) ->
  stable (strip M).
Proof.
  intros Hmin a1 a2 tail HD Hne Hc.
  destruct (strip_decomp M) as (l & t & HM).
  pose proof Hc as (w1 & w2 & r & H1 & H2 & Heq).
  unfold CARD_CLOSING in Heq. rewrite <- app_assoc in Heq.
  destruct (close_straddle _ _ _ _ _ Hne H1 H2 Heq) as [r' Ha2].
  apply (Hmin (l ++ a1) (a2 ++ t)).
  - rewrite HM at 1. rewrite HD. by rewrite <- !app_assoc.
  - by destruct a2.
  - rewrite Ha2. exists w1, w2, ((r' ++ t) ++ q).
    by rewrite <- !app_assoc.
Qed.

Lemma stable_no_inner D :
  (forall a1 a2, D = a1 ++ a2 -> ~ closes a2) -> stable D.
Proof.
  intros Hno a1 a2 tail HD Hne Hc.
  pose proof Hc as (w1 & w2 & r & H1 & H2 & Heq).
  unfold CARD_CLOSING in Heq. rewrite <- app_assoc in Heq.
  destruct (close_straddle _ _ _ _ _ Hne H1 H2 Heq) as [r' Ha2].
  apply (Hno a1 a2 HD). by exists w1, w2, r'.
Qed.

Lemma no_card_end_stable D : no_card_end D = true -> stable D.
Proof.
  intros H. apply stable_no_inner. intros a1 a2 -> Hc.
  unfold no_card_end in H. rewrite forallb_forall in H.
  assert (Hne : a2 <> []).
  { intros ->. destruct Hc as (w1 & w2 & r & _ & _ & Hr). done. }
  specialize (H (length a1)). rewrite drop_app_length in H.
  apply (closes_iff a2 []) in Hc as [x Hx].
  unfold match_here in H. rewrite Hx in H.
  assert (false = true); [|done]. apply H.
  apply in_seq. rewrite length_app. destruct a2; [done|]. simpl. lia.
Qed.

(** *** Matching a generated card *)

Lemma generate_card_body d o desc :
  generate_card d o desc
  = [32; 32]%N ++ card_body d (format_date_display o) desc.
Proof.
  unfold generate_card, card_body, CARD_CLOSING.
  rewrite <- ?app_assoc. reflexivity.
Qed.

Lemma forallb_any s : forallb any_char s = true.
Proof. by induction s. Qed.

Lemma no_lt_app a b : no_lt (a ++ b) = no_lt a && no_lt b.
Proof. apply forallb_app. Qed.

Lemma strip_prefix_no_lt l a2 b :
  head l = Some 60%N -> a2 <> [] -> no_lt a2 = true ->
  strip_prefix l (a2 ++ b) = None.
Proof.
  intros Hl Hne H. destruct l as [|x l]; [done|]. injection Hl as ->.
  destruct a2 as [|c a2]; [done|].
  cbn [no_lt forallb] in H. apply andb_prop in H as [H _].
  cbn [app strip_prefix]. rewrite N.eqb_sym.
  by destruct (c =? 60)%N.
Qed.

Lemma stable_fails D a1 a2 tail caps :
  stable D -> D = a1 ++ a2 -> a2 <> [] ->
  match_k card_close_re (a2 ++ CARD_CLOSING ++ tail) caps
    (fun s' caps' => Some (Match caps' s')) = None.
Proof.
  intros Hst HD Hne.
  destruct (match_k _ _ _ _) eqn:E; [|done].
  exfalso. apply (Hst a1 a2 tail HD Hne).
  apply (closes_iff _ caps). by eexists.
Qed.

Lemma card_match d shown desc tail :
  is_card_date d = true -> no_lt shown = true -> stable desc ->
  match_here card_pattern (card_body d shown desc ++ tail)
  = Some (Match [(2, desc); (1, d)] tail).
Proof.
  intros Hd Hshown Hdesc.
  unfold match_here, card_pattern, card_body. rewrite <- !app_assoc.
  cbn [match_k].
  rewrite strip_prefix_app.
  erewrite star_greedy_app; [reflexivity|done|done|].
  rewrite strip_prefix_app, card_date_fwd by done.
  rewrite strip_prefix_app.
  erewrite star_greedy_app; [reflexivity|done|done|].
  rewrite strip_prefix_app.
  erewrite star_lazy_first; [reflexivity|apply forallb_any| |].
  { intros a1 a2 Ha Hne. cbn [match_k]. rewrite strip_prefix_no_lt; [done|done|done|].
    rewrite Ha, no_lt_app in Hshown. by apply andb_prop in Hshown as [_ ?]. }
  cbn [match_k]. rewrite strip_prefix_app.
  erewrite star_greedy_app; [reflexivity|done|done|].
  rewrite strip_prefix_app.
  erewrite star_lazy_first; [reflexivity|apply forallb_any| |].
  { intros a1 a2 Ha Hne. cbn [match_k]. rewrite strip_prefix_no_lt; [done|done|done|].
    assert (H : no_lt (u "Daily Market Update") = true) by reflexivity.
    rewrite Ha, no_lt_app in H. by apply andb_prop in H as [_ ?]. }
  cbn [match_k]. rewrite strip_prefix_app.
  erewrite star_greedy_app; [reflexivity|done|done|].
  rewrite strip_prefix_app.
  erewrite star_lazy_first; [reflexivity|apply forallb_any| |].
  { intros a1 a2 Ha Hne. by eapply stable_fails. }
  change (CARD_CLOSING ++ tail)
    with (u "</p>" ++ [10; 32; 32; 32; 32]%N ++ u "</a>"
            ++ [10; 32; 32]%N ++ u "</div>" ++ tail) at 1.
  erewrite close_fwd; [reflexivity|done|done|].
  rewrite (take_consumed desc), (take_consumed d). done.
Qed.

Lemma match_seq {R} a b s caps (k : str -> captures -> option R) :
  match_k (Seq a b) s caps k
  = match_k a s caps (fun s' caps' => match_k b s' caps' k).
Proof. reflexivity. Qed.

Lemma match_star {R} p s caps (k : str -> captures -> option R) :
  match_k (Star p) s caps k = star_greedy p s (fun s' => k s' caps).
Proof. reflexivity. Qed.

Lemma match_star_lazy {R} p s caps (k : str -> captures -> option R) :
  match_k (StarLazy p) s caps k = star_lazy p s (fun s' => k s' caps).
Proof. reflexivity. Qed.

Lemma match_grp {R} n a s caps (k : str -> captures -> option R) :
  match_k (Grp n a) s caps k
  = match_k a s caps
      (fun s' caps' => k s' ((n, take (length s - length s') s) :: caps')).
Proof. reflexivity. Qed.

(** What a match of the card pattern tells about the text. *)
Lemma card_match_inv t m :
  match_here card_pattern t = Some m ->
  exists d M pre q,
    t = pre ++ M ++ q
    /\ groups m = [(2, M); (1, d)]
    /\ is_card_date d = true
    /\ (forall a1 a2, M = a1 ++ a2 -> a2 <> [] -> ~ closes (a2 ++ q))
    /\ (exists mid, t = CARD_OPEN ++ mid ++ after m)
    /\ occurs d t.
Proof.
  unfold match_here, card_pattern. intros H.
  rewrite match_seq in H.
  apply match_lit_inv in H as (s1 & -> & H). cbv beta in H.
  rewrite match_seq, match_star in H.
  apply star_greedy_inv in H as (w1 & s2 & -> & _ & H). cbv beta in H.
  rewrite match_seq in H.
  apply match_lit_inv in H as (s3 & -> & H). cbv beta in H.
  rewrite match_seq, match_grp in H.
  apply card_date_inv in H as (d & s4 & -> & Hd & H). cbv beta in H.
  rewrite match_seq in H.
  apply match_lit_inv in H as (s5 & -> & H). cbv beta in H.
  rewrite match_seq, match_star in H.
  apply star_greedy_inv in H as (w2 & s6 & -> & _ & H). cbv beta in H.
  rewrite match_seq in H.
  apply match_lit_inv in H as (s7 & -> & H). cbv beta in H.
  rewrite match_seq, match_star_lazy in H.
  apply star_lazy_inv in H as (x1 & s8 & -> & _ & H & _). cbv beta in H.
  rewrite match_seq in H.
  apply match_lit_inv in H as (s9 & -> & H). cbv beta in H.
  rewrite match_seq, match_star in H.
  apply star_greedy_inv in H as (w3 & s10 & -> & _ & H). cbv beta in H.
  rewrite match_seq in H.
  apply match_lit_inv in H as (s11 & -> & H). cbv beta in H.
  rewrite match_seq, match_star_lazy in H.
  apply star_lazy_inv in H as (x2 & s12 & -> & _ & H & _). cbv beta in H.
  rewrite match_seq in H.
  apply match_lit_inv in H as (s13 & -> & H). cbv beta in H.
  rewrite match_seq, match_star in H.
  apply star_greedy_inv in H as (w4 & s14 & -> & _ & H). cbv beta in H.
  rewrite match_seq in H.
  apply match_lit_inv in H as (s15 & -> & H). cbv beta in H.
  rewrite match_seq, match_grp, match_star_lazy in H.
  apply star_lazy_inv in H as (M & q & -> & _ & H & Hmin). cbv beta in H.
  rewrite (take_consumed M), (take_consumed d) in H.
  pose proof H as Hq.
  apply close_inv in Hq as (v1 & v2 & r & Hv1 & Hv2 & -> & Hm).
  injection Hm as <-.
  eexists d, M, _, _. split.
  { rewrite !(app_assoc _ _ (M ++ _)). reflexivity. }
  split; [done|]. split; [done|]. split.
  { intros a1 a2 Ha Hne Hc. specialize (Hmin a1 a2 Ha Hne).
    match type of Hmin with
    | match_k _ _ ?caps _ = None =>
        apply (closes_iff _ caps) in Hc as [x Hx]
    end.
    rewrite Hx in Hmin. done. }
  split.
  { cbn [after]. unfold CARD_OPEN.
    exists (w1 ++ uq "<a href='" ++ d ++ uq ".html'>" ++ w2
              ++ uq "<div class='update-date'>" ++ x1 ++ u "</div>" ++ w3
              ++ uq "<div class='update-title'>" ++ x2 ++ u "</div>" ++ w4
              ++ uq "<p class='update-desc'>" ++ M ++ u "</p>" ++ v1
              ++ u "</a>" ++ v2 ++ u "</div>").
    rewrite <- !app_assoc. reflexivity. }
  exists (uq "<div class='update-card'>" ++ w1 ++ uq "<a href='"). eexists.
  rewrite <- !app_assoc. reflexivity.
Qed.

(** *** Scanning for matches *)

Lemma finditer_scan_skip r a b :
  finditer_scan r (a ++ b) (length a) = finditer_scan r b 0.
Proof.
  induction a as [|c a IH]; simpl; [|done].
  destruct b; simpl; done.
Qed.

Lemma finditer_hit r body tail m :
  match_here r (body ++ tail) = Some m -> after m = tail -> body <> [] ->
  finditer_scan r (body ++ tail) 0 = m :: finditer_scan r tail 0.
Proof.
  intros Hm Ha Hne. destruct body as [|c body]; [done|].
  cbn [app finditer_scan]. change (c :: body ++ tail) with ((c :: body) ++ tail).
  rewrite Hm, Ha, length_app.
  replace (length (c :: body) + length tail - length tail)
    with (S (length body)) by (simpl; lia).
  by rewrite finditer_scan_skip.
Qed.

Lemma finditer_scan_sound r s skip m :
  m ∈ finditer_scan r s skip ->
  exists p t, s = p ++ t /\ match_here r t = Some m.
Proof.
  revert skip; induction s as [|c s IH]; intros skip; simpl.
  - intros H. by apply elem_of_nil in H.
  - assert (Hrec : forall n, m ∈ finditer_scan r s n ->
                             exists p t, c :: s = p ++ t
                                         /\ match_here r t = Some m).
    { intros n H. destruct (IH n H) as (p' & t & -> & Ht).
      by exists (c :: p'), t. }
    destruct skip as [|n]; [|apply Hrec].
    destruct (match_here r (c :: s)) as [m'|] eqn:E; [|apply Hrec].
    destruct (_ - _) as [|n]; [apply Hrec|].
    intros H. apply elem_of_cons in H as [->|H]; [|by eapply Hrec].
    by exists [], (c :: s).
Qed.

Lemma ENTRY_START_head : ENTRY_START = 60%N :: tail ENTRY_START.
Proof. vm_compute. reflexivity. Qed.

Lemma ENTRY_END_head : ENTRY_END = 60%N :: tail ENTRY_END.
Proof. vm_compute. reflexivity. Qed.

Lemma ENTRY_END_tail : forallb (fun c => negb (c =? 60)%N) (tail ENTRY_END) = true.
Proof. vm_compute. reflexivity. Qed.

Lemma ENTRY_START_tail :
  forallb (fun c => negb (c =? 60)%N) (tail ENTRY_START) = true.
Proof. vm_compute. reflexivity. Qed.

(** *** Where a marker or a card can start *)

Lemma absent_nil P t : absent P [] t.
Proof. intros x y _. simpl. lia. Qed.

Lemma absent_app P s1 s2 t :
  absent P s1 (s2 ++ t) -> absent P s2 t -> absent P (s1 ++ s2) t.
Proof.
  intros H1 H2 x y Heq. rewrite <- app_assoc in Heq.
  pose proof (H1 x y Heq) as Hle.
  destruct (app_split_prefix _ _ _ _ Heq Hle) as (x' & -> & Hx).
  specialize (H2 x' y Hx). rewrite !length_app. lia.
Qed.

Lemma absent_tail P c s t : absent P (c :: s) t -> absent P s t.
Proof.
  intros H x y Heq. specialize (H (c :: x) y). simpl in H.
  rewrite Heq in H. specialize (H eq_refl). lia.
Qed.

Lemma absent_cons P c s t :
  (forall y, c :: s ++ t <> P ++ y) -> absent P s t -> absent P (c :: s) t.
Proof.
  intros Hc Hs x y Heq. destruct x as [|c' x].
  - by apply Hc in Heq.
  - simpl in Heq. injection Heq as -> Heq. specialize (Hs x y Heq).
    simpl. lia.
Qed.

Lemma absent_no_lt P s t : tag_like P -> no_lt s = true -> absent P s t.
Proof.
  intros (P' & -> & _) Hs. induction s as [|c s IH]; [apply absent_nil|].
  cbn [no_lt forallb] in Hs. apply andb_prop in Hs as [Hc Hs].
  apply absent_cons; [|by apply IH].
  intros y [= -> _]. done.
Qed.

Lemma clash_ne P s t y : clash P s = true -> s ++ t <> P ++ y.
Proof.
  revert s; induction P as [|a P IH]; intros [|b s]; simpl; try done.
  intros H [= -> Heq]. rewrite N.eqb_refl in H. simpl in H.
  by apply IH in Heq.
Qed.

Lemma absent_lit P L t : lit_clear P L = true -> absent P L t.
Proof.
  intros HL x y Heq.
  destruct (Nat.le_gt_cases (length L) (length x)) as [|Hgt]; [done|].
  exfalso. symmetry in Heq.
  destruct (app_split_prefix _ _ _ _ Heq (Nat.lt_le_incl _ _ Hgt))
    as (m & -> & Hm).
  unfold lit_clear in HL. rewrite forallb_forall in HL.
  specialize (HL (length x)). rewrite drop_app_length in HL.
  symmetry in Hm. eapply clash_ne; [|exact Hm].
  apply HL, in_seq. lia.
Qed.

Lemma absent_inner P D t t' :
  tag_like P -> ~ occurs P D -> t = 60%N :: t' -> absent P D t.
Proof.
  intros (P' & HP & HP') Hno -> x y Heq.
  destruct (Nat.le_gt_cases (length D) (length x)) as [|Hgt]; [done|].
  exfalso. symmetry in Heq.
  destruct (app_split_prefix _ _ _ _ Heq (Nat.lt_le_incl _ _ Hgt))
    as (m & HD & Hm).
  assert (Hmne : m <> []).
  { intros ->. rewrite app_nil_r in HD. subst D. lia. }
  destruct (Nat.le_gt_cases (length P) (length m)) as [Hle|Hlt].
  - destruct (app_split_prefix _ _ _ _ Hm Hle) as (m' & -> & _).
    apply Hno. by exists x, m'.
  - symmetry in Hm.
    destruct (app_split_prefix _ _ _ _ Hm (Nat.lt_le_incl _ _ Hlt))
      as (m' & HPm & Hm').
    symmetry in Hm'.
    eapply (no_straddle P m m' y t' 60%N HPm Hmne); [|exact Hm'|].
    + intros ->. rewrite app_nil_r in HPm. subst m. lia.
    + by rewrite HP.
Qed.

Lemma tag_like_END : tag_like ENTRY_END.
Proof. eexists. split; [apply ENTRY_END_head|]. apply ENTRY_END_tail. Qed.

Lemma tag_like_OPEN : tag_like CARD_OPEN.
Proof. eexists. split; reflexivity. Qed.

Lemma isdecimal_ascii c :
  (c < 128)%N -> isdecimal c = ((48 <=? c) && (c <=? 57))%N.
Proof.
  intros Hc. unfold isdecimal, decimal.
  apply N.ltb_lt in Hc. rewrite Hc. by destruct (_ && _).
Qed.

(** *** The pieces of the generated region *)

Lemma no_lt_month_name m : no_lt (month_name m) = true.
Proof.
  destruct m as [|q]; [reflexivity|].
  repeat (destruct q as [q|q|]; try reflexivity).
Qed.

Lemma no_lt_weekday_name w : no_lt (weekday_name w) = true.
Proof.
  destruct w as [|q]; [reflexivity|].
  repeat (destruct q as [q|q|]; try reflexivity).
Qed.

Lemma no_lt_digits_fuel fuel n acc :
  no_lt acc = true -> no_lt (digits_fuel fuel n acc) = true.
Proof.
  revert n acc; induction fuel as [|f IH]; intros n acc Hacc; simpl; [done|].
  assert (H : no_lt ((48 + n mod 10)%N :: acc) = true).
  { cbn [no_lt forallb]. fold (no_lt acc). rewrite Hacc, andb_true_r.
    apply negb_true_iff, N.eqb_neq.
    pose proof (N.mod_upper_bound n 10). lia. }
  destruct (n <? 10)%N; [done|]. by apply IH.
Qed.

Lemma no_lt_str_of_N n : no_lt (str_of_N n) = true.
Proof. by apply no_lt_digits_fuel. Qed.

Lemma no_lt_date_display o : no_lt (format_date_display o) = true.
Proof.
  unfold format_date_display.
  rewrite !no_lt_app, no_lt_month_name, !no_lt_str_of_N, no_lt_weekday_name.
  reflexivity.
Qed.

Lemma isdecimal_not_lt c : isdecimal c = true -> negb (c =? 60)%N = true.
Proof.
  intros H. destruct (N.eqb_spec c 60) as [->|]; [|done].
  by rewrite isdecimal_ascii in H.
Qed.

Lemma no_lt_card_date d : is_card_date d = true -> no_lt d = true.
Proof.
  unfold is_card_date. intros H.
  do 10 (destruct d as [|? d]; [done|]). destruct d; [|done].
  repeat (apply andb_prop in H as [H ?]).
  cbn [no_lt forallb].
  repeat match goal with
         | Hd : isdecimal _ = true |- _ =>
             rewrite (isdecimal_not_lt _ Hd); clear Hd
         | Hd : (_ =? 45)%N = true |- _ => apply N.eqb_eq in Hd as ->
         end.
  reflexivity.
Qed.

Lemma header_absent P o t :
  tag_like P ->
  lit_clear P ([10%N] ++ uq "  <h4 style='margin-top: 30px;'>") = true ->
  lit_clear P (u "</h4>") = true ->
  absent P (month_header_line o) t.
Proof.
  intros HP H1 H2. unfold month_header_line, format_month_header.
  rewrite app_assoc. apply absent_app; [by apply absent_lit|].
  apply absent_app; [|by apply absent_lit].
  apply absent_no_lt; [done|].
  by rewrite !no_lt_app, no_lt_month_name, no_lt_str_of_N.
Qed.

Lemma header_absent_END o t : absent ENTRY_END (month_header_line o) t.
Proof.
  apply header_absent; [apply tag_like_END|..]; vm_compute; reflexivity.
Qed.

Lemma header_absent_OPEN o t : absent CARD_OPEN (month_header_line o) t.
Proof.
  apply header_absent; [apply tag_like_OPEN|..]; vm_compute; reflexivity.
Qed.

Lemma card_absent_END d shown desc t :
  no_lt d = true -> no_lt shown = true -> ~ occurs ENTRY_END desc ->
  absent ENTRY_END (card_body d shown desc) t.
Proof.
  intros Hd Hs Hdesc. unfold card_body.
  pose proof tag_like_END as HP.
  rewrite (app_assoc (uq "<div class='update-card'>")).
  rewrite (app_assoc _ (uq "<a href='")).
  apply absent_app; [apply absent_lit; vm_compute; reflexivity|].
  apply absent_app; [by apply absent_no_lt|].
  rewrite (app_assoc (uq ".html'>")).
  rewrite (app_assoc _ (uq "<div class='update-date'>")).
  apply absent_app; [apply absent_lit; vm_compute; reflexivity|].
  apply absent_app; [by apply absent_no_lt|].
  rewrite (app_assoc (u "</div>")).
  rewrite (app_assoc _ (uq "<div class='update-title'>")).
  rewrite (app_assoc _ (u "Daily Market Update")).
  rewrite (app_assoc _ (u "</div>")).
  rewrite (app_assoc _ [10; 32; 32; 32; 32; 32; 32]%N).
  rewrite (app_assoc _ (uq "<p class='update-desc'>")).
  apply absent_app; [apply absent_lit; vm_compute; reflexivity|].
  apply absent_app.
  - eapply absent_inner; [done|done|reflexivity].
  - apply absent_lit. vm_compute. reflexivity.
Qed.

Lemma flat_app a b : flat (a ++ b) = flat a ++ flat b.
Proof. unfold flat. by rewrite map_app, concat_app. Qed.

Lemma flat_cons l ls : flat (l :: ls) = [10%N] ++ l ++ flat ls.
Proof. reflexivity. Qed.

Lemma flat_single l : flat [l] = [10%N] ++ l.
Proof. unfold flat. simpl. by rewrite app_nil_r. Qed.

Lemma flat_card c : flat [[]; c] = [10; 10]%N ++ c.
Proof. unfold flat. simpl. by rewrite app_nil_r. Qed.

Lemma join_flat l ls : join [10%N] (l :: ls) = l ++ flat ls.
Proof.
  revert l; induction ls as [|l' ls IH]; intros l.
  - simpl. by rewrite app_nil_r.
  - change (join [10%N] (l :: l' :: ls))
      with (l ++ [10%N] ++ join [10%N] (l' :: ls)).
    by rewrite IH, flat_cons.
Qed.

Lemma entries_lines_cons entries k dates cur lines :
  entries_lines entries (k :: dates) cur = Some lines ->
  exists o rest,
    strptime k = Some o
    /\ entries_lines entries dates (Some (year o, month o)) = Some rest
    /\ lines = (if decide (Some (year o, month o) = cur) then []
                else [month_header_line o])
                 ++ [[]; generate_card k o (desc_of entries k)] ++ rest.
Proof.
  cbn [entries_lines]. destruct (strptime k) as [o|] eqn:Ho; [|done].
  destruct (entries_lines entries dates _) as [rest|] eqn:Hr; [|done].
  intros [= <-]. exists o, rest. split; [done|]. split; [done|reflexivity].
Qed.

(** *** Reading the generated region back *)

Lemma finditer_skip junk t :
  absent CARD_OPEN junk t ->
  finditer_scan card_pattern (junk ++ t) 0 = finditer_scan card_pattern t 0.
Proof.
  induction junk as [|c junk IH]; intros Hab; [done|].
  cbn [app finditer_scan].
  destruct (match_here card_pattern (c :: junk ++ t)) as [m|] eqn:E.
  - exfalso. apply card_match_inv in E
      as (_ & _ & _ & _ & _ & _ & _ & _ & (mid & E) & _).
    specialize (Hab [] (mid ++ after m) E). simpl in Hab. lia.
  - apply IH. by eapply absent_tail.
Qed.

Lemma lines_absent_END entries dates :
  forall cur lines t,
    entries_lines entries dates cur = Some lines ->
    (forall k, k ∈ dates -> good entries k) ->
    absent ENTRY_END (flat lines) t.
Proof.
  induction dates as [|k dates IH]; intros cur lines t Hl Hgood.
  - injection Hl as <-. apply absent_nil.
  - apply entries_lines_cons in Hl as (o & rest & Ho & Hrest & ->).
    destruct (Hgood k) as (Hk & _ & _ & Hno); [by left|].
    rewrite !flat_app. apply absent_app.
    { destruct (decide _); [apply absent_nil|].
      rewrite flat_single.
      apply absent_app; [|apply header_absent_END].
      apply absent_no_lt; [apply tag_like_END|reflexivity]. }
    rewrite flat_card, generate_card_body, <- !app_assoc.
    apply absent_app; [apply absent_no_lt; [apply tag_like_END|reflexivity]|].
    apply absent_app; [apply absent_no_lt; [apply tag_like_END|reflexivity]|].
    apply absent_app.
    + apply card_absent_END; [by apply no_lt_card_date|..|done].
      apply no_lt_date_display.
    + eapply IH; [done|]. intros k' Hk'. apply Hgood. by right.
Qed.

Lemma lines_finditer entries dates :
  forall cur lines tail,
    entries_lines entries dates cur = Some lines ->
    (forall k, k ∈ dates -> good entries k) ->
    List.map entry_of (finditer_scan card_pattern (flat lines ++ tail) 0)
    = List.map (fun k => (k, Info (desc_of entries k))) dates
        ++ List.map entry_of (finditer_scan card_pattern tail 0).
Proof.
  induction dates as [|k dates IH]; intros cur lines tail Hl Hgood.
  - by injection Hl as <-.
  - apply entries_lines_cons in Hl as (o & rest & Ho & Hrest & ->).
    destruct (Hgood k) as (Hk & Hst & Hstrip & _); [by left|].
    rewrite !flat_app, <- !app_assoc.
    rewrite finditer_skip.
    2:{ destruct (decide _); [apply absent_nil|].
        rewrite flat_single.
        apply absent_app; [|apply header_absent_OPEN].
        apply absent_no_lt; [apply tag_like_OPEN|reflexivity]. }
    rewrite flat_card, generate_card_body, <- !app_assoc.
    rewrite finditer_skip
      by (apply absent_no_lt; [apply tag_like_OPEN|reflexivity]).
    rewrite finditer_skip
      by (apply absent_no_lt; [apply tag_like_OPEN|reflexivity]).
    erewrite finditer_hit;
      [|apply card_match; [done|apply no_lt_date_display|done]|done|done].
    cbn [List.map]. unfold entry_of at 1, group. cbn [groups group_of Nat.eqb].
    rewrite Hstrip. cbn [app]. f_equal.
    eapply IH; [done|]. intros k' Hk'. apply Hgood. by right.
Qed.

(** *** Searching and slicing strings *)

Lemma starts_with_app sub t : starts_with sub (sub ++ t) = true.
Proof. induction sub as [|a sub IH]; simpl; [done|]. by rewrite N.eqb_refl. Qed.

Lemma starts_with_true sub s :
  starts_with sub s = true -> exists t, s = sub ++ t.
Proof.
  revert s; induction sub as [|a sub IH]; intros s H; simpl in *.
  - by exists s.
  - destruct s as [|b s]; [done|].
    apply andb_prop in H as [Hab H]. apply N.eqb_eq in Hab as ->.
    destruct (IH _ H) as [t ->]. by exists t.
Qed.

Lemma find_from_spec sub s i :
  (find_from sub s i = (-1)%Z /\
     forall j, starts_with sub (drop j s) = false)
  \/ (exists a b, s = a ++ sub ++ b
        /\ find_from sub s i = (i + Z.of_nat (length a))%Z
        /\ forall j, j < length a -> starts_with sub (drop j s) = false).
Proof.
  revert i; induction s as [|c s IH]; intros i; simpl.
  - destruct (starts_with sub []) eqn:E.
    + right. destruct (starts_with_true _ _ E) as [t Ht].
      exists [], t. simpl. split; [done|]. split; [lia|intros; lia].
    + left. split; [done|]. intros j. by rewrite drop_nil.
  - destruct (starts_with sub (c :: s)) eqn:E.
    + right. destruct (starts_with_true _ _ E) as [t Ht].
      exists [], t. simpl. split; [done|]. split; [lia|intros; lia].
    + destruct (IH (i + 1)%Z) as [[H1 H2]|(a & b & -> & H1 & H2)].
      * left. split; [done|]. intros [|j]; simpl; [done|apply H2].
      * right. exists (c :: a), b. simpl.
        split; [done|]. split; [rewrite H1; lia|].
        intros [|j] Hj; simpl; [done|]. apply H2. lia.
Qed.

Lemma find_spec s sub : find_result s sub (find s sub).
Proof.
  unfold find.
  destruct (find_from_spec sub s 0) as [[-> H]|(a & b & Hs & -> & H)].
  - by apply NotFound.
  - rewrite Z.add_0_l. by eapply Found.
Qed.

Lemma find_ge_m1 s sub : (-1 <= find s sub)%Z.
Proof. destruct (find_spec s sub); lia. Qed.

Lemma find_found s sub a b :
  s = a ++ sub ++ b ->
  (forall j, j < length a -> starts_with sub (drop j s) = false) ->
  find s sub = Z.of_nat (length a).
Proof.
  intros Hs Hno.
  destruct (find_spec s sub) as [a' b' Hs' Hno'|Hnone].
  - f_equal. destruct (Nat.lt_trichotomy (length a') (length a)) as [H|[H|H]];
      [|done|].
    + specialize (Hno _ H). rewrite Hs' in Hno at 1.
      rewrite drop_app_length, starts_with_app in Hno. done.
    + specialize (Hno' _ H). rewrite Hs in Hno' at 1.
      rewrite drop_app_length, starts_with_app in Hno'. done.
  - specialize (Hnone (length a)). rewrite Hs in Hnone at 1.
    rewrite drop_app_length, starts_with_app in Hnone. done.
Qed.

Lemma contains_found s sub :
  contains s sub = true ->
  exists a b, s = a ++ sub ++ b /\ find s sub = Z.of_nat (length a)
              /\ forall j, j < length a -> starts_with sub (drop j s) = false.
Proof.
  unfold contains. intros H. apply Z.leb_le in H.
  destruct (find_spec s sub) as [a b Hs Hno|]; [|lia].
  by exists a, b.
Qed.

Lemma clamp_index_nat s (n : nat) :
  n <= length s -> clamp_index s (Z.of_nat n) = n.
Proof.
  intros H. unfold clamp_index.
  destruct (Z.ltb_spec (Z.of_nat n) 0); lia.
Qed.

Lemma slice_to_app a b : slice_to (a ++ b) (Z.of_nat (length a)) = a.
Proof.
  unfold slice_to. rewrite clamp_index_nat by (rewrite length_app; lia).
  by rewrite take_app_length.
Qed.

Lemma slice_from_app a b : slice_from (a ++ b) (Z.of_nat (length a)) = b.
Proof.
  unfold slice_from. rewrite clamp_index_nat by (rewrite length_app; lia).
  by rewrite drop_app_length.
Qed.

Lemma slice_app a b c :
  slice (a ++ b ++ c) (Z.of_nat (length a)) (Z.of_nat (length (a ++ b))) = b.
Proof.
  unfold slice.
  rewrite !clamp_index_nat by (rewrite !length_app; lia).
  rewrite drop_app_length, length_app.
  replace (length a + length b - length a) with (length b) by lia.
  by rewrite take_app_length.
Qed.

Lemma slice_empty s (lo hi : nat) :
  hi <= lo -> slice s (Z.of_nat lo) (Z.of_nat hi) = [].
Proof.
  intros H. unfold slice.
  assert (clamp_index s (Z.of_nat hi) <= clamp_index s (Z.of_nat lo)).
  { unfold clamp_index.
    destruct (Z.ltb_spec (Z.of_nat hi) 0), (Z.ltb_spec (Z.of_nat lo) 0); lia. }
  replace (clamp_index s (Z.of_nat hi) - clamp_index s (Z.of_nat lo)) with 0
    by lia.
  done.
Qed.

(** *** The description extractor *)

Lemma tickers_match ws1 ws2 c n post :
  forallb isspace ws1 = true -> forallb isspace ws2 = true ->
  isdecimal c = true -> isspace c = false ->
  forallb isdecimal n = true -> not_next isdecimal post = true ->
  match_here tickers_re
    (u "Total Tickers" ++ ws1 ++ [58%N] ++ ws2 ++ (c :: n) ++ post)
  = Some (Match [(1, c :: n)] post).
Proof.
  intros H1 H2 Hc Hc' Hn Hpost.
  unfold match_here, tickers_re, Plus, Chr. cbn [match_k].
  rewrite strip_prefix_app.
  erewrite star_greedy_app; [reflexivity|done|done|].
  cbn [app match_k]. rewrite N.eqb_refl.
  erewrite star_greedy_app; [reflexivity|done|by simpl; rewrite Hc'|].
  cbn [app]. rewrite Hc.
  erewrite star_greedy_app; [reflexivity|done|done|].
  do 4 f_equal. apply (take_consumed (c :: n) post).
Qed.

(** C6 (amended): on the example input the extractor returns the four
    fragments joined by the HTML entity [&middot;] between spaces. *)
Theorem C6_example_description :
  extract_description example_text
  = u "630 tickers analyzed &middot; Market sentiment: Fear (40/100) &middot; Crypto: Extreme Fear (9/100) &middot; 50 congress trades tracked".
Proof. vm_compute. reflexivity. Qed.

(** C7 (amended): when the text left after tags are replaced and
    whitespace is collapsed has its leftmost match of the ticker pattern
    at the fragment [Total Tickers : N], with [N] the whole run of decimal
    digits there, the description starts with [N tickers analyzed]. *)
Theorem C7_leftmost_ticker_fragment email_html pre ws1 ws2 c n post :
  plain_text email_html
    = pre ++ u "Total Tickers" ++ ws1 ++ [58%N] ++ ws2 ++ (c :: n) ++ post ->
  no_match_before tickers_re (plain_text email_html) (length pre) = true ->
  forallb isspace ws1 = true -> forallb isspace ws2 = true ->
  isdecimal c = true -> isspace c = false ->
  forallb isdecimal n = true -> not_next isdecimal post = true ->
  exists rest,
    extract_description email_html
    = (c :: n) ++ u " tickers analyzed" ++ rest.
Proof.
  intros Htext Hpre H1 H2 Hc Hc' Hn Hpost.
  unfold extract_description, tickers_part.
  rewrite Htext in Hpre |- *.
  rewrite (search_skip _ _ _ Hpre).
  erewrite search_here by (by apply tickers_match).
  unfold group; cbn [groups group_of Nat.eqb].
  destruct (sentiment_part stock_re _ _ ++ _) as [|y l].
  all: cbn [app join]; rewrite <- ?app_assoc; eexists; reflexivity.
Qed.

(** C8: when none of the four statistic patterns matches the text, the
    extractor returns the fallback string.  [extract_description] is a
    total function: it has no failing case. *)
Theorem C8_fallback_when_nothing_matches email_html :
  search tickers_re (plain_text email_html) = None ->
  search stock_re (plain_text email_html) = None ->
  search crypto_re (plain_text email_html) = None ->
  search trades_re (plain_text email_html) = None ->
  extract_description email_html = FALLBACK.
Proof.
  intros H1 H2 H3 H4.
  unfold extract_description, tickers_part, sentiment_part, trades_part.
  by rewrite H1, H2, H3, H4.
Qed.


(** *** Universal newlines *)

Lemma universal_newlines_crlf s :
  universal_newlines (13 :: 10 :: s)%N = 10%N :: universal_newlines s.
Proof. reflexivity. Qed.

Lemma universal_newlines_cr s :
  head s <> Some 10%N ->
  universal_newlines (13%N :: s) = 10%N :: universal_newlines s.
Proof.
  destruct s as [|c s]; [done|]. intros H.
  change (universal_newlines (13%N :: c :: s))
    with (10%N :: (if (c =? 10)%N then universal_newlines s
                   else universal_newlines (c :: s))).
  destruct (N.eqb_spec c 10) as [->|]; done.
Qed.

Lemma universal_newlines_keep c s :
  c <> 13%N -> universal_newlines (c :: s) = c :: universal_newlines s.
Proof.
  intros H. cbn [universal_newlines]. by destruct (N.eqb_spec c 13).
Qed.

(** Induction along the translation: the empty text, a carriage return
    with its line feed, a carriage return alone, any other character. *)
Lemma universal_newlines_ind (P : str -> Prop) :
  P [] ->
  (forall s, P s -> P (13 :: 10 :: s)%N) ->
  (forall s, head s <> Some 10%N -> P s -> P (13%N :: s)) ->
  (forall c s, c <> 13%N -> P s -> P (c :: s)) ->
  forall s, P s.
Proof.
  intros H0 H1 H2 H3 s.
  assert (H : P s /\ forall c, P (c :: s)); [|by destruct H].
  induction s as [|x s [IHs IHc]].
  - split; [done|]. intros c. destruct (decide (c = 13%N)) as [->|Hc].
    + by apply H2.
    + by apply H3.
  - split; [apply IHc|]. intros c.
    destruct (decide (c = 13%N)) as [->|Hc]; [|by apply H3].
    destruct (decide (x = 10%N)) as [->|Hx]; [by apply H1|].
    apply H2; [|apply IHc]. simpl. congruence.
Qed.

Lemma no_cr_app a b : no_cr (a ++ b) = no_cr a && no_cr b.
Proof. apply forallb_app. Qed.

Lemma no_cr_cons c s : no_cr (c :: s) = negb (c =? 13)%N && no_cr s.
Proof. reflexivity. Qed.

(** The text read holds no carriage return. *)
Lemma no_cr_universal_newlines s : no_cr (universal_newlines s) = true.
Proof.
  induction s as [|s IH|s Hs IH|c s Hc IH] using universal_newlines_ind.
  - done.
  - by rewrite universal_newlines_crlf, no_cr_cons, IH.
  - by rewrite universal_newlines_cr, no_cr_cons, IH.
  - rewrite universal_newlines_keep, no_cr_cons, IH by done.
    by destruct (N.eqb_spec c 13).
Qed.

(** A text without carriage returns is read as it is. *)
Lemma universal_newlines_no_cr s :
  no_cr s = true -> universal_newlines s = s.
Proof.
  induction s as [|c s IH]; [done|]. rewrite no_cr_cons.
  intros [Hc Hs]%andb_prop. apply negb_true_iff, N.eqb_neq in Hc.
  rewrite universal_newlines_keep by done. by rewrite IH.
Qed.

Lemma universal_newlines_app_no_cr x y :
  no_cr x = true ->
  universal_newlines (x ++ y) = x ++ universal_newlines y.
Proof.
  induction x as [|c x IH]; [done|]. rewrite no_cr_cons.
  intros [Hc Hx]%andb_prop. apply negb_true_iff, N.eqb_neq in Hc.
  cbn [app]. rewrite universal_newlines_keep by done. by rewrite IH.
Qed.

Lemma universal_newlines_app x y :
  head y <> Some 10%N ->
  universal_newlines (x ++ y) = universal_newlines x ++ universal_newlines y.
Proof.
  intros Hy.
  induction x as [|s IH|s Hs IH|c s Hc IH] using universal_newlines_ind.
  - done.
  - cbn [app]. by rewrite !universal_newlines_crlf, IH.
  - cbn [app]. rewrite !universal_newlines_cr, IH; [done|done|].
    by destruct s.
  - cbn [app]. by rewrite !universal_newlines_keep, IH.
Qed.

(** A cut of the text read comes from a cut of the text stored. *)
Lemma universal_newlines_split s :
  forall A B,
    universal_newlines s = A ++ B ->
    exists A' B', s = A' ++ B' /\ universal_newlines A' = A
                  /\ universal_newlines B' = B.
Proof.
  induction s as [|s IH|s Hs IH|c s Hc IH] using universal_newlines_ind;
    intros A B HAB.
  - destruct A; [|done]. destruct B; [|done]. by exists [], [].
  - destruct A as [|a A].
    { exists [], (13 :: 10 :: s)%N. cbn [app] in HAB. by repeat split. }
    rewrite universal_newlines_crlf in HAB. injection HAB as <- HAB.
    destruct (IH _ _ HAB) as (A' & B' & -> & <- & <-).
    by exists (13 :: 10 :: A')%N, B'.
  - destruct A as [|a A].
    { exists [], (13%N :: s). cbn [app] in HAB. by repeat split. }
    rewrite universal_newlines_cr in HAB by done. injection HAB as <- HAB.
    destruct (IH _ _ HAB) as (A' & B' & -> & <- & <-).
    exists (13%N :: A'), B'. split; [done|]. split; [|done].
    apply universal_newlines_cr. by destruct A'.
  - destruct A as [|a A].
    { exists [], (c :: s). cbn [app] in HAB. by repeat split. }
    rewrite universal_newlines_keep in HAB by done. injection HAB as <- HAB.
    destruct (IH _ _ HAB) as (A' & B' & -> & <- & <-).
    exists (c :: A'), B'. split; [done|]. split; [|done].
    by apply universal_newlines_keep.
Qed.

(** A text read without a line feed is the text stored. *)
Lemma universal_newlines_literal s :
  forallb (fun c => negb (c =? 10)%N) (universal_newlines s) = true ->
  universal_newlines s = s.
Proof.
  induction s as [|s IH|s Hs IH|c s Hc IH] using universal_newlines_ind.
  - done.
  - by rewrite universal_newlines_crlf.
  - by rewrite universal_newlines_cr.
  - rewrite universal_newlines_keep by done. cbn [forallb].
    intros [_ H]%andb_prop. by rewrite IH.
Qed.

Lemma universal_newlines_spaces s :
  forallb isspace (universal_newlines s) = true -> forallb isspace s = true.
Proof.
  induction s as [|s IH|s Hs IH|c s Hc IH] using universal_newlines_ind.
  - done.
  - rewrite universal_newlines_crlf. cbn [forallb].
    intros [_ H]%andb_prop. by rewrite IH.
  - rewrite universal_newlines_cr by done. cbn [forallb].
    intros [_ H]%andb_prop. by rewrite IH.
  - rewrite universal_newlines_keep by done. cbn [forallb].
    intros [H1 H]%andb_prop. by rewrite H1, IH.
Qed.

Lemma universal_newlines_nil s : universal_newlines s = [] -> s = [].
Proof.
  destruct s as [|c s]; [done|]. cbn [universal_newlines].
  by destruct (c =? 13)%N.
Qed.

(** The text read from a longer text is not shorter. *)
Lemma universal_newlines_length x z :
  length (universal_newlines x) <= length (universal_newlines (x ++ z)).
Proof.
  induction x as [|s IH|s Hs IH|c s Hc IH] using universal_newlines_ind.
  - simpl. lia.
  - cbn [app]. rewrite !universal_newlines_crlf. cbn [length]. lia.
  - rewrite universal_newlines_cr by done.
    destruct s as [|c s].
    + cbn [app]. destruct z as [|c z]; [simpl; lia|].
      destruct (decide (c = 10%N)) as [->|Hc].
      * rewrite universal_newlines_crlf. simpl. lia.
      * rewrite universal_newlines_cr by (simpl; congruence).
        change (universal_newlines []) with (@nil N). cbn [length]. lia.
    + cbn [app] in *. rewrite (universal_newlines_cr (c :: s ++ z)) by done.
      cbn [length]. lia.
  - cbn [app]. rewrite !universal_newlines_keep by done. cbn [length]. lia.
Qed.

Lemma can_encode_universal_newlines enc s :
  can_encode enc s = true -> can_encode enc (universal_newlines s) = true.
Proof.
  unfold can_encode.
  induction s as [|s IH|s Hs IH|c s Hc IH] using universal_newlines_ind.
  - done.
  - rewrite universal_newlines_crlf. cbn [forallb].
    intros [_ [_ H]%andb_prop]%andb_prop. by rewrite IH.
  - rewrite universal_newlines_cr by done. cbn [forallb].
    intros [_ H]%andb_prop. by rewrite IH.
  - rewrite universal_newlines_keep by done. cbn [forallb].
    intros [H1 H]%andb_prop. by rewrite H1, IH.
Qed.

(** A text without line feeds occurs in the text read only where it
    occurs in the text stored. *)
Lemma occurs_universal_newlines P s :
  forallb (fun c => negb (c =? 10)%N) P = true ->
  occurs P (universal_newlines s) -> occurs P s.
Proof.
  intros HP (x & y & H).
  apply universal_newlines_split in H as (x' & r & -> & _ & H).
  apply universal_newlines_split in H as (P' & y' & -> & HP' & _).
  exists x', y'. rewrite <- HP' in HP.
  apply universal_newlines_literal in HP. congruence.
Qed.

Lemma closes_universal_newlines s : closes (universal_newlines s) -> closes s.
Proof.
  intros (w1 & w2 & r & H1 & H2 & H).
  apply universal_newlines_split in H as (p' & s1 & -> & Hp & H).
  apply universal_newlines_split in H as (w1' & s2 & -> & Hw1 & H).
  apply universal_newlines_split in H as (a' & s3 & -> & Ha & H).
  apply universal_newlines_split in H as (w2' & s4 & -> & Hw2 & H).
  apply universal_newlines_split in H as (d' & r' & -> & Hd & _).
  exists w1', w2', r'.
  split; [apply universal_newlines_spaces; by rewrite Hw1|].
  split; [apply universal_newlines_spaces; by rewrite Hw2|].
  assert (E1 : p' = u "</p>").
  { rewrite <- Hp. symmetry. apply universal_newlines_literal.
    by rewrite Hp. }
  assert (E2 : a' = u "</a>").
  { rewrite <- Ha. symmetry. apply universal_newlines_literal.
    by rewrite Ha. }
  assert (E3 : d' = u "</div>").
  { rewrite <- Hd. symmetry. apply universal_newlines_literal.
    by rewrite Hd. }
  by rewrite E1, E2, E3.
Qed.

Lemma no_card_end_inner D a1 a2 :
  no_card_end D = true -> D = a1 ++ a2 -> ~ closes a2.
Proof.
  intros H -> Hc.
  unfold no_card_end in H. rewrite forallb_forall in H.
  assert (Hne : a2 <> []).
  { intros ->. destruct Hc as (w1 & w2 & r & _ & _ & Hr). done. }
  specialize (H (length a1)). rewrite drop_app_length in H.
  apply (closes_iff a2 []) in Hc as [x Hx].
  unfold match_here in H. rewrite Hx in H.
  assert (false = true); [|done]. apply H.
  apply in_seq. rewrite length_app. destruct a2; [done|]. simpl. lia.
Qed.

(** A description that is stored without the end of a card is read back
    without one. *)
Lemma stable_universal_newlines D :
  no_card_end D = true -> stable (universal_newlines D).
Proof.
  intros H. apply stable_no_inner. intros a1 a2 Heq Hc.
  apply universal_newlines_split in Heq as (a1' & a2' & -> & _ & <-).
  apply closes_universal_newlines in Hc.
  by apply (no_card_end_inner _ a1' a2' H).
Qed.

Lemma stripped_ends s :
  strip s = s ->
  not_next isspace s = true /\ not_next isspace (rev s) = true.
Proof.
  intros H. split.
  - rewrite <- H. unfold strip.
    destruct (rstrip_decomp (lstrip s)) as [t Ht].
    apply (not_next_prefix _ _ t). rewrite <- Ht. apply lstrip_not_next.
  - rewrite <- H. unfold strip, rstrip. rewrite rev_involutive.
    apply lstrip_not_next.
Qed.

Lemma strip_fixed s :
  not_next isspace s = true -> not_next isspace (rev s) = true -> strip s = s.
Proof.
  intros Hf Ht. unfold strip, rstrip.
  rewrite (lstrip_fixed s Hf), (lstrip_fixed _ Ht). apply rev_involutive.
Qed.

(** A stripped description is read back stripped. *)
Lemma strip_universal_newlines D :
  strip D = D -> strip (universal_newlines D) = universal_newlines D.
Proof.
  intros [Hh Ht]%stripped_ends. apply strip_fixed.
  - destruct D as [|c D]; [done|]. cbn [not_next] in Hh.
    apply negb_true_iff in Hh.
    rewrite universal_newlines_keep by (intros ->; done).
    cbn [not_next]. by rewrite Hh.
  - destruct (rev (universal_newlines D)) as [|c t] eqn:E; [done|].
    cbn [not_next]. destruct (isspace c) eqn:Hc; [|done]. exfalso.
    apply (f_equal (@rev N)) in E. rewrite rev_involutive in E.
    cbn [rev] in E.
    apply universal_newlines_split in E as (A' & B' & -> & _ & HB).
    assert (Hsp : forallb isspace B' = true).
    { apply universal_newlines_spaces. rewrite HB. cbn [forallb].
      by rewrite Hc. }
    destruct (rev B') as [|z t'] eqn:Ez.
    + apply (f_equal (@rev N)) in Ez. rewrite rev_involutive in Ez.
      by subst B'.
    + rewrite rev_app_distr, Ez in Ht. cbn [app not_next] in Ht.
      apply (f_equal (@rev N)) in Ez. rewrite rev_involutive in Ez.
      subst B'. cbn [rev] in Hsp. rewrite forallb_app in Hsp.
      apply andb_prop in Hsp as [_ Hz]. cbn [forallb] in Hz.
      apply andb_prop in Hz as [Hz _]. by rewrite Hz in Ht.
Qed.

(** *** Text that can be encoded *)

Lemma can_encode_app enc a b :
  can_encode enc (a ++ b) = can_encode enc a && can_encode enc b.
Proof. apply forallb_app. Qed.

Lemma can_encode_ascii enc s : is_ascii s = true -> can_encode enc s = true.
Proof.
  unfold is_ascii, can_encode. rewrite !forallb_forall.
  intros H c Hc. by rewrite (H c Hc).
Qed.

Lemma is_ascii_app a b : is_ascii (a ++ b) = is_ascii a && is_ascii b.
Proof. apply forallb_app. Qed.

Lemma is_plain_app a b : is_plain (a ++ b) = is_plain a && is_plain b.
Proof. apply forallb_app. Qed.

Lemma is_plain_month_name m : is_plain (month_name m) = true.
Proof.
  destruct m as [|q]; [reflexivity|].
  repeat (destruct q as [q|q|]; try reflexivity).
Qed.

Lemma is_plain_weekday_name w : is_plain (weekday_name w) = true.
Proof.
  destruct w as [|q]; [reflexivity|].
  repeat (destruct q as [q|q|]; try reflexivity).
Qed.

Lemma is_plain_digits_fuel fuel n acc :
  is_plain acc = true -> is_plain (digits_fuel fuel n acc) = true.
Proof.
  revert n acc; induction fuel as [|f IH]; intros n acc Hacc; simpl; [done|].
  assert (H : is_plain ((48 + n mod 10)%N :: acc) = true).
  { cbn [is_plain forallb]. fold (is_plain acc). rewrite Hacc, andb_true_r.
    assert (Hm : (n mod 10 < 10)%N) by (by apply N.mod_upper_bound).
    revert Hm. generalize (n mod 10)%N. intros x Hx.
    apply andb_true_intro. split; [apply N.leb_le|apply N.ltb_lt]; lia. }
  destruct (n <? 10)%N; [done|]. by apply IH.
Qed.

Lemma is_plain_str_of_N n : is_plain (str_of_N n) = true.
Proof. by apply is_plain_digits_fuel. Qed.

Lemma is_plain_date_display o : is_plain (format_date_display o) = true.
Proof.
  unfold format_date_display.
  rewrite !is_plain_app, is_plain_month_name, !is_plain_str_of_N,
    is_plain_weekday_name.
  reflexivity.
Qed.

Lemma is_plain_month_header o : is_plain (format_month_header o) = true.
Proof.
  unfold format_month_header.
  rewrite !is_plain_app, is_plain_month_name, !is_plain_str_of_N.
  reflexivity.
Qed.

Lemma is_plain_ascii s : is_plain s = true -> is_ascii s = true.
Proof.
  unfold is_plain, is_ascii. rewrite !forallb_forall. intros H c Hc.
  apply H in Hc. apply andb_prop in Hc as [_ Hc].
  apply N.ltb_lt in Hc. apply N.ltb_lt. lia.
Qed.

Lemma is_plain_no_cr s : is_plain s = true -> no_cr s = true.
Proof.
  unfold is_plain, no_cr. rewrite !forallb_forall. intros H c Hc.
  apply H in Hc. apply andb_prop in Hc as [Hc _].
  apply N.leb_le in Hc. apply negb_true_iff, N.eqb_neq. lia.
Qed.

Lemma is_ascii_str_of_N n : is_ascii (str_of_N n) = true.
Proof. apply is_plain_ascii, is_plain_str_of_N. Qed.

Lemma is_ascii_date_display o : is_ascii (format_date_display o) = true.
Proof. apply is_plain_ascii, is_plain_date_display. Qed.

Lemma is_ascii_month_header o : is_ascii (month_header_line o) = true.
Proof.
  unfold month_header_line.
  rewrite !is_ascii_app, (is_plain_ascii _ (is_plain_month_header o)).
  reflexivity.
Qed.

Lemma no_cr_month_header o : no_cr (month_header_line o) = true.
Proof.
  unfold month_header_line.
  rewrite !no_cr_app, (is_plain_no_cr _ (is_plain_month_header o)).
  reflexivity.
Qed.

Lemma can_encode_card enc d o desc :
  can_encode enc d = true -> can_encode enc desc = true ->
  can_encode enc (generate_card d o desc) = true.
Proof.
  intros Hd Hdesc. unfold generate_card.
  rewrite !can_encode_app, Hd, Hdesc,
    (can_encode_ascii _ _ (is_ascii_date_display o)).
  vm_compute. reflexivity.
Qed.

Lemma can_encode_take enc n s :
  can_encode enc s = true -> can_encode enc (take n s) = true.
Proof.
  intros H. rewrite <- (take_drop n s), can_encode_app in H.
  by apply andb_prop in H as [H _].
Qed.

Lemma can_encode_drop enc n s :
  can_encode enc s = true -> can_encode enc (drop n s) = true.
Proof.
  intros H. rewrite <- (take_drop n s), can_encode_app in H.
  by apply andb_prop in H as [_ H].
Qed.

Lemma can_encode_new_html enc html g :
  can_encode enc html = true -> can_encode enc g = true ->
  can_encode enc (new_html html g) = true.
Proof.
  intros Hh Hg. unfold new_html, slice_to, slice_from.
  rewrite !can_encode_app, Hg, can_encode_take, can_encode_drop by done.
  reflexivity.
Qed.

Lemma printable_expected :
  printable (u "  Expected: " ++ ENTRY_START ++ u " and " ++ ENTRY_END) = true.
Proof. vm_compute. reflexivity. Qed.

Lemma printable_markers_line :
  printable (u "ERROR: Markers not found in " ++ INDEX_PATH)
  = printable INDEX_PATH.
Proof. unfold printable. by rewrite can_encode_app. Qed.

Lemma printable_updated_line n :
  printable (updated_line n) = printable INDEX_PATH.
Proof.
  unfold printable, updated_line.
  rewrite !can_encode_app, (can_encode_ascii _ _ (is_ascii_str_of_N _)).
  by rewrite andb_true_r.
Qed.


(** *** Running [update_index] *)

(** The run of [update_index] on an index file that holds text. *)
Lemma update_index_run w raw d desc :
  files w !! INDEX_PATH = Some (Text raw) ->
  let html := universal_newlines raw in
  let entries := merge_entry (parse_existing_entries html) d desc in
  update_index d desc w
  = if negb (contains html ENTRY_START) || negb (contains html ENTRY_END) then
      if printable INDEX_PATH then
        (SysExit 1,
         World (files w)
           (stdout w
              ++ [u "ERROR: Markers not found in " ++ INDEX_PATH;
                  u "  Expected: " ++ ENTRY_START ++ u " and " ++ ENTRY_END]))
      else (Raise UnicodeEncodeError, w)
    else
      match generate_entries_html entries with
      | None => (Raise ValueError, w)
      | Some g =>
          if writable (new_html html g) then
            if printable INDEX_PATH then
              (Return tt,
               World (<[INDEX_PATH := Text (new_html html g)]> (files w))
                 (stdout w ++ [updated_line (size entries)]))
            else
              (Raise UnicodeEncodeError,
               World (<[INDEX_PATH := Text (new_html html g)]> (files w))
                 (stdout w))
          else
            (Raise UnicodeEncodeError,
             World (<[INDEX_PATH := Text []]> (files w)) (stdout w))
      end.
Proof.
  intros Hf html entries. unfold update_index, mbind, M_bind, read_file.
  rewrite Hf. fold html. fold entries.
  destruct (negb (contains html ENTRY_START)
            || negb (contains html ENTRY_END)).
  - unfold print at 1. rewrite printable_markers_line.
    destruct (printable INDEX_PATH); [|done].
    unfold print, sys_exit. cbn [files stdout].
    rewrite printable_expected. by rewrite <- app_assoc.
  - destruct (generate_entries_html entries) as [g|]; [|done].
    unfold write_file. fold (new_html html g).
    destruct (writable (new_html html g)); [|done].
    unfold print. cbn [files stdout]. fold (updated_line (size entries)).
    rewrite printable_updated_line.
    by destruct (printable INDEX_PATH).
Qed.

(** How a run of [update_index] ends, and the world it leaves: the index
    cannot be read; a marker is missing, and the [ERROR] line is printed or
    not; [strptime] raises; the new text cannot be encoded, and the index
    is left empty; the closing line cannot be printed; or all is well. *)
Lemma update_index_cases w d desc :
  (exists e, (forall raw, files w !! INDEX_PATH <> Some (Text raw))
             /\ update_index d desc w = (Raise e, w))
  \/ exists raw html entries,
      files w !! INDEX_PATH = Some (Text raw)
      /\ html = universal_newlines raw
      /\ entries = merge_entry (parse_existing_entries html) d desc
      /\ ((negb (contains html ENTRY_START) || negb (contains html ENTRY_END)
           = true
           /\ printable INDEX_PATH = true
           /\ update_index d desc w
              = (SysExit 1,
                 World (files w)
                   (stdout w
                      ++ [u "ERROR: Markers not found in " ++ INDEX_PATH;
                          u "  Expected: " ++ ENTRY_START ++ u " and "
                            ++ ENTRY_END])))
          \/ (negb (contains html ENTRY_START)
              || negb (contains html ENTRY_END) = true
              /\ printable INDEX_PATH = false
              /\ update_index d desc w = (Raise UnicodeEncodeError, w))
          \/ (contains html ENTRY_START = true
              /\ contains html ENTRY_END = true
              /\ generate_entries_html entries = None
              /\ update_index d desc w = (Raise ValueError, w))
          \/ exists g,
              contains html ENTRY_START = true
              /\ contains html ENTRY_END = true
              /\ generate_entries_html entries = Some g
              /\ ((writable (new_html html g) = false
                   /\ update_index d desc w
                      = (Raise UnicodeEncodeError,
                         World (<[INDEX_PATH := Text []]> (files w))
                           (stdout w)))
                  \/ (writable (new_html html g) = true
                      /\ printable INDEX_PATH = false
                      /\ update_index d desc w
                         = (Raise UnicodeEncodeError,
                            World
                              (<[INDEX_PATH := Text (new_html html g)]>
                                 (files w))
                              (stdout w)))
                  \/ (writable (new_html html g) = true
                      /\ printable INDEX_PATH = true
                      /\ update_index d desc w
                         = (Return tt,
                            World
                              (<[INDEX_PATH := Text (new_html html g)]>
                                 (files w))
                              (stdout w ++ [updated_line (size entries)]))))).
Proof.
  destruct (files w !! INDEX_PATH) as [[raw|b]|] eqn:Hf.
  2:{ left. exists UnicodeDecodeError. split; [done|].
      unfold update_index, mbind, M_bind, read_file. by rewrite Hf. }
  2:{ left. exists FileNotFoundError. split; [done|].
      unfold update_index, mbind, M_bind, read_file. by rewrite Hf. }
  right.
  exists raw, (universal_newlines raw),
    (merge_entry (parse_existing_entries (universal_newlines raw)) d desc).
  do 3 (split; [done|]).
  rewrite (update_index_run w raw d desc Hf). cbv zeta.
  destruct (negb (contains (universal_newlines raw) ENTRY_START)
            || negb (contains (universal_newlines raw) ENTRY_END)) eqn:Hm.
  - destruct (printable INDEX_PATH); [left|right; left]; by repeat split.
  - right. right. apply orb_false_elim in Hm as [H1 H2].
    apply negb_false_iff in H1, H2.
    destruct (generate_entries_html _) as [g|] eqn:Hg;
      [|left; by repeat split].
    right. exists g. do 3 (split; [done|]).
    destruct (writable _); [|by left]. right.
    destruct (printable INDEX_PATH); [right|left]; done.
Qed.

(** What a run of [update_index] that returns has done. *)
Lemma update_index_return w w' d desc :
  update_index d desc w = (Return tt, w') ->
  exists raw html entries g,
    files w !! INDEX_PATH = Some (Text raw)
    /\ html = universal_newlines raw
    /\ entries = merge_entry (parse_existing_entries html) d desc
    /\ contains html ENTRY_START = true
    /\ contains html ENTRY_END = true
    /\ generate_entries_html entries = Some g
    /\ writable (new_html html g) = true
    /\ printable INDEX_PATH = true
    /\ w' = World (<[INDEX_PATH := Text (new_html html g)]> (files w))
               (stdout w ++ [updated_line (size entries)]).
Proof.
  intros Hrun.
  destruct (update_index_cases w d desc)
    as [(e & _ & H)
       |(raw & html & entries & Hf & Hh & He
         & [(_ & _ & H)|[(_ & _ & H)|[(_ & _ & _ & H)
           |(g & Hs & Hend & Hg
             & [(_ & H)|[(_ & _ & H)|(Hw & Hp & H)]])]]])];
    rewrite H in Hrun; try discriminate Hrun.
  injection Hrun as <-. by exists raw, html, entries, g.
Qed.

(** What a run of [update_index] that calls [sys.exit] has done. *)
Lemma update_index_exit w code w' d desc :
  update_index d desc w = (SysExit code, w') ->
  code = 1%Z
  /\ exists raw,
      files w !! INDEX_PATH = Some (Text raw)
      /\ (contains (universal_newlines raw) ENTRY_START = false
          \/ contains (universal_newlines raw) ENTRY_END = false)
      /\ printable INDEX_PATH = true
      /\ w' = World (files w)
                 (stdout w
                    ++ [u "ERROR: Markers not found in " ++ INDEX_PATH;
                        u "  Expected: " ++ ENTRY_START ++ u " and "
                          ++ ENTRY_END]).
Proof.
  intros Hrun.
  destruct (update_index_cases w d desc)
    as [(e & _ & H)
       |(raw & html & entries & Hf & Hh & He
         & [(Hm & Hp & H)|[(_ & _ & H)|[(_ & _ & _ & H)
           |(g & Hs & Hend & Hg
             & [(_ & H)|[(_ & _ & H)|(Hw & _ & H)]])]]])];
    rewrite H in Hrun; try discriminate Hrun.
  injection Hrun as <- <-. split; [done|]. exists raw. subst html.
  split; [done|]. split; [|done].
  apply orb_prop in Hm as [Hm|Hm]; apply negb_true_iff in Hm; auto.
Qed.

(** The run that calls [sys.exit]. *)
Lemma update_index_exits w raw d desc :
  files w !! INDEX_PATH = Some (Text raw) ->
  contains (universal_newlines raw) ENTRY_START = false
  \/ contains (universal_newlines raw) ENTRY_END = false ->
  printable INDEX_PATH = true ->
  update_index d desc w
  = (SysExit 1,
     World (files w)
       (stdout w
          ++ [u "ERROR: Markers not found in " ++ INDEX_PATH;
              u "  Expected: " ++ ENTRY_START ++ u " and " ++ ENTRY_END])).
Proof.
  intros Hf Hm Hp.
  destruct (update_index_cases w d desc)
    as [(e & Hn & _)
       |(raw' & html & entries & Hf' & Hh & He
         & [(_ & _ & H)|[(_ & Hp' & _)|[(Hs & Hend & _)
           |(g & Hs & Hend & _)]]])].
  - by destruct (Hn raw).
  - done.
  - congruence.
  - assert (raw' = raw) as -> by congruence. subst html.
    destruct Hm; congruence.
  - assert (raw' = raw) as -> by congruence. subst html.
    destruct Hm; congruence.
Qed.

(** The run that returns. *)
Lemma update_index_returns w raw d desc g :
  files w !! INDEX_PATH = Some (Text raw) ->
  contains (universal_newlines raw) ENTRY_START = true ->
  contains (universal_newlines raw) ENTRY_END = true ->
  generate_entries_html
    (merge_entry (parse_existing_entries (universal_newlines raw)) d desc)
  = Some g ->
  writable (new_html (universal_newlines raw) g) = true ->
  printable INDEX_PATH = true ->
  update_index d desc w
  = (Return tt,
     World (<[INDEX_PATH := Text (new_html (universal_newlines raw) g)]>
              (files w))
       (stdout w
          ++ [updated_line
                (size (merge_entry
                         (parse_existing_entries (universal_newlines raw))
                         d desc))])).
Proof.
  intros Hf Hs Hend Hg Hw Hp.
  destruct (update_index_cases w d desc)
    as [(e & Hn & _)
       |(raw' & html & entries & Hf' & Hh & He
         & [(Hm & _)|[(Hm & _)|[(_ & _ & Hn & _)
           |(g' & _ & _ & Hg'
             & [(Hw' & _)|[(_ & Hp' & _)|(_ & _ & H)]])]]])].
  - by destruct (Hn raw).
  - assert (raw' = raw) as -> by congruence. subst html.
    by rewrite Hs, Hend in Hm.
  - assert (raw' = raw) as -> by congruence. subst html.
    by rewrite Hs, Hend in Hm.
  - assert (raw' = raw) as -> by congruence. subst. congruence.
  - assert (raw' = raw) as -> by congruence. subst.
    assert (g' = g) as -> by congruence. congruence.
  - congruence.
  - assert (raw' = raw) as -> by congruence. subst.
    assert (g' = g) as -> by congruence. done.
Qed.

(** Whatever its outcome, [update_index] changes no file but the index. *)
Lemma update_index_frame w o w' d desc path :
  update_index d desc w = (o, w') -> path <> INDEX_PATH ->
  files w' !! path = files w !! path.
Proof.
  intros Hrun Hp.
  destruct (update_index_cases w d desc)
    as [(e & _ & H)
       |(raw & html & entries & Hf & Hh & He
         & [(_ & _ & H)|[(_ & _ & H)|[(_ & _ & _ & H)
           |(g & Hs & Hend & Hg
             & [(_ & H)|[(_ & _ & H)|(_ & _ & H)]])]]])];
    rewrite H in Hrun; injection Hrun as <- <-; cbn [files]; try done;
    by rewrite lookup_insert_ne.
Qed.

(** The text through the first start marker, and the text from the first
    end marker on. *)
Lemma marker_slices html :
  contains html ENTRY_START = true -> contains html ENTRY_END = true ->
  exists before rest_s before_e after,
    html = before ++ ENTRY_START ++ rest_s
    /\ html = before_e ++ ENTRY_END ++ after
    /\ find html ENTRY_START = Z.of_nat (length before)
    /\ find html ENTRY_END = Z.of_nat (length before_e)
    /\ slice_to html (find html ENTRY_START + Z.of_nat (length ENTRY_START))
       = before ++ ENTRY_START
    /\ slice_from html (find html ENTRY_END) = ENTRY_END ++ after.
Proof.
  intros H1 H2.
  destruct (contains_found _ _ H1) as (a & b & Ha & Hfa & _).
  destruct (contains_found _ _ H2) as (a' & b' & Ha' & Hfa' & _).
  exists a, b, a', b'. do 4 (split; [done|]). split.
  - rewrite Hfa, <- Nat2Z.inj_add, <- length_app.
    rewrite Ha at 1. rewrite (app_assoc a). apply slice_to_app.
  - rewrite Hfa'. rewrite Ha' at 1. apply slice_from_app.
Qed.


(** With the end marker first, the slice between the markers is empty
    and no entry is recovered. *)
Lemma parse_inverted html (i j : nat) :
  find html ENTRY_START = Z.of_nat i -> find html ENTRY_END = Z.of_nat j ->
  j <= i + length ENTRY_START ->
  parse_existing_entries html = ∅.
Proof.
  intros Hi Hj Hle. unfold parse_existing_entries.
  rewrite Hi, Hj, <- Nat2Z.inj_add.
  destruct (_ || _); [done|].
  by rewrite slice_empty.
Qed.

Lemma generate_single d date_obj desc :
  strptime d = Some date_obj ->
  generate_entries_html (<[d := Info desc]> ∅)
  = Some (join [10%N] [month_header_line date_obj; [];
                       generate_card d date_obj desc]).
Proof.
  intros Hd. unfold generate_entries_html.
  destruct (decide _) as [He|_].
  { by apply insert_non_empty in He. }
  rewrite insert_empty, map_to_list_singleton. cbn [fmap list_fmap fst].
  cbn [sorted_desc fold_right insert_desc entries_lines].
  rewrite Hd, lookup_singleton_eq.
  destruct (decide _); [done|]. reflexivity.
Qed.

(** The region generated for one entry can be encoded when its date and
    its description can. *)
Lemma can_encode_single enc d date_obj desc :
  can_encode enc d = true -> can_encode enc desc = true ->
  can_encode enc
    (join [10%N] [month_header_line date_obj; [];
                  generate_card d date_obj desc]) = true.
Proof.
  intros Hd Hdesc. rewrite join_flat, flat_card, !can_encode_app.
  rewrite (can_encode_ascii _ _ (is_ascii_month_header date_obj)).
  by rewrite can_encode_card.
Qed.

(** C10: when the first end marker of the index document read comes
    before its first start marker, [update_index] does not take the error
    exit; for a date [strptime] accepts, when the document, the date and
    the description can be encoded and the closing line printed, it
    rewrites the index, and the new text holds the markers and the text
    between them twice. *)
Theorem C10_markers_out_of_order w raw date_str description :
  files w !! INDEX_PATH = Some (Text raw) ->
  (0 <= find (universal_newlines raw) ENTRY_END
   < find (universal_newlines raw) ENTRY_START)%Z ->
  (forall code w', update_index date_str description w <> (SysExit code, w'))
  /\ (is_Some (strptime date_str) ->
      writable raw = true ->
      writable date_str = true ->
      writable description = true ->
      printable INDEX_PATH = true ->
      exists w' new,
        update_index date_str description w = (Return tt, w')
        /\ files w' !! INDEX_PATH = Some (Text new)
        /\ duplicated_between (universal_newlines raw) new).
Proof.
  intros Hf [H0 Hlt]. set (html := universal_newlines raw) in *.
  assert (Hs : contains html ENTRY_START = true)
    by (unfold contains; apply Z.leb_le; lia).
  assert (He : contains html ENTRY_END = true)
    by (unfold contains; by apply Z.leb_le).
  destruct (marker_slices html Hs He)
    as (a & b & a' & b' & Ha & Ha' & Hfa & Hfa' & Hst & Hsf).
  assert (Hparse : parse_existing_entries html = ∅).
  { apply (parse_inverted html (length a) (length a')); [done..|lia]. }
  split.
  { intros code w' Hx.
    apply update_index_exit in Hx as (_ & raw' & Hf' & Hm & _).
    assert (raw' = raw) as -> by congruence. fold html in Hm.
    destruct Hm; congruence. }
  intros [date_obj Hd] Hwr Hwd Hwdesc Hp.
  set (g := join [10%N] [month_header_line date_obj; [];
                         generate_card date_str date_obj description]).
  assert (Hg : generate_entries_html
                 (merge_entry (parse_existing_entries html) date_str
                    description) = Some g).
  { unfold merge_entry. rewrite Hparse. by apply generate_single. }
  assert (Hw : writable (new_html html g) = true).
  { apply can_encode_new_html.
    - by apply can_encode_universal_newlines.
    - by apply (can_encode_single _ date_str date_obj description). }
  rewrite (update_index_returns w raw date_str description g Hf Hs He Hg
             Hw Hp).
  eexists _, _. split; [reflexivity|]. split; [apply lookup_insert_eq|].
  unfold new_html. fold html. rewrite Hst, Hsf. clear Hst Hsf Hw Hg.
  assert (Hl : length a' <= length a) by lia.
  pose proof Ha as Heq. rewrite Ha' in Heq at 1.
  destruct (app_split_prefix _ _ _ _ Heq Hl) as (m & -> & Hm).
  destruct (Nat.le_gt_cases (length ENTRY_END) (length m)) as [Hle|Hgt].
  - destruct (app_split_prefix _ _ _ _ Hm Hle) as (between & -> & ->).
    exists a', between, b, (g ++ [10; 32; 32]%N).
    split; [by rewrite Ha, <- !app_assoc|].
    split; [done|]. split; [by rewrite Hfa|].
    by rewrite <- !app_assoc.
  - exfalso. symmetry in Hm.
    destruct (app_split_prefix _ _ _ _ Hm (Nat.lt_le_incl _ _ Hgt))
      as (m' & HE & Hb).
    rewrite ENTRY_START_head in Hb. simpl in Hb. symmetry in Hb.
    eapply (no_straddle ENTRY_END m m' b' _ 60%N HE); [| |exact Hb|].
    + intros ->. rewrite app_nil_r in Hfa. lia.
    + intros ->. rewrite app_nil_r in HE. rewrite HE in Hgt. lia.
    + apply ENTRY_END_tail.
Qed.


(** *** Sorting the dates *)

Lemma insert_desc_perm x l : insert_desc x l ≡ₚ x :: l.
Proof.
  induction l as [|y l IH]; simpl; [done|].
  destruct (str_ltb x y); [|done].
  rewrite IH. apply Permutation_swap.
Qed.

Lemma sorted_desc_perm l : sorted_desc l ≡ₚ l.
Proof.
  induction l as [|x l IH]; simpl; [done|].
  by rewrite insert_desc_perm, IH.
Qed.

Lemma sorted_dates_NoDup (entries : gmap str info) :
  NoDup (sorted_desc (map_to_list entries).*1).
Proof. rewrite sorted_desc_perm. apply NoDup_fst_map_to_list. Qed.

Lemma elem_of_sorted_dates (entries : gmap str info) k :
  k ∈ sorted_desc (map_to_list entries).*1 <-> is_Some (entries !! k).
Proof.
  rewrite sorted_desc_perm, list_elem_of_fmap. split.
  - intros [[k' i] [-> Hin]]. apply elem_of_map_to_list in Hin. by exists i.
  - intros [i Hi]. exists (k, i). split; [done|].
    by apply elem_of_map_to_list.
Qed.

Lemma filter_absent (l : list str) d :
  d ∉ l -> filter (fun k => k = d) l = [].
Proof.
  induction l as [|x l IH]; intros Hd; [done|].
  apply not_elem_of_cons in Hd as [Hne Hd].
  rewrite filter_cons. destruct (decide (x = d)); [done|]. by apply IH.
Qed.

Lemma count_NoDup (l : list str) d :
  NoDup l -> d ∈ l -> length (filter (fun k => k = d) l) = 1.
Proof.
  induction 1 as [|x l Hx Hl IH]; intros Hd.
  - by apply elem_of_nil in Hd.
  - rewrite filter_cons. destruct (decide (x = d)) as [->|Hne].
    + simpl. by rewrite filter_absent.
    + apply elem_of_cons in Hd as [->|Hd]; [done|]. by apply IH.
Qed.

(** *** The orchestrator *)

Lemma bind_run {A B} (m : M A) (f : A -> M B) w :
  (m ≫= f) w
  = match m w with
    | (Return x, w') => f x w'
    | (SysExit c, w') => (SysExit c, w')
    | (Raise e, w') => (Raise e, w')
    end.
Proof. reflexivity. Qed.

Lemma no_exit_bind {A B} (m : M A) (f : A -> M B) :
  no_exit m -> (forall a, no_exit (f a)) -> no_exit (m ≫= f).
Proof.
  intros Hm Hf w code w'. unfold mbind, M_bind.
  destruct (m w) as [[a|c|e] w1] eqn:E.
  - apply Hf.
  - by apply Hm in E.
  - done.
Qed.

Lemma no_exit_print line : no_exit (print line).
Proof. intros w code w'. unfold print. by destruct (printable line). Qed.

Lemma no_exit_run_git l : no_exit (run_git l).
Proof. intros w code w'. unfold run_git. by destruct (git l (files w)). Qed.

Lemma no_exit_run_git_checked l : no_exit (run_git_checked l).
Proof.
  apply no_exit_bind; [apply no_exit_run_git|].
  intros code. by destruct (code =? 0)%Z.
Qed.

Lemma no_exit_push_changes d : no_exit (push_changes d).
Proof.
  unfold push_changes.
  repeat first
    [ apply no_exit_print | apply no_exit_run_git_checked
    | apply no_exit_run_git
    | apply no_exit_bind; [|intros ?]
    | match goal with |- no_exit (if ?b then _ else _) => destruct b end ].
Qed.

Lemma path_join_relative a b :
  match b with 47%N :: _ => False | _ => True end ->
  exists sep, path_join a b = a ++ sep ++ b
              /\ (sep = [] \/ sep = [47%N])
              /\ (a <> [] -> last a <> Some 47%N -> sep = [47%N]).
Proof.
  intros Hb. unfold path_join.
  assert (Hj : exists sep,
             match rev a with
             | [] => b
             | 47%N :: _ => a ++ b
             | _ => a ++ [47%N] ++ b
             end = a ++ sep ++ b
             /\ (sep = [] \/ sep = [47%N])
             /\ (a <> [] -> last a <> Some 47%N -> sep = [47%N])).
  { destruct (rev a) as [|c r] eqn:E.
    - apply (f_equal (@rev N)) in E. rewrite rev_involutive in E.
      subst a. exists []. by repeat split; [left|].
    - assert (Hl : last a = Some c).
      { apply (f_equal (@rev N)) in E. rewrite rev_involutive in E.
        subst a. simpl. by rewrite last_snoc. }
      destruct (decide (c = 47%N)) as [->|Hc].
      + exists []. repeat split; [by left|]. intros _ H. by rewrite Hl in H.
      + exists [47%N]. split; [|by split; [right|]].
        destruct c as [|p]; [done|].
        repeat (destruct p as [p|p|]; try done). }
  destruct b as [|c b]; [done|].
  destruct c as [|q]; [done|].
  repeat (destruct q as [q|q|]; try done).
Qed.


Lemma strptime_head s d :
  strptime s = Some d -> exists c s', s = c :: s' /\ isdecimal c = true.
Proof.
  unfold strptime, match_here, strptime_re. cbn [match_k].
  destruct s as [|c s]; [done|].
  destruct (isdecimal c) eqn:E; [|done]. intros _. by exists c, s.
Qed.

Lemma date_file_relative s d :
  strptime s = Some d ->
  match s ++ u ".html" with 47%N :: _ => False | _ => True end.
Proof.
  intros H. destruct (strptime_head _ _ H) as (c & s' & -> & Hc).
  simpl. destruct (decide (c = 47%N)) as [->|Hne].
  - by rewrite isdecimal_ascii in Hc.
  - destruct c as [|q]; [done|].
    repeat (destruct q as [q|q|]; try done).
Qed.

Lemma last_app_cons (a b : str) c : last (a ++ b ++ [c]) = Some c.
Proof. by rewrite app_assoc, last_snoc. Qed.

Lemma DAILY_DIR_join b :
  match b with 47%N :: _ => False | _ => True end ->
  path_join DAILY_DIR b = DAILY_DIR ++ [47%N] ++ b.
Proof.
  intros Hb. destruct (path_join_relative DAILY_DIR b Hb) as (sep & -> & _ & H).
  rewrite H; [done| |].
  - unfold DAILY_DIR.
    destruct (path_join_relative (path_join SCRIPT_DIR (u "autotrader"))
                (u "daily") I) as (sep' & -> & _).
    intros Hnil. apply (f_equal length) in Hnil.
    rewrite !length_app in Hnil. simpl in Hnil. lia.
  - unfold DAILY_DIR.
    destruct (path_join_relative (path_join SCRIPT_DIR (u "autotrader"))
                (u "daily") I) as (sep' & -> & _).
    change (u "daily") with (u "dail" ++ [121%N]).
    rewrite (app_assoc sep'), last_app_cons. done.
Qed.

Lemma INDEX_PATH_eq : INDEX_PATH = DAILY_DIR ++ [47%N] ++ u "index.html".
Proof. unfold INDEX_PATH. by rewrite DAILY_DIR_join. Qed.

Lemma EMAILS_DIR_eq : EMAILS_DIR = DAILY_DIR ++ [47%N] ++ u "emails".
Proof. unfold EMAILS_DIR. by rewrite DAILY_DIR_join. Qed.

Lemma wrapper_not_index s d :
  strptime s = Some d -> path_join DAILY_DIR (s ++ u ".html") <> INDEX_PATH.
Proof.
  intros H. rewrite DAILY_DIR_join by (by eapply date_file_relative).
  rewrite INDEX_PATH_eq. intros Heq.
  apply app_inv_head in Heq. simpl in Heq. injection Heq as Heq.
  change (u "index.html") with (u "index" ++ u ".html") in Heq.
  apply app_inv_tail in Heq. subst s.
  vm_compute in H. discriminate.
Qed.

Lemma email_not_index s d :
  strptime s = Some d -> path_join EMAILS_DIR (s ++ u ".html") <> INDEX_PATH.
Proof.
  intros H.
  destruct (path_join_relative EMAILS_DIR (s ++ u ".html")
              (date_file_relative _ _ H)) as (sep & -> & _).
  rewrite EMAILS_DIR_eq, INDEX_PATH_eq, <- !app_assoc. intros Heq.
  apply app_inv_head in Heq. simpl in Heq. discriminate.
Qed.


Lemma no_exit_after_index a : no_exit (after_index a).
Proof.
  apply no_exit_bind; [|intros; apply no_exit_print].
  destruct (negb _); [apply no_exit_push_changes|apply no_exit_print].
Qed.

(** The run on a date that does not parse. *)
Lemma main_invalid_date a w :
  strptime (arg_date a) = None ->
  main a w
  = if printable (u "ERROR: Invalid date format '" ++ arg_date a
                    ++ u "'. Use YYYY-MM-DD.")
    then (SysExit 1,
          World (files w)
            (stdout w ++ [u "ERROR: Invalid date format '" ++ arg_date a
                            ++ u "'. Use YYYY-MM-DD."]))
    else (Raise UnicodeEncodeError, w).
Proof.
  intros H. unfold main. rewrite H. unfold mbind, M_bind, print, sys_exit.
  by destruct (printable _).
Qed.

(** Past its two checks, the copy, the read of the copy and the write of
    the wrapper page, [main] runs the index update in a world where the
    archive copy and the wrapper page are written. *)
Lemma main_reaches_index a w date_obj email :
  reaches_index a w date_obj email ->
  main a w
  = (update_index (arg_date a)
       (extract_description (universal_newlines email));;
     after_index a)
      (World
         (<[path_join DAILY_DIR (arg_date a ++ u ".html") :=
              Text (generate_wrapper_page (arg_date a) date_obj)]>
            (<[path_join EMAILS_DIR (arg_date a ++ u ".html") := Text email]>
               (files w)))
         (stdout w ++ progress_lines a (universal_newlines email))).
Proof.
  intros (H & Hs & Hne & Hp & Hw). unfold main. rewrite H.
  unfold progress_lines in *. cbn [forallb] in Hp.
  apply andb_prop in Hp as [Hp1 Hp].
  apply andb_prop in Hp as [Hp2 Hp].
  apply andb_prop in Hp as [Hp3 Hp].
  apply andb_prop in Hp as [Hp4 Hp].
  apply andb_prop in Hp as [Hp5 _].
  unfold mbind at 1, M_bind at 1, path_exists. rewrite Hs.
  rewrite bool_decide_eq_true_2 by (by eexists). cbn [negb].
  unfold mbind at 1, M_bind at 1, print at 1. rewrite Hp1.
  unfold mbind at 1, M_bind at 1, print at 1. rewrite Hp2.
  unfold mbind at 1, M_bind at 1, copy2. cbn [files stdout].
  rewrite Hs, decide_False by done.
  unfold mbind at 1, M_bind at 1, print at 1. rewrite Hp3.
  unfold mbind at 1, M_bind at 1, read_file. cbn [files stdout].
  rewrite lookup_insert_eq.
  unfold mbind at 1, M_bind at 1, print at 1. rewrite Hp4.
  unfold mbind at 1, M_bind at 1, write_file. rewrite Hw.
  unfold mbind at 1, M_bind at 1, print at 1. rewrite Hp5.
  cbn [files stdout]. unfold after_index. rewrite <- !app_assoc.
  reflexivity.
Qed.

(** How a run on a date that parses goes up to the index update: the
    source is missing, and the [ERROR] line is printed; the run reaches the
    index update; or an exception is raised on the way, having changed at
    most the archive copy and the wrapper page. *)
Lemma main_cases a w date_obj :
  strptime (arg_date a) = Some date_obj ->
  (files w !! arg_source a = None
   /\ printable (u "ERROR: Source file not found: " ++ arg_source a) = true
   /\ main a w
      = (SysExit 1,
         World (files w)
           (stdout w ++ [u "ERROR: Source file not found: " ++ arg_source a])))
  \/ (exists email, reaches_index a w date_obj email)
  \/ (exists e w',
        main a w = (Raise e, w')
        /\ forall path,
            path <> path_join EMAILS_DIR (arg_date a ++ u ".html") ->
            path <> path_join DAILY_DIR (arg_date a ++ u ".html") ->
            files w' !! path = files w !! path).
Proof.
  intros H.
  destruct (main a w) as [o w'] eqn:Hrun. revert Hrun.
  unfold main. rewrite H.
  unfold mbind at 1, M_bind at 1, path_exists.
  destruct (files w !! arg_source a) as [content|] eqn:Hs.
  2:{ rewrite bool_decide_eq_false_2 by (by intros [? ?]). cbn [negb].
      unfold mbind, M_bind, print, sys_exit.
      destruct (printable (u "ERROR: Source file not found: "
                            ++ arg_source a)) eqn:Hp; intros [= <- <-].
      - left. by repeat split.
      - right. right. by eexists _, _. }
  rewrite bool_decide_eq_true_2 by (by eexists). cbn [negb].
  unfold mbind at 1, M_bind at 1, print at 1.
  destruct (printable (u "Publishing daily email for " ++ arg_date a)) eqn:Hp1.
  2:{ intros [= <- <-]. right. right. by eexists _, _. }
  unfold mbind at 1, M_bind at 1, print at 1.
  destruct (printable (u "  Source: " ++ arg_source a)) eqn:Hp2.
  2:{ intros [= <- <-]. right. right. by eexists _, _. }
  unfold mbind at 1, M_bind at 1, copy2. cbn [files stdout]. rewrite Hs.
  destruct (decide _) as [Heq|Hne].
  { intros [= <- <-]. right. right. by eexists _, _. }
  unfold mbind at 1, M_bind at 1, print at 1.
  destruct (printable (u "  Copied email to "
                        ++ path_join EMAILS_DIR (arg_date a ++ u ".html"))) eqn:Hp3.
  2:{ intros [= <- <-]. right. right. eexists _, _. split; [done|].
      intros path Hd1 Hd2. cbn [files]. by rewrite lookup_insert_ne. }
  unfold mbind at 1, M_bind at 1, read_file. cbn [files stdout].
  rewrite lookup_insert_eq.
  destruct content as [email|bytes].
  2:{ intros [= <- <-]. right. right. eexists _, _. split; [done|].
      intros path Hd1 Hd2. cbn [files]. by rewrite lookup_insert_ne. }
  unfold mbind at 1, M_bind at 1, print at 1.
  destruct (printable (u "  Description: "
                        ++ extract_description (universal_newlines email))) eqn:Hp4.
  2:{ intros [= <- <-]. right. right. eexists _, _. split; [done|].
      intros path Hd1 Hd2. cbn [files]. by rewrite lookup_insert_ne. }
  unfold mbind at 1, M_bind at 1, write_file.
  destruct (writable (generate_wrapper_page (arg_date a) date_obj)) eqn:Hw.
  2:{ intros [= <- <-]. right. right. eexists _, _. split; [done|].
      intros path Hd1 Hd2. cbn [files]. by rewrite !lookup_insert_ne. }
  unfold mbind at 1, M_bind at 1, print at 1.
  destruct (printable (u "  Generated wrapper: "
                        ++ path_join DAILY_DIR (arg_date a ++ u ".html"))) eqn:Hp5.
  2:{ intros [= <- <-]. right. right. eexists _, _. split; [done|].
      intros path Hd1 Hd2. cbn [files]. by rewrite !lookup_insert_ne. }
  intros _. right. left. exists email.
  split; [done|]. split; [done|]. split; [done|]. split; [|done].
  unfold progress_lines. cbn [forallb].
  by rewrite Hp1, Hp2, Hp3, Hp4, Hp5.
Qed.

Lemma index_after_copy a w date_obj content page :
  strptime (arg_date a) = Some date_obj ->
  (<[path_join DAILY_DIR (arg_date a ++ u ".html") := page]>
     (<[path_join EMAILS_DIR (arg_date a ++ u ".html") := content]>
        (files w))) !! INDEX_PATH
  = files w !! INDEX_PATH.
Proof.
  intros Hd.
  rewrite lookup_insert_ne by (by eapply wrapper_not_index).
  by rewrite lookup_insert_ne by (by eapply email_not_index).
Qed.

Lemma bind_exit {A B} (m : M A) (f : A -> M B) w code w' :
  (m ≫= f) w = (SysExit code, w') ->
  m w = (SysExit code, w')
  \/ exists a w1, m w = (Return a, w1) /\ f a w1 = (SysExit code, w').
Proof.
  unfold mbind, M_bind. destruct (m w) as [[a|c|e] w1]; cbn; intros H.
  - right. by exists a, w1.
  - left. by injection H as -> ->.
  - discriminate H.
Qed.

(** C4 (amended): [main] ends by [sys.exit] only with status 1, after
    printing an [ERROR] line and without writing the index, and it does so
    exactly on the input errors it checks for, each as the run reaches its
    check. *)
Theorem C4_error_exit_cases a w :
  (forall code w',
      main a w = (SysExit code, w') ->
      code = 1%Z /\ diagnostic_printed w w'
      /\ files w' !! INDEX_PATH = files w !! INDEX_PATH
      /\ input_error a w)
  /\ (input_error a w -> exists w', main a w = (SysExit 1, w')).
Proof.
  destruct (strptime (arg_date a)) as [date_obj|] eqn:Hd.
  2:{ rewrite (main_invalid_date a w Hd). split.
      - intros code w'. destruct (printable _) eqn:Hp; [|done].
        intros [= <- <-]. split; [done|]. split.
        + exists [], (u "Invalid date format '" ++ arg_date a
                        ++ u "'. Use YYYY-MM-DD."), []. done.
        + split; [done|]. by left.
      - intros [[_ Hp]|[([? ?] & _)|(o & ? & ? & (? & _) & _)]];
          [|congruence..].
        rewrite Hp. eauto. }
  split.
  - intros code w' Hx.
    destruct (main_cases a w date_obj Hd)
      as [(Hs & Hp & Hm)|[[email Hr]|(e & w1 & Hm & _)]].
    + rewrite Hm in Hx. injection Hx as <- <-.
      split; [done|]. split.
      * exists [], (u "Source file not found: " ++ arg_source a), []. done.
      * split; [done|]. right. left. by split; [eexists|].
    + rewrite (main_reaches_index a w _ _ Hr) in Hx.
      apply bind_exit in Hx as [Hx|(? & w3 & _ & Hx)];
        [|by apply no_exit_after_index in Hx].
      apply update_index_exit in Hx as (-> & index & Hi & Hm & Hp & ->).
      cbn [files] in *.
      rewrite (index_after_copy a w date_obj _ _ Hd) in Hi |- *.
      split; [done|]. split.
      * cbn [stdout].
        exists (progress_lines a (universal_newlines email)),
          (u "Markers not found in " ++ INDEX_PATH),
          [u "  Expected: " ++ ENTRY_START ++ u " and " ++ ENTRY_END].
        by rewrite <- !app_assoc.
      * split; [done|]. right. right. exists date_obj, email, index.
        by rewrite printable_markers_line.
    + congruence.
  - intros [[Hn _]|[(_ & Hs & Hp)|(o & email & index & Hr & Hi & Hm & Hp)]].
    + congruence.
    + destruct (main_cases a w date_obj Hd)
        as [(_ & _ & Hm)|[[email (_ & Hs' & _)]|(e & w1 & Hm & _)]];
        [eauto|congruence|].
      exfalso. revert Hm. unfold main. rewrite Hd.
      unfold mbind at 1, M_bind at 1, path_exists. rewrite Hs.
      rewrite bool_decide_eq_false_2 by (by intros [? ?]). cbn [negb].
      unfold mbind, M_bind, print, sys_exit. by rewrite Hp.
    + rewrite (main_reaches_index a w _ _ Hr).
      pose proof Hr as (Hd' & _).
      assert (o = date_obj) as -> by congruence.
      rewrite bind_run.
      rewrite (update_index_exits _ index); [eauto| |done|].
      * cbn [files]. by rewrite (index_after_copy a w date_obj _ _ Hd).
      * by rewrite <- printable_markers_line.
Qed.


(** *** Where the markers are found *)

Lemma found_absent s sub a b :
  s = a ++ sub ++ b ->
  (forall j, j < length a -> starts_with sub (drop j s) = false) ->
  absent sub a (sub ++ b).
Proof.
  intros Hs Hno x y Heq.
  destruct (Nat.le_gt_cases (length a) (length x)) as [|Hgt]; [done|].
  specialize (Hno _ Hgt). rewrite Hs, Heq in Hno.
  by rewrite drop_app_length, starts_with_app in Hno.
Qed.

Lemma absent_found s sub a b :
  s = a ++ sub ++ b -> absent sub a (sub ++ b) ->
  find s sub = Z.of_nat (length a).
Proof.
  intros Hs Hab. apply (find_found s sub a b Hs).
  intros j Hj. destruct (starts_with sub (drop j s)) eqn:E; [|done].
  exfalso. apply starts_with_true in E as [y Hy].
  assert (Heq : a ++ sub ++ b = take j s ++ sub ++ y).
  { rewrite <- Hy, take_drop. done. }
  specialize (Hab _ _ Heq). rewrite length_take in Hab.
  lia.
Qed.

Lemma absent_prefix P s1 s2 t : absent P (s1 ++ s2) t -> absent P s1 (s2 ++ t).
Proof.
  intros H x y Heq. rewrite app_assoc in Heq. specialize (H x y Heq).
  destruct (Nat.le_gt_cases (length s1) (length x)) as [|Hgt]; [done|].
  rewrite length_app in H. lia.
Qed.

(** Changing the text after [s] to one that starts with a character [P]
    holds only in first place, if at all, keeps [P] out of [s]. *)
Lemma absent_change_tail P s t t' h :
  absent P s t ->
  forallb (fun c => negb (c =? h)%N) (tail P) = true ->
  head t' = Some h ->
  absent P s t'.
Proof.
  intros Hab HP Ht x y Heq.
  destruct (Nat.le_gt_cases (length s) (length x)) as [|Hgt]; [done|].
  exfalso. symmetry in Heq.
  destruct (app_split_prefix _ _ _ _ Heq (Nat.lt_le_incl _ _ Hgt))
    as (m & Hs & Hm).
  assert (Hmne : m <> []).
  { intros ->. rewrite app_nil_r in Hs. subst s. lia. }
  destruct (Nat.le_gt_cases (length P) (length m)) as [Hle|Hlt].
  - destruct (app_split_prefix _ _ _ _ Hm Hle) as (m' & -> & _).
    specialize (Hab x (m' ++ t)). rewrite Hs, <- !app_assoc in Hab.
    specialize (Hab eq_refl). rewrite !length_app in Hab.
    rewrite Hs, !length_app in Hgt. lia.
  - symmetry in Hm.
    destruct (app_split_prefix _ _ _ _ Hm (Nat.lt_le_incl _ _ Hlt))
      as (m' & HPm & Hm').
    destruct t' as [|h' t']; [done|]. injection Ht as ->.
    symmetry in Hm'.
    eapply (no_straddle P m m' y t' h HPm Hmne); [|exact Hm'|exact HP].
    intros ->. rewrite app_nil_r in HPm. subst m. lia.
Qed.

Lemma absent_not_occurs P s t : P <> [] -> absent P s (P ++ t) -> ~ occurs P s.
Proof.
  intros HP Hab (x & y & ->).
  specialize (Hab x (y ++ P ++ t)). rewrite <- !app_assoc in Hab.
  specialize (Hab eq_refl). rewrite !length_app in Hab.
  destruct P; [done|]. simpl in Hab. lia.
Qed.

Lemma occurs_infix P s x y : occurs P s -> occurs P (x ++ s ++ y).
Proof.
  intros (a & b & ->). exists (x ++ a), (b ++ y). by rewrite <- !app_assoc.
Qed.

(** An index document whose start marker ends before its end marker
    begins. *)
Lemma ordered_markers html :
  (0 <= find html ENTRY_START)%Z ->
  (find html ENTRY_START + Z.of_nat (length ENTRY_START)
   <= find html ENTRY_END)%Z ->
  exists a content b,
    html = a ++ ENTRY_START ++ content ++ ENTRY_END ++ b
    /\ find html ENTRY_START = Z.of_nat (length a)
    /\ find html ENTRY_END
       = Z.of_nat (length (a ++ ENTRY_START ++ content))
    /\ absent ENTRY_START a (ENTRY_START ++ content ++ ENTRY_END ++ b)
    /\ absent ENTRY_END (a ++ ENTRY_START ++ content) (ENTRY_END ++ b).
Proof.
  intros H0 Hle.
  assert (Hs : contains html ENTRY_START = true)
    by (unfold contains; by apply Z.leb_le).
  assert (He : contains html ENTRY_END = true)
    by (unfold contains; apply Z.leb_le; lia).
  destruct (contains_found _ _ Hs) as (a & b0 & Ha & Hfa & Hna).
  destruct (contains_found _ _ He) as (a' & b & Ha' & Hfa' & Hna').
  rewrite Hfa, Hfa', <- Nat2Z.inj_add, <- length_app in Hle.
  apply Nat2Z.inj_le in Hle.
  assert (Heq : (a ++ ENTRY_START) ++ b0 = a' ++ ENTRY_END ++ b)
    by (by rewrite <- app_assoc, <- Ha).
  destruct (app_split_prefix _ _ _ _ Heq Hle) as (content & Hc & Hb0).
  exists a, content, b.
  assert (Hhtml : html = a ++ ENTRY_START ++ content ++ ENTRY_END ++ b).
  { rewrite Ha, Hb0. done. }
  split; [done|]. split; [done|]. split.
  { rewrite Hfa'. by rewrite Hc, <- app_assoc. }
  split.
  - rewrite <- Hb0. by apply (found_absent html).
  - rewrite (app_assoc a), <- Hc. by apply (found_absent html).
Qed.

Lemma parse_shape html a content b :
  html = a ++ ENTRY_START ++ content ++ ENTRY_END ++ b ->
  find html ENTRY_START = Z.of_nat (length a) ->
  find html ENTRY_END = Z.of_nat (length (a ++ ENTRY_START ++ content)) ->
  parse_existing_entries html
  = fold_left (fun entries m =>
                 <[group m 1 := Info (strip (group m 2))]> entries)
      (finditer card_pattern content) ∅.
Proof.
  intros Hhtml Hs He. unfold parse_existing_entries.
  rewrite Hs, He.
  destruct (Z.eqb_spec (Z.of_nat (length a)) (-1)); [lia|].
  destruct (Z.eqb_spec (Z.of_nat (length (a ++ ENTRY_START ++ content)))
              (-1)); [lia|].
  cbn [orb]. rewrite <- Nat2Z.inj_add, <- length_app.
  rewrite Hhtml at 1.
  rewrite (app_assoc a ENTRY_START content), (app_assoc a ENTRY_START).
  by rewrite slice_app.
Qed.


(** Where [find] locates the text, it does not occur earlier. *)
Lemma find_absent s sub a b :
  s = a ++ sub ++ b -> find s sub = Z.of_nat (length a) ->
  absent sub a (sub ++ b).
Proof.
  intros Hs Hf. pose proof (find_spec s sub) as H. rewrite Hf in H.
  inversion H as [a' b' Ha' Hno Hlen|Hno Hlen]; [|lia].
  apply Nat2Z.inj in Hlen.
  assert (a' = a) as ->.
  { rewrite Hs in Ha'. by apply app_inj_1 in Ha' as [? _]. }
  by apply (found_absent s).
Qed.

(** No occurrence of the text starts before the place [find] returns. *)
Lemma find_le_occurrence s sub x y :
  s = x ++ sub ++ y -> (find s sub <= Z.of_nat (length x))%Z.
Proof.
  intros Hs. destruct (find_spec s sub) as [a b Ha Hno|Hno]; [|lia].
  destruct (Nat.le_gt_cases (length a) (length x)) as [|Hlt]; [lia|].
  specialize (Hno (length x) Hlt). rewrite Hs in Hno.
  by rewrite drop_app_length, starts_with_app in Hno.
Qed.

(** Whether the text occurs from a place before one of its occurrences
    does not depend on what follows that occurrence. *)
Lemma absent_same_start P s t t' : absent P s (P ++ t) -> absent P s (P ++ t').
Proof.
  intros Hab x y Heq.
  destruct (Nat.le_gt_cases (length s) (length x)) as [|Hgt]; [done|].
  exfalso.
  assert (Heq' : (x ++ P) ++ y = (s ++ P) ++ t')
    by (by rewrite <- !app_assoc).
  destruct (app_split_prefix _ _ _ _ Heq') as (m & Hm & _).
  { rewrite !length_app. lia. }
  specialize (Hab x (m ++ t)).
  rewrite (app_assoc s), Hm, <- !app_assoc in Hab.
  specialize (Hab eq_refl). lia.
Qed.

Lemma no_cr_START : no_cr ENTRY_START = true.
Proof. vm_compute. reflexivity. Qed.

Lemma no_cr_END : no_cr ENTRY_END = true.
Proof. vm_compute. reflexivity. Qed.

Lemma END_no_newline :
  forallb (fun c => negb (c =? 10)%N) ENTRY_END = true.
Proof. vm_compute. reflexivity. Qed.

(** The text read from an index file whose text outside the region holds
    no carriage return, and where its markers are found. *)
Lemma read_markers (before between after : str) :
  let raw := before ++ ENTRY_START ++ between ++ ENTRY_END ++ after in
  let html :=
    before ++ ENTRY_START ++ universal_newlines between
      ++ ENTRY_END ++ after in
  find raw ENTRY_START = Z.of_nat (length before) ->
  find raw ENTRY_END
  = Z.of_nat (length (before ++ ENTRY_START ++ between)) ->
  no_cr before = true -> no_cr after = true ->
  universal_newlines raw = html
  /\ find html ENTRY_START = Z.of_nat (length before)
  /\ find html ENTRY_END
     = Z.of_nat (length (before ++ ENTRY_START
                           ++ universal_newlines between)).
Proof.
  intros raw html Hfs Hfe Hb Ha.
  assert (Hread : universal_newlines raw = html).
  { subst raw html.
    rewrite (universal_newlines_app_no_cr before) by done.
    rewrite (universal_newlines_app_no_cr ENTRY_START) by apply no_cr_START.
    rewrite (universal_newlines_app between)
      by (by rewrite ENTRY_END_head).
    rewrite (universal_newlines_no_cr (ENTRY_END ++ after)); [done|].
    by rewrite no_cr_app, no_cr_END. }
  split; [done|]. split.
  - apply (absent_found html ENTRY_START before
             (universal_newlines between ++ ENTRY_END ++ after));
      [done|].
    apply (absent_same_start _ _ (between ++ ENTRY_END ++ after)).
    by apply (find_absent raw).
  - apply (absent_found html ENTRY_END _ after).
    { subst html. by rewrite <- !app_assoc. }
    intros x y Heq.
    destruct (Nat.le_gt_cases
                (length (before ++ ENTRY_START
                           ++ universal_newlines between)) (length x))
      as [|Hgt]; [done|].
    exfalso.
    assert (Hx : universal_newlines raw = x ++ ENTRY_END ++ y).
    { rewrite Hread. subst html. rewrite <- Heq. by rewrite <- !app_assoc. }
    apply universal_newlines_split in Hx as (x' & r & Hraw & Hx' & Hr).
    apply universal_newlines_split in Hr as (E & y' & -> & HE & _).
    assert (E = ENTRY_END) as ->.
    { rewrite <- HE. symmetry. apply universal_newlines_literal.
      rewrite HE. apply END_no_newline. }
    assert (Hab : absent ENTRY_END (before ++ ENTRY_START ++ between)
                    (ENTRY_END ++ after)).
    { apply (find_absent raw); [|done].
      subst raw. by rewrite <- !app_assoc. }
    assert (Hle : length (before ++ ENTRY_START ++ between) <= length x').
    { apply (Hab x' y'). rewrite <- Hraw. subst raw.
      by rewrite <- !app_assoc. }
    assert (Heq' : (before ++ ENTRY_START ++ between) ++ ENTRY_END ++ after
                   = x' ++ ENTRY_END ++ y').
    { rewrite <- Hraw. subst raw. by rewrite <- !app_assoc. }
    destruct (app_split_prefix _ _ _ _ Heq' Hle) as (z & -> & _).
    rewrite <- !app_assoc in Hx'.
    rewrite (universal_newlines_app_no_cr before) in Hx' by done.
    rewrite (universal_newlines_app_no_cr ENTRY_START) in Hx'
      by apply no_cr_START.
    pose proof (universal_newlines_length between z) as Hlen.
    rewrite <- Hx' in Hgt. rewrite !length_app in Hgt. lia.
Qed.

(** C3 (amended): for an index file whose text before its first start
    marker and after its first end marker holds no carriage return, and
    whose first start marker ends before its first end marker begins, a
    completed [update_index] leaves the text through the start marker and
    the text from the end marker on as they were; only the text between the
    markers is replaced, and no other file changes. *)
Theorem C3_splice_preserves_outside w w' before between after
        date_str description :
  files w !! INDEX_PATH
  = Some (Text (before ++ ENTRY_START ++ between ++ ENTRY_END ++ after)) ->
  find (before ++ ENTRY_START ++ between ++ ENTRY_END ++ after) ENTRY_START
  = Z.of_nat (length before) ->
  find (before ++ ENTRY_START ++ between ++ ENTRY_END ++ after) ENTRY_END
  = Z.of_nat (length (before ++ ENTRY_START ++ between)) ->
  no_cr before = true ->
  no_cr after = true ->
  update_index date_str description w = (Return tt, w') ->
  (exists region,
      files w' !! INDEX_PATH
      = Some (Text (before ++ ENTRY_START ++ region ++ ENTRY_END ++ after)))
  /\ forall path, path <> INDEX_PATH -> files w' !! path = files w !! path.
Proof.
  intros Hf Hfs Hfe Hb Ha Hrun.
  split; [|intros path Hp; by eapply update_index_frame].
  destruct (read_markers before between after Hfs Hfe Hb Ha)
    as (Hread & Hs & He).
  apply update_index_return in Hrun
    as (raw & html & entries & g & Hf' & -> & _ & _ & _ & _ & _ & _ & ->).
  assert (raw = before ++ ENTRY_START ++ between ++ ENTRY_END ++ after)
    as -> by congruence.
  exists (g ++ [10; 32; 32]%N). cbn [files]. rewrite lookup_insert_eq.
  do 2 f_equal. unfold new_html. rewrite Hread, Hs, He.
  rewrite <- Nat2Z.inj_add, <- length_app.
  rewrite (app_assoc before ENTRY_START) at 1. rewrite slice_to_app.
  replace (before ++ ENTRY_START ++ universal_newlines between
             ++ ENTRY_END ++ after)
    with ((before ++ ENTRY_START ++ universal_newlines between)
            ++ ENTRY_END ++ after) by (by rewrite <- !app_assoc).
  rewrite slice_from_app. by rewrite <- !app_assoc.
Qed.


(** *** The entries recovered from a document *)

Lemma fold_entries_inv (P : str -> info -> Prop) (l : list match_obj)
      (e0 : gmap str info) :
  (forall k i, e0 !! k = Some i -> P k i) ->
  (forall m, m ∈ l -> P (group m 1) (Info (strip (group m 2)))) ->
  forall k i,
    fold_left (fun entries m =>
                 <[group m 1 := Info (strip (group m 2))]> entries) l e0
      !! k = Some i ->
    P k i.
Proof.
  revert e0; induction l as [|m l IH]; intros e0 H0 Hl k i; simpl; [apply H0|].
  apply IH.
  - intros k' i'. rewrite lookup_insert. case_decide as Hk.
    + intros [= <-]. subst k'. apply Hl. by left.
    + apply H0.
  - intros m' Hm'. apply Hl. by right.
Qed.

Lemma match_groups (m : match_obj) (d M : str) :
  groups m = [(2, M); (1, d)] -> group m 1 = d /\ group m 2 = M.
Proof. unfold group. by intros ->. Qed.

(** Every date recovered from a document has the form of a card date. *)
Lemma parsed_keys html k i :
  parse_existing_entries html !! k = Some i -> is_card_date k = true.
Proof.
  unfold parse_existing_entries. destruct (_ || _); [done|].
  apply (fold_entries_inv (fun k _ => is_card_date k = true)); [done|].
  intros m Hm. apply finditer_scan_sound in Hm as (p & t & _ & Hm).
  apply card_match_inv in Hm as (d & M & pre & q & _ & Hg & Hd & _).
  by destruct (match_groups m d M Hg) as [-> _].
Qed.

Lemma parsed_good html a content b :
  html = a ++ ENTRY_START ++ content ++ ENTRY_END ++ b ->
  find html ENTRY_START = Z.of_nat (length a) ->
  find html ENTRY_END = Z.of_nat (length (a ++ ENTRY_START ++ content)) ->
  absent ENTRY_END (a ++ ENTRY_START ++ content) (ENTRY_END ++ b) ->
  forall k i,
    parse_existing_entries html !! k = Some i ->
    is_card_date k = true /\ stable (description i)
    /\ strip (description i) = description i
    /\ ~ occurs ENTRY_END (description i).
Proof.
  intros Hhtml Hs He Hab.
  rewrite (parse_shape html a content b Hhtml Hs He).
  apply (fold_entries_inv
           (fun k i => is_card_date k = true /\ stable (description i)
                       /\ strip (description i) = description i
                       /\ ~ occurs ENTRY_END (description i))); [done|].
  intros m Hm. apply finditer_scan_sound in Hm as (p & t & Hc & Hm).
  apply card_match_inv in Hm as (d & M & pre & q & Ht & Hg & Hd & Hmin & _).
  destruct (match_groups m d M Hg) as [-> ->]. cbn [description].
  split; [done|]. split; [by eapply stable_of_minimal|].
  split; [apply strip_idem|].
  intros Hocc. destruct (strip_decomp M) as (l & r & HM).
  assert (Hcontent : occurs ENTRY_END content).
  { rewrite Hc, Ht, HM.
    rewrite <- !app_assoc, (app_assoc p), (app_assoc _ l).
    by apply occurs_infix. }
  destruct Hcontent as (x & y & ->).
  assert (Heq : (a ++ ENTRY_START ++ x ++ ENTRY_END ++ y) ++ ENTRY_END ++ b
                = (a ++ ENTRY_START ++ x) ++ ENTRY_END ++ y ++ ENTRY_END ++ b)
    by (by rewrite <- !app_assoc).
  specialize (Hab _ _ Heq). rewrite !length_app in Hab.
  assert (0 < length ENTRY_END) by (vm_compute; lia).
  lia.
Qed.


(** The dates and descriptions recovered from a document are made of
    its characters. *)
Lemma parsed_forallb (p : N -> bool) html k i :
  forallb p html = true ->
  parse_existing_entries html !! k = Some i ->
  forallb p k = true /\ forallb p (description i) = true.
Proof.
  intros Hp. unfold parse_existing_entries. destruct (_ || _); [done|].
  revert k i.
  apply (fold_entries_inv
           (fun k i => forallb p k = true
                       /\ forallb p (description i) = true)); [done|].
  intros m Hm. apply finditer_scan_sound in Hm as (pre0 & t & Hc & Hm).
  assert (Ht : forallb p t = true).
  { assert (Hcont : forallb p (pre0 ++ t) = true).
    { rewrite <- Hc. unfold slice.
      set (hi := clamp_index html (find html ENTRY_END)).
      set (lo := clamp_index html _).
      pose proof Hp as Hp'.
      rewrite <- (take_drop lo html), forallb_app in Hp'.
      apply andb_prop in Hp' as [_ Hp'].
      rewrite <- (take_drop (hi - lo) (drop lo html)), forallb_app in Hp'.
      by apply andb_prop in Hp' as [Hp' _]. }
    rewrite forallb_app in Hcont. by apply andb_prop in Hcont as [_ ?]. }
  apply card_match_inv in Hm
    as (d & M & pre & q & HtM & Hg & _ & _ & _ & (x & y & Hd)).
  destruct (match_groups m d M Hg) as [-> ->]. cbn [description]. split.
  - rewrite Hd, !forallb_app in Ht.
    apply andb_prop in Ht as [_ Ht]. by apply andb_prop in Ht as [? _].
  - apply forallb_strip. rewrite HtM, !forallb_app in Ht.
    apply andb_prop in Ht as [_ Ht]. by apply andb_prop in Ht as [? _].
Qed.


(** *** The round trip *)

Lemma fold_entries_map (l : list match_obj) (e0 : gmap str info) :
  fold_left (fun entries m =>
               <[group m 1 := Info (strip (group m 2))]> entries) l e0
  = fold_left (fun entries (p : str * info) => <[p.1 := p.2]> entries)
      (List.map entry_of l) e0.
Proof. revert e0; induction l as [|m l IH]; intros e0; simpl; [done|apply IH]. Qed.

Lemma fold_pairs_lookup (f : str -> info) (l : list str)
      (e0 : gmap str info) x :
  fold_left (fun entries (p : str * info) => <[p.1 := p.2]> entries)
    (List.map (fun k => (k, f k)) l) e0 !! x
  = if decide (x ∈ l) then Some (f x) else e0 !! x.
Proof.
  revert e0; induction l as [|k l IH]; intros e0; cbn [List.map fold_left].
  - destruct (decide (x ∈ [])) as [Hin|_]; [|done].
    by apply elem_of_nil in Hin.
  - rewrite IH. cbn [fst snd].
    destruct (decide (x ∈ l)) as [Hin|Hnin].
    + rewrite decide_True; [done|]. by right.
    + destruct (decide (x = k)) as [->|Hne].
      * rewrite decide_True by (by left). apply lookup_insert_eq.
      * rewrite decide_False.
        -- by rewrite lookup_insert_ne.
        -- intros Hc. apply elem_of_cons in Hc as [?|?]; done.
Qed.

Lemma fold_sorted_entries (entries : gmap str info) :
  fold_left (fun e (p : str * info) => <[p.1 := p.2]> e)
    (List.map (fun k => (k, Info (desc_of entries k)))
       (sorted_desc (map_to_list entries).*1)) ∅
  = entries.
Proof.
  apply map_eq. intros x. rewrite fold_pairs_lookup.
  destruct (decide _) as [Hin|Hnin].
  - apply elem_of_sorted_dates in Hin as [i Hi].
    unfold desc_of. rewrite Hi. by destruct i.
  - rewrite lookup_empty. symmetry. apply eq_None_not_Some.
    intros Hs. by apply Hnin, elem_of_sorted_dates.
Qed.

Lemma generate_nonempty (entries : gmap str info) g :
  entries <> ∅ -> generate_entries_html entries = Some g ->
  exists lines,
    entries_lines entries (sorted_desc (map_to_list entries).*1) None
    = Some lines
    /\ flat lines = [10%N] ++ g /\ head g = Some 10%N.
Proof.
  intros Hne. unfold generate_entries_html. rewrite decide_False by done.
  destruct (entries_lines _ _ _) as [lines|] eqn:E; [|done].
  intros [= <-]. exists lines. split; [done|].
  destruct (sorted_desc _) as [|k dates] eqn:Hd.
  { exfalso. apply Hne, map_empty. intros x. apply eq_None_not_Some.
    intros Hx. apply elem_of_sorted_dates in Hx. rewrite Hd in Hx.
    by apply elem_of_nil in Hx. }
  apply entries_lines_cons in E as (o & rest & _ & _ & ->).
  rewrite decide_False by done. cbn [app].
  rewrite join_flat, flat_cons. by split.
Qed.

Lemma END_tail_no_newline :
  forallb (fun c => negb (c =? 10)%N) (tail ENTRY_END) = true.
Proof. vm_compute. reflexivity. Qed.

(** A document whose region was generated from [entries] gives
    [entries] back. *)
Lemma roundtrip_text (a content b : str) (entries : gmap str info)
      (g : str) :
  absent ENTRY_START a (ENTRY_START ++ content ++ ENTRY_END ++ b) ->
  absent ENTRY_END (a ++ ENTRY_START ++ content) (ENTRY_END ++ b) ->
  entries <> ∅ ->
  (forall k, is_Some (entries !! k) -> good entries k) ->
  generate_entries_html entries = Some g ->
  parse_existing_entries
    ((a ++ ENTRY_START) ++ g ++ [10; 32; 32]%N ++ ENTRY_END ++ b)
  = entries.
Proof.
  intros HabS HabE Hne Hgood Hg.
  destruct (generate_nonempty entries g Hne Hg) as (lines & Hl & Hflat & Hhead).
  set (dates := sorted_desc (map_to_list entries).*1) in *.
  assert (Hgood' : forall k, k ∈ dates -> good entries k).
  { intros k Hk. by apply Hgood, elem_of_sorted_dates. }
  set (content' := g ++ [10; 32; 32]%N).
  set (new := (a ++ ENTRY_START) ++ g ++ [10; 32; 32]%N ++ ENTRY_END ++ b).
  assert (Hnew : new = a ++ ENTRY_START ++ content' ++ ENTRY_END ++ b).
  { subst new content'. by rewrite <- !app_assoc. }
  assert (Hfs : find new ENTRY_START = Z.of_nat (length a)).
  { apply (absent_found new ENTRY_START a _ Hnew).
    eapply absent_change_tail; [exact HabS|apply ENTRY_START_tail|].
    by rewrite ENTRY_START_head. }
  assert (Hfe : find new ENTRY_END
                = Z.of_nat (length (a ++ ENTRY_START ++ content'))).
  { apply (absent_found new ENTRY_END _ b).
    { rewrite Hnew. by rewrite <- !app_assoc. }
    rewrite (app_assoc a). apply absent_app.
    - rewrite (app_assoc a) in HabE. apply absent_prefix in HabE.
      eapply absent_change_tail; [exact HabE|apply END_tail_no_newline|].
      subst content'. destruct g; [done|]. exact Hhead.
    - subst content'. apply absent_app.
      + apply (absent_tail _ 10%N). change (10%N :: g) with ([10%N] ++ g).
        rewrite <- Hflat. by eapply lines_absent_END.
      + apply absent_no_lt; [apply tag_like_END|reflexivity]. }
  rewrite (parse_shape new a content' b Hnew Hfs Hfe).
  rewrite fold_entries_map. unfold finditer.
  assert (Hscan : List.map entry_of (finditer_scan card_pattern content' 0)
                  = List.map (fun k => (k, Info (desc_of entries k))) dates).
  { pose proof (lines_finditer entries dates None lines [10; 32; 32]%N
                  Hl Hgood') as H.
    rewrite Hflat, <- app_assoc in H.
    rewrite finditer_skip in H
      by (apply absent_no_lt; [apply tag_like_OPEN|reflexivity]).
    fold content' in H. rewrite H.
    replace (finditer_scan card_pattern [10; 32; 32]%N 0) with (@nil match_obj).
    - by rewrite app_nil_r.
    - symmetry.
      change [10; 32; 32]%N with ([10; 32; 32]%N ++ []).
      rewrite finditer_skip; [done|].
      apply absent_no_lt; [apply tag_like_OPEN|reflexivity]. }
  rewrite Hscan. apply fold_sorted_entries.
Qed.


Lemma not_contains_occurs s sub : contains s sub = false -> ~ occurs sub s.
Proof.
  unfold contains. intros H (x & y & Hs). apply Z.leb_gt in H.
  destruct (find_spec s sub) as [a b _ _|Hno]; [lia|].
  specialize (Hno (length x)). rewrite Hs in Hno.
  by rewrite drop_app_length, starts_with_app in Hno.
Qed.

(** The cards found in a generated region: one for each date, in the
    order of the dates. *)
Lemma roundtrip_scan (entries : gmap str info) (g : str) :
  entries <> ∅ ->
  (forall k, is_Some (entries !! k) -> good entries k) ->
  generate_entries_html entries = Some g ->
  List.map entry_of (finditer card_pattern (g ++ [10; 32; 32]%N))
  = List.map (fun k => (k, Info (desc_of entries k)))
      (sorted_desc (map_to_list entries).*1).
Proof.
  intros Hne Hgood Hg.
  destruct (generate_nonempty entries g Hne Hg) as (lines & Hl & Hflat & Hhead).
  set (dates := sorted_desc (map_to_list entries).*1) in *.
  assert (Hgood' : forall k, k ∈ dates -> good entries k).
  { intros k Hk. by apply Hgood, elem_of_sorted_dates. }
  pose proof (lines_finditer entries dates None lines [10; 32; 32]%N
                Hl Hgood') as H.
  rewrite Hflat, <- app_assoc in H.
  rewrite finditer_skip in H
    by (apply absent_no_lt; [apply tag_like_OPEN|reflexivity]).
  unfold finditer. rewrite H.
  replace (finditer_scan card_pattern [10; 32; 32]%N 0) with (@nil match_obj).
  - by rewrite app_nil_r.
  - symmetry.
    change [10; 32; 32]%N with ([10; 32; 32]%N ++ []).
    rewrite finditer_skip; [done|].
    apply absent_no_lt; [apply tag_like_OPEN|reflexivity].
Qed.

(** Where the markers are found in a document whose region was
    generated. *)
Lemma generated_markers (a content b : str) (entries : gmap str info)
      (g : str) :
  absent ENTRY_START a (ENTRY_START ++ content ++ ENTRY_END ++ b) ->
  absent ENTRY_END (a ++ ENTRY_START ++ content) (ENTRY_END ++ b) ->
  entries <> ∅ ->
  (forall k, is_Some (entries !! k) -> good entries k) ->
  generate_entries_html entries = Some g ->
  find ((a ++ ENTRY_START) ++ g ++ [10; 32; 32]%N ++ ENTRY_END ++ b)
    ENTRY_START = Z.of_nat (length a)
  /\ find ((a ++ ENTRY_START) ++ g ++ [10; 32; 32]%N ++ ENTRY_END ++ b)
       ENTRY_END
     = Z.of_nat (length ((a ++ ENTRY_START) ++ g ++ [10; 32; 32]%N)).
Proof.
  intros HabS HabE Hne Hgood Hg.
  destruct (generate_nonempty entries g Hne Hg) as (lines & Hl & Hflat & Hhead).
  assert (Hgood' : forall k, k ∈ sorted_desc (map_to_list entries).*1 ->
                             good entries k).
  { intros k Hk. by apply Hgood, elem_of_sorted_dates. }
  set (new := (a ++ ENTRY_START) ++ g ++ [10; 32; 32]%N ++ ENTRY_END ++ b).
  split.
  - apply (absent_found new ENTRY_START a
             (g ++ [10; 32; 32]%N ++ ENTRY_END ++ b)).
    { subst new. by rewrite <- !app_assoc. }
    eapply absent_change_tail; [exact HabS|apply ENTRY_START_tail|].
    by rewrite ENTRY_START_head.
  - apply (absent_found new ENTRY_END _ b).
    { subst new. by rewrite <- !app_assoc. }
    apply absent_app.
    + rewrite (app_assoc a) in HabE. apply absent_prefix in HabE.
      eapply absent_change_tail; [exact HabE|apply END_tail_no_newline|].
      destruct g; [done|]. exact Hhead.
    + apply absent_app.
      * apply (absent_tail _ 10%N). change (10%N :: g) with ([10%N] ++ g).
        rewrite <- Hflat. by eapply lines_absent_END.
      * apply absent_no_lt; [apply tag_like_END|reflexivity].
Qed.

(** The text [update_index] writes into a document with its markers at
    [a] and [b]. *)
Lemma new_html_shape (a content b g : str) :
  let html := a ++ ENTRY_START ++ content ++ ENTRY_END ++ b in
  find html ENTRY_START = Z.of_nat (length a) ->
  find html ENTRY_END = Z.of_nat (length (a ++ ENTRY_START ++ content)) ->
  new_html html g
  = (a ++ ENTRY_START) ++ g ++ [10; 32; 32]%N ++ ENTRY_END ++ b.
Proof.
  intros html Hfs Hfe. unfold new_html. rewrite Hfs, Hfe.
  rewrite <- Nat2Z.inj_add, <- length_app. subst html.
  rewrite (app_assoc a ENTRY_START) at 1. rewrite slice_to_app.
  replace (a ++ ENTRY_START ++ content ++ ENTRY_END ++ b)
    with ((a ++ ENTRY_START ++ content) ++ ENTRY_END ++ b)
    by (by rewrite <- !app_assoc).
  by rewrite slice_from_app.
Qed.


(** *** Reading the index file back *)

Lemma sorted_as_read (entries : gmap str info) :
  sorted_desc (map_to_list (as_read entries)).*1
  = sorted_desc (map_to_list entries).*1.
Proof.
  unfold as_read. rewrite map_to_list_fmap. f_equal.
  induction (map_to_list entries) as [|[k i] l IH]; [done|].
  cbn. by rewrite IH.
Qed.

Lemma desc_of_as_read entries k :
  desc_of (as_read entries) k = universal_newlines (desc_of entries k).
Proof.
  unfold desc_of, as_read. rewrite lookup_fmap.
  destruct (entries !! k) as [i|]; [done|].
  cbn [fmap option_fmap option_map]. symmetry. vm_compute. reflexivity.
Qed.

(** A card is read as the card of the description read. *)
Lemma universal_newlines_card d o desc tail :
  no_cr d = true ->
  universal_newlines (generate_card d o desc ++ tail)
  = generate_card d o (universal_newlines desc) ++ universal_newlines tail.
Proof.
  intros Hd. unfold generate_card. rewrite <- !app_assoc.
  repeat first
    [ rewrite (universal_newlines_app_no_cr (uq _)) by reflexivity
    | rewrite (universal_newlines_app_no_cr (u _)) by reflexivity
    | rewrite (universal_newlines_app_no_cr [10%N]) by reflexivity
    | rewrite (universal_newlines_app_no_cr d) by done
    | rewrite (universal_newlines_app_no_cr (format_date_display o))
        by apply is_plain_no_cr, is_plain_date_display ].
  rewrite (universal_newlines_app desc)
    by (change (u "</p>") with (60%N :: u "/p>"); discriminate).
  repeat first
    [ rewrite (universal_newlines_app_no_cr (u _)) by reflexivity
    | rewrite (universal_newlines_app_no_cr [10%N]) by reflexivity ].
  reflexivity.
Qed.

(** The lines generated from the entries are read as the lines generated
    from the entries as read. *)
Lemma universal_newlines_lines entries dates :
  forall cur lines tail,
    entries_lines entries dates cur = Some lines ->
    (forall k, k ∈ dates -> no_cr k = true) ->
    exists lines',
      entries_lines (as_read entries) dates cur = Some lines'
      /\ universal_newlines (flat lines ++ tail)
         = flat lines' ++ universal_newlines tail.
Proof.
  induction dates as [|k dates IH]; intros cur lines tail Hl Hk.
  - injection Hl as <-. by exists [].
  - apply entries_lines_cons in Hl as (o & rest & Ho & Hrest & ->).
    destruct (IH _ _ tail Hrest) as (rest' & Hrest' & Hnl).
    { intros k' Hk'. apply Hk. by right. }
    exists ((if decide (Some (year o, month o) = cur) then []
             else [month_header_line o])
              ++ [[]; generate_card k o (desc_of (as_read entries) k)]
              ++ rest').
    split.
    { cbn [entries_lines]. by rewrite Ho, Hrest'. }
    rewrite !flat_app, !flat_card, <- !app_assoc.
    assert (Hh : no_cr (flat (if decide (Some (year o, month o) = cur)
                              then [] else [month_header_line o])) = true).
    { destruct (decide _); [done|].
      rewrite flat_single, no_cr_app, no_cr_month_header. done. }
    rewrite (universal_newlines_app_no_cr _ _ Hh).
    rewrite (universal_newlines_app_no_cr [10; 10]%N) by reflexivity.
    rewrite universal_newlines_card by (apply Hk; by left).
    by rewrite Hnl, desc_of_as_read.
Qed.

(** The region generated from the entries is read as the region
    generated from the entries as read. *)
Lemma generate_as_read (entries : gmap str info) g :
  generate_entries_html entries = Some g ->
  (forall k, is_Some (entries !! k) -> no_cr k = true) ->
  exists g',
    generate_entries_html (as_read entries) = Some g'
    /\ forall tail,
        universal_newlines (g ++ tail) = g' ++ universal_newlines tail.
Proof.
  intros Hg Hk.
  destruct (decide (entries = ∅)) as [->|Hne].
  { injection Hg as <-. exists []. split; [|done].
    unfold as_read. by rewrite fmap_empty. }
  destruct (generate_nonempty entries g Hne Hg) as (lines & Hl & Hflat & _).
  assert (Hne' : as_read entries <> ∅).
  { unfold as_read. intros He. by apply fmap_empty_inv in He. }
  assert (Hlines : exists lines',
             entries_lines (as_read entries)
               (sorted_desc (map_to_list (as_read entries)).*1) None
             = Some lines'
             /\ forall tail,
                 universal_newlines (flat lines ++ tail)
                 = flat lines' ++ universal_newlines tail).
  { rewrite sorted_as_read.
    destruct (universal_newlines_lines entries _ None lines [] Hl)
      as (lines' & Hl' & _).
    { intros k Hin. by apply Hk, elem_of_sorted_dates. }
    exists lines'. split; [done|]. intros tail.
    destruct (universal_newlines_lines entries _ None lines tail Hl)
      as (lines'' & Hl'' & Hnl).
    { intros k Hin. by apply Hk, elem_of_sorted_dates. }
    congruence. }
  destruct Hlines as (lines' & Hl' & Hnl).
  exists (join [10%N] lines').
  assert (Hg' : generate_entries_html (as_read entries)
                = Some (join [10%N] lines')).
  { unfold generate_entries_html. rewrite decide_False by done.
    by rewrite Hl'. }
  split; [done|].
  destruct (generate_nonempty _ _ Hne' Hg') as (lines'' & Hl'' & Hflat' & _).
  assert (lines'' = lines') as -> by congruence.
  intros tail. specialize (Hnl tail). rewrite Hflat, Hflat' in Hnl.
  cbn [app] in Hnl. rewrite universal_newlines_keep in Hnl by done.
  by injection Hnl.
Qed.

(** The entries of a document without carriage returns are read as they
    are. *)
Lemma as_read_parsed html :
  no_cr html = true ->
  as_read (parse_existing_entries html) = parse_existing_entries html.
Proof.
  intros Hh. apply map_eq. intros k. unfold as_read. rewrite lookup_fmap.
  destruct (parse_existing_entries html !! k) as [i|] eqn:E; [|done].
  destruct (parsed_forallb _ html k i Hh E) as [_ Hi].
  cbn [fmap option_fmap option_map]. rewrite universal_newlines_no_cr by done.
  by destruct i.
Qed.

Lemma no_cr_card_date d : is_card_date d = true -> no_cr d = true.
Proof.
  intros H. unfold is_card_date in H.
  do 10 (destruct d as [|? d]; [done|]). destruct d; [|done].
  repeat match goal with
         | H : _ && _ = true |- _ => apply andb_prop in H as [H ?]
         end.
  repeat match goal with
         | H : (_ =? 45)%N = true |- _ => apply N.eqb_eq in H as ->
         end.
  cbn [no_cr forallb].
  repeat match goal with
         | H : isdecimal ?c = true |- _ =>
             assert (negb (c =? 13)%N = true)
               by (destruct (N.eqb_spec c 13) as [->|];
                   [by rewrite isdecimal_ascii in H|done]);
             clear H
         end.
  repeat match goal with
         | H : negb _ = true |- _ => rewrite H; clear H
         end.
  reflexivity.
Qed.

(** What the first of two runs of [update_index] leaves: the text it
    wrote, and the text, the markers and the entries the next run reads. *)
Lemma first_run w w1 raw date_str desc :
  files w !! INDEX_PATH = Some (Text raw) ->
  (0 <= find (universal_newlines raw) ENTRY_START)%Z ->
  (find (universal_newlines raw) ENTRY_START + Z.of_nat (length ENTRY_START)
   <= find (universal_newlines raw) ENTRY_END)%Z ->
  is_card_date date_str = true ->
  strip desc = desc ->
  no_card_end desc = true ->
  contains desc ENTRY_END = false ->
  update_index date_str desc w = (Return tt, w1) ->
  exists a content b g g',
    universal_newlines raw = a ++ ENTRY_START ++ content ++ ENTRY_END ++ b
    /\ absent ENTRY_START a (ENTRY_START ++ content ++ ENTRY_END ++ b)
    /\ absent ENTRY_END (a ++ ENTRY_START ++ content) (ENTRY_END ++ b)
    /\ (forall g2,
           new_html (universal_newlines raw) g2
           = (a ++ ENTRY_START) ++ g2 ++ [10; 32; 32]%N ++ ENTRY_END ++ b)
    /\ generate_entries_html
         (merge_entry (parse_existing_entries (universal_newlines raw))
            date_str desc) = Some g
    /\ writable ((a ++ ENTRY_START) ++ g ++ [10; 32; 32]%N ++ ENTRY_END ++ b)
       = true
    /\ printable INDEX_PATH = true
    /\ w1 = World
              (<[INDEX_PATH :=
                   Text ((a ++ ENTRY_START) ++ g ++ [10; 32; 32]%N
                           ++ ENTRY_END ++ b)]> (files w))
              (stdout w
                 ++ [updated_line
                       (size (merge_entry
                                (parse_existing_entries
                                   (universal_newlines raw))
                                date_str desc))])
    /\ generate_entries_html
         (merge_entry (parse_existing_entries (universal_newlines raw))
            date_str (universal_newlines desc)) = Some g'
    /\ universal_newlines
         ((a ++ ENTRY_START) ++ g ++ [10; 32; 32]%N ++ ENTRY_END ++ b)
       = (a ++ ENTRY_START) ++ g' ++ [10; 32; 32]%N ++ ENTRY_END ++ b
    /\ merge_entry (parse_existing_entries (universal_newlines raw))
         date_str (universal_newlines desc) <> ∅
    /\ (forall k,
           is_Some (merge_entry
                      (parse_existing_entries (universal_newlines raw))
                      date_str (universal_newlines desc) !! k) ->
           good (merge_entry
                   (parse_existing_entries (universal_newlines raw))
                   date_str (universal_newlines desc)) k)
    /\ (forall k,
           is_Some (merge_entry
                      (parse_existing_entries (universal_newlines raw))
                      date_str desc !! k) ->
           good (merge_entry
                   (parse_existing_entries (universal_newlines raw))
                   date_str desc) k).
Proof.
  intros Hf H0 Hord Hdate Hstrip Hclose Hend Hrun.
  set (html := universal_newlines raw) in *.
  destruct (ordered_markers html H0 Hord)
    as (a & content & b & Hhtml & Hfs & Hfe & HabS & HabE).
  apply update_index_return in Hrun
    as (raw' & html' & entries & g & Hf' & -> & -> & _ & _ & Hg & Hw & Hp
        & ->).
  assert (raw' = raw) as -> by congruence. fold html in Hg, Hw |- *.
  assert (Hnew : forall g2,
             new_html html g2
             = (a ++ ENTRY_START) ++ g2 ++ [10; 32; 32]%N ++ ENTRY_END ++ b).
  { intros g2. rewrite Hhtml in Hfs, Hfe |- *. by apply new_html_shape. }
  assert (Hcr : no_cr html = true) by apply no_cr_universal_newlines.
  assert (Hcra : no_cr (a ++ ENTRY_START) = true
                 /\ no_cr ([10; 32; 32]%N ++ ENTRY_END ++ b) = true).
  { rewrite Hhtml, !no_cr_app in Hcr.
    apply andb_prop in Hcr as [Ha Hcr]. apply andb_prop in Hcr as [_ Hcr].
    apply andb_prop in Hcr as [_ Hcr]. apply andb_prop in Hcr as [_ Hb].
    by rewrite !no_cr_app, Ha, Hb, no_cr_START, no_cr_END. }
  destruct Hcra as [Hcra Hcrb].
  set (E0 := parse_existing_entries html) in *.
  assert (Hparsed : forall k i, E0 !! k = Some i ->
             is_card_date k = true /\ stable (description i)
             /\ strip (description i) = description i
             /\ ~ occurs ENTRY_END (description i))
    by apply (parsed_good html a content b Hhtml Hfs Hfe HabE).
  assert (Hgood : forall D,
             stable D -> strip D = D -> ~ occurs ENTRY_END D ->
             forall k, is_Some (merge_entry E0 date_str D !! k) ->
                       good (merge_entry E0 date_str D) k).
  { intros D HD1 HD2 HD3 k Hk. unfold good, desc_of, merge_entry in *.
    destruct (decide (k = date_str)) as [->|Hne].
    - rewrite lookup_insert_eq. by cbn [description].
    - rewrite lookup_insert_ne in Hk |- * by done.
      destruct Hk as [i Hi]. rewrite Hi. by apply Hparsed. }
  assert (Hkeys : forall k,
             is_Some (merge_entry E0 date_str desc !! k) ->
             no_cr k = true).
  { intros k Hk. apply no_cr_card_date. unfold merge_entry in Hk.
    destruct (decide (k = date_str)) as [->|Hne]; [done|].
    rewrite lookup_insert_ne in Hk by done.
    destruct Hk as [i Hi]. by apply (Hparsed k i). }
  destruct (generate_as_read _ g Hg Hkeys) as (g' & Hg' & Hnl).
  assert (Hread : as_read (merge_entry E0 date_str desc)
                  = merge_entry E0 date_str (universal_newlines desc)).
  { unfold merge_entry, as_read. rewrite fmap_insert. cbn [description].
    f_equal. by apply as_read_parsed. }
  rewrite Hread in Hg'.
  exists a, content, b, g, g'.
  split; [done|]. split; [done|]. split; [done|]. split; [done|].
  split; [done|]. split; [by rewrite <- Hnew|]. split; [done|].
  split; [by rewrite Hnew|]. split; [done|]. split.
  { rewrite (universal_newlines_app_no_cr _ _ Hcra), Hnl.
    by rewrite (universal_newlines_no_cr _ Hcrb). }
  split; [apply insert_non_empty|]. split.
  - apply Hgood.
    + by apply stable_universal_newlines.
    + by apply strip_universal_newlines.
    + intros Hocc. apply occurs_universal_newlines in Hocc.
      * by apply not_contains_occurs in Hend.
      * apply END_no_newline.
  - apply Hgood; [by apply no_card_end_stable|done|].
    by apply not_contains_occurs.
Qed.

(** The entries read from an updated index, for a description that fits
    a card. *)
Lemma update_index_reads_back w w' raw date_str description :
  files w !! INDEX_PATH = Some (Text raw) ->
  (0 <= find (universal_newlines raw) ENTRY_START)%Z ->
  (find (universal_newlines raw) ENTRY_START + Z.of_nat (length ENTRY_START)
   <= find (universal_newlines raw) ENTRY_END)%Z ->
  is_card_date date_str = true ->
  strip description = description ->
  no_card_end description = true ->
  contains description ENTRY_END = false ->
  update_index date_str description w = (Return tt, w') ->
  exists new,
    read_file INDEX_PATH w' = (Return new, w')
    /\ parse_existing_entries new
       = <[date_str := Info (universal_newlines description)]>
           (parse_existing_entries (universal_newlines raw)).
Proof.
  intros Hf H0 Hord Hdate Hstrip Hclose Hend Hrun.
  destruct (first_run w w' raw date_str description
              Hf H0 Hord Hdate Hstrip Hclose Hend Hrun)
    as (a & content & b & g & g' & Hhtml & HabS & HabE & _ & _ & _ & _ & ->
        & Hg' & Hread & Hne & Hgood & _).
  eexists. split.
  { unfold read_file. cbn [files]. rewrite lookup_insert_eq, Hread.
    reflexivity. }
  by apply (roundtrip_text a content b).
Qed.

(** C1 (amended): for an index document whose start marker ends before
    its end marker begins, a target date of the form of a card date and a
    description that is stripped and holds neither the end of a card nor
    the end marker, a completed [update_index] leaves an index file from
    which exactly the prior entries are read, with the target date's entry
    inserted or replaced; its description is the one given, with its
    carriage returns read as line feeds where it holds some. *)
Theorem C1_update_index_roundtrip w w' raw date_str description :
  files w !! INDEX_PATH = Some (Text raw) ->
  (0 <= find (universal_newlines raw) ENTRY_START)%Z ->
  (find (universal_newlines raw) ENTRY_START + Z.of_nat (length ENTRY_START)
   <= find (universal_newlines raw) ENTRY_END)%Z ->
  is_card_date date_str = true ->
  strip description = description ->
  no_card_end description = true ->
  contains description ENTRY_END = false ->
  update_index date_str description w = (Return tt, w') ->
  exists new,
    read_file INDEX_PATH w' = (Return new, w')
    /\ parse_existing_entries new
       = <[date_str := Info (universal_newlines description)]>
           (parse_existing_entries (universal_newlines raw))
    /\ (no_cr description = true ->
        parse_existing_entries new
        = <[date_str := Info description]>
            (parse_existing_entries (universal_newlines raw))).
Proof.
  intros Hf H0 Hord Hdate Hstrip Hclose Hend Hrun.
  destruct (update_index_reads_back w w' raw date_str description
              Hf H0 Hord Hdate Hstrip Hclose Hend Hrun) as (new & Hr & Hp).
  exists new. split; [done|]. split; [done|].
  intros Hcr. by rewrite Hp, (universal_newlines_no_cr _ Hcr).
Qed.

Lemma count_fmap_NoDup {A} (f : A -> str) (l : list A) d :
  NoDup (f <$> l) -> d ∈ f <$> l ->
  length (filter (fun k => k = d) (f <$> l)) = 1.
Proof. apply count_NoDup. Qed.

(** C5: merging a date twice leaves one entry under it, holding the
    second description, and the first merge leaves no trace; so it is
    through [update_index]: after two completed runs for the same date, the
    index file is the one the second run alone would have written, it
    holds one card for the date, and the entries recovered from it are the
    prior ones with the date mapped to the second description. *)
Theorem C5_merge_twice_second_wins (entries : gmap str info)
        (date_str description1 description2 : str) w w1 w2 raw :
  let merged :=
    merge_entry (merge_entry entries date_str description1)
      date_str description2 in
  (merged !! date_str = Some (Info description2)
   /\ length (filter (fun k => k = date_str)
                (sorted_desc (map_to_list merged).*1)) = 1
   /\ merged = merge_entry entries date_str description2
   /\ size merged = size (merge_entry entries date_str description1)
   /\ forall k, k <> date_str -> merged !! k = entries !! k)
  /\ (files w !! INDEX_PATH = Some (Text raw) ->
      (0 <= find (universal_newlines raw) ENTRY_START)%Z ->
      (find (universal_newlines raw) ENTRY_START
       + Z.of_nat (length ENTRY_START)
       <= find (universal_newlines raw) ENTRY_END)%Z ->
      is_card_date date_str = true ->
      strip description1 = description1 ->
      no_card_end description1 = true ->
      contains description1 ENTRY_END = false ->
      strip description2 = description2 ->
      no_card_end description2 = true ->
      contains description2 ENTRY_END = false ->
      update_index date_str description1 w = (Return tt, w1) ->
      update_index date_str description2 w1 = (Return tt, w2) ->
      exists new w2',
        files w2 !! INDEX_PATH = Some (Text new)
        /\ parse_existing_entries new
           = merge_entry (parse_existing_entries (universal_newlines raw))
               date_str description2
        /\ parse_existing_entries new !! date_str = Some (Info description2)
        /\ length
             (filter (fun k => k = date_str)
                (List.map (fun m => group m 1)
                   (finditer card_pattern
                      (slice new
                         (find new ENTRY_START
                          + Z.of_nat (length ENTRY_START))
                         (find new ENTRY_END))))) = 1
        /\ update_index date_str description2 w = (Return tt, w2')
        /\ files w2' = files w2).
Proof.
  intros merged. split.
  { subst merged. unfold merge_entry. rewrite insert_insert_eq.
    split; [apply lookup_insert_eq|]. split.
    { apply count_NoDup; [apply sorted_dates_NoDup|].
      apply elem_of_sorted_dates. rewrite lookup_insert_eq. by eexists. }
    split; [done|]. split.
    - destruct (entries !! date_str) as [i|] eqn:E.
      + rewrite !map_size_insert_Some; eauto.
      + by rewrite !map_size_insert_None.
    - intros k Hk. by rewrite lookup_insert_ne. }
  clear merged entries.
  intros Hf H0 Hord Hdate Hs1 Hc1 He1 Hs2 Hc2 He2 Hrun1 Hrun2.
  set (html := universal_newlines raw) in *.
  set (E0 := parse_existing_entries html) in *.
  destruct (first_run w w1 raw date_str description1
              Hf H0 Hord Hdate Hs1 Hc1 He1 Hrun1)
    as (a & content & b & g1 & g1' & Hhtml & HabS & HabE & Hnew & Hg1 & Hw1
        & Hp & -> & Hg1' & Hread & Hne1 & Hgood1 & _).
  fold html in Hhtml, Hnew, Hg1, Hg1', Hne1, Hgood1.
  fold E0 in Hg1, Hg1', Hne1, Hgood1.
  set (new1 := (a ++ ENTRY_START) ++ g1 ++ [10; 32; 32]%N ++ ENTRY_END ++ b)
    in *.
  set (html1 := (a ++ ENTRY_START) ++ g1' ++ [10; 32; 32]%N
                  ++ ENTRY_END ++ b) in *.
  (* what the second run reads *)
  assert (Hparse1 : parse_existing_entries html1
                    = merge_entry E0 date_str
                        (universal_newlines description1))
    by (by apply (roundtrip_text a content b)).
  destruct (generated_markers a content b _ g1' HabS HabE Hne1 Hgood1 Hg1')
    as [Hfs1 Hfe1].
  fold html1 in Hfs1, Hfe1.
  apply update_index_return in Hrun2
    as (raw2 & ? & ? & g2 & Hf2 & -> & -> & _ & _ & Hg2 & Hw2 & _ & ->).
  cbn [files] in Hf2. rewrite lookup_insert_eq in Hf2.
  injection Hf2 as <-. rewrite Hread in Hg2, Hw2 |- *.
  rewrite Hparse1 in Hg2 |- *.
  assert (Hm : merge_entry
                 (merge_entry E0 date_str (universal_newlines description1))
                 date_str description2
               = merge_entry E0 date_str description2).
  { unfold merge_entry. apply insert_insert_eq. }
  rewrite Hm in Hg2 |- *.
  assert (Hnew2 : new_html html1 g2
                  = (a ++ ENTRY_START) ++ g2 ++ [10; 32; 32]%N
                      ++ ENTRY_END ++ b).
  { unfold new_html. rewrite Hfs1, Hfe1.
    rewrite <- Nat2Z.inj_add, <- length_app. subst html1.
    rewrite slice_to_app.
    replace ((a ++ ENTRY_START) ++ g1' ++ [10; 32; 32]%N ++ ENTRY_END ++ b)
      with (((a ++ ENTRY_START) ++ g1' ++ [10; 32; 32]%N) ++ ENTRY_END ++ b)
      by (by rewrite <- !app_assoc).
    by rewrite slice_from_app. }
  rewrite Hnew2 in Hw2 |- *.
  set (new2 := (a ++ ENTRY_START) ++ g2 ++ [10; 32; 32]%N ++ ENTRY_END ++ b)
    in *.
  (* the entries of the second run *)
  assert (Hne2 : merge_entry E0 date_str description2 <> ∅)
    by apply insert_non_empty.
  assert (Hgood2 : forall k,
             is_Some (merge_entry E0 date_str description2 !! k) ->
             good (merge_entry E0 date_str description2) k).
  { destruct (ordered_markers html H0 Hord)
      as (a0 & content0 & b0 & Hhtml0 & Hfs0 & Hfe0 & _ & HabE0).
    intros k Hk. unfold good, desc_of, merge_entry in *.
    destruct (decide (k = date_str)) as [->|Hne].
    - rewrite lookup_insert_eq. cbn [description].
      split; [done|]. split; [by apply no_card_end_stable|].
      split; [done|]. by apply not_contains_occurs.
    - rewrite lookup_insert_ne in Hk |- * by done.
      destruct Hk as [i Hi]. rewrite Hi.
      by apply (parsed_good html a0 content0 b0 Hhtml0 Hfs0 Hfe0 HabE0 k i). }
  assert (Hparse2 : parse_existing_entries new2
                    = merge_entry E0 date_str description2)
    by (by apply (roundtrip_text a content b)).
  destruct (generated_markers a content b _ g2 HabS HabE Hne2 Hgood2 Hg2)
    as [Hfs2 Hfe2].
  fold new2 in Hfs2, Hfe2.
  exists new2. eexists.
  split; [cbn [files]; apply lookup_insert_eq|].
  split; [done|]. split.
  { rewrite Hparse2. unfold merge_entry. apply lookup_insert_eq. }
  split.
  { rewrite Hfs2, Hfe2, <- Nat2Z.inj_add, <- length_app.
    replace new2
      with ((a ++ ENTRY_START) ++ (g2 ++ [10; 32; 32]%N) ++ ENTRY_END ++ b)
      by (subst new2; by rewrite <- !app_assoc).
    replace (length ((a ++ ENTRY_START) ++ g2 ++ [10; 32; 32]%N))
      with (length ((a ++ ENTRY_START) ++ (g2 ++ [10; 32; 32]%N)))
      by done.
    rewrite slice_app.
    pose proof (roundtrip_scan _ g2 Hne2 Hgood2 Hg2) as Hscan.
    apply (f_equal (List.map fst)) in Hscan.
    rewrite !List.map_map in Hscan. cbn [entry_of fst] in Hscan.
    rewrite List.map_id in Hscan. rewrite Hscan.
    apply count_NoDup; [apply sorted_dates_NoDup|].
    apply elem_of_sorted_dates. unfold merge_entry.
    rewrite lookup_insert_eq. by eexists. }
  split.
  - apply (update_index_returns w raw date_str description2 g2 Hf).
    + unfold contains. apply Z.leb_le. done.
    + unfold contains. apply Z.leb_le.
      pose proof (find_ge_m1 html ENTRY_START). fold html.
      assert (0 <= Z.of_nat (length ENTRY_START))%Z by lia. lia.
    + done.
    + fold html. by rewrite Hnew.
    + done.
  - cbn [files]. fold html. rewrite Hnew. fold new2.
    by rewrite insert_insert_eq.
Qed.



(** *** The order of the dates *)

Lemma str_ltb_irrefl a : str_ltb a a = false.
Proof.
  induction a as [|x a IH]; simpl; [done|].
  by rewrite N.ltb_irrefl, N.eqb_refl, IH.
Qed.

Lemma str_ltb_trans a b c :
  str_ltb a b = true -> str_ltb b c = true -> str_ltb a c = true.
Proof.
  revert b c; induction a as [|x a IH]; intros [|y b] [|z c]; simpl; try done.
  intros H1 H2.
  apply orb_true_iff in H1 as [H1|H1]; apply orb_true_iff in H2 as [H2|H2].
  - apply N.ltb_lt in H1, H2. apply orb_true_iff. left. apply N.ltb_lt. lia.
  - apply andb_prop in H2 as [H2 _]. apply N.eqb_eq in H2 as <-.
    by rewrite H1.
  - apply andb_prop in H1 as [H1 _]. apply N.eqb_eq in H1 as <-.
    by rewrite H2.
  - apply andb_prop in H1 as [H1 H1']. apply andb_prop in H2 as [H2 H2'].
    apply N.eqb_eq in H1 as <-. apply N.eqb_eq in H2 as <-.
    rewrite N.eqb_refl, (IH _ _ H1' H2'). simpl. apply orb_true_r.
Qed.

Lemma str_ltb_total a b :
  str_ltb a b = false -> a <> b -> str_ltb b a = true.
Proof.
  revert b; induction a as [|x a IH]; intros [|y b]; simpl; try done.
  intros H Hne. apply orb_false_elim in H as [H1 H2].
  apply N.ltb_ge in H1.
  destruct (N.eqb_spec x y) as [->|Hxy].
  - simpl in H2. rewrite N.eqb_refl, N.ltb_irrefl. simpl.
    apply IH; [done|]. intros ->. done.
  - apply orb_true_iff. left. apply N.ltb_lt. lia.
Qed.

Lemma insert_desc_sorted x l :
  StronglySorted str_gt l -> x ∉ l -> StronglySorted str_gt (insert_desc x l).
Proof.
  induction 1 as [|y l Hl IH Hy]; intros Hx; simpl.
  - repeat constructor.
  - apply not_elem_of_cons in Hx as [Hxy Hx].
    destruct (str_ltb x y) eqn:E.
    + constructor; [by apply IH|].
      rewrite insert_desc_perm. by constructor.
    + assert (Hgt : str_gt x y) by (by apply str_ltb_total; [|congruence]).
      constructor; [by constructor|].
      constructor; [done|].
      eapply Forall_impl; [exact Hy|]. intros z Hz.
      unfold str_gt in *. by eapply str_ltb_trans.
Qed.

Lemma sorted_desc_sorted l : NoDup l -> StronglySorted str_gt (sorted_desc l).
Proof.
  induction 1 as [|x l Hx Hl IH]; simpl; [constructor|].
  apply insert_desc_sorted; [done|]. by rewrite sorted_desc_perm.
Qed.


Lemma digits2 n :
  (n < 100)%N ->
  exists a b, (a <= 9 /\ b <= 9 /\ n = 10 * a + b)%N
              /\ pad2 n = [48 + a; 48 + b]%N.
Proof.
  intros Hn. exists (n / 10)%N, (n mod 10)%N.
  pose proof (N.div_mod' n 10) as H1.
  pose proof (N.mod_upper_bound n 10 ltac:(lia)) as H2.
  unfold pad2.
  generalize dependent (n / 10)%N. intros q1.
  generalize dependent (n mod 10)%N. intros r1 H1 H2.
  assert (q1 < 10)%N by lia.
  split; [lia|]. by rewrite (N.mod_small q1) by done.
Qed.

Lemma digits4 n :
  (n < 10000)%N ->
  exists a b c d,
    (a <= 9 /\ b <= 9 /\ c <= 9 /\ d <= 9
     /\ n = 1000 * a + 100 * b + 10 * c + d)%N
    /\ pad4 n = [48 + a; 48 + b; 48 + c; 48 + d]%N.
Proof.
  intros Hn.
  exists (n / 10 / 10 / 10)%N, (n / 10 / 10 mod 10)%N,
    (n / 10 mod 10)%N, (n mod 10)%N.
  pose proof (N.div_mod' n 10) as H1.
  pose proof (N.mod_upper_bound n 10 ltac:(lia)) as H2.
  pose proof (N.div_mod' (n / 10) 10) as H3.
  pose proof (N.mod_upper_bound (n / 10) 10 ltac:(lia)) as H4.
  pose proof (N.div_mod' (n / 10 / 10) 10) as H5.
  pose proof (N.mod_upper_bound (n / 10 / 10) 10 ltac:(lia)) as H6.
  unfold pad4.
  generalize dependent (n / 10 / 10 / 10)%N. intros q3.
  generalize dependent (n / 10 / 10 mod 10)%N. intros r3.
  generalize dependent (n / 10 / 10)%N. intros q2.
  generalize dependent (n / 10 mod 10)%N. intros r2.
  generalize dependent (n / 10)%N. intros q1.
  generalize dependent (n mod 10)%N. intros r1.
  intros H1 H2 H3 H4 H5 H6.
  assert (q3 < 10)%N by lia.
  split; [lia|]. by rewrite (N.mod_small q3) by done.
Qed.

Lemma isoformat_order o1 o2 :
  (year o1 < 10000)%N -> (month o1 < 100)%N -> (day o1 < 100)%N ->
  (year o2 < 10000)%N -> (month o2 < 100)%N -> (day o2 < 100)%N ->
  str_ltb (isoformat o1) (isoformat o2) = date_ltb o1 o2.
Proof.
  intros Hy1 Hm1 Hd1 Hy2 Hm2 Hd2. unfold isoformat, date_ltb.
  destruct (digits4 _ Hy1) as (a1 & b1 & c1 & e1 & Ha1 & ->).
  destruct (digits4 _ Hy2) as (a2 & b2 & c2 & e2 & Ha2 & ->).
  destruct (digits2 _ Hm1) as (f1 & g1 & Hf1 & ->).
  destruct (digits2 _ Hm2) as (f2 & g2 & Hf2 & ->).
  destruct (digits2 _ Hd1) as (h1 & i1 & Hh1 & ->).
  destruct (digits2 _ Hd2) as (h2 & i2 & Hh2 & ->).
  cbn [app str_ltb].
  rewrite !N.ltb_irrefl, !N.eqb_refl, andb_false_r, orb_false_r.
  cbn [orb andb]. apply eq_iff_eq_true.
  repeat first [rewrite orb_true_iff | rewrite andb_true_iff
               | rewrite N.ltb_lt | rewrite N.eqb_eq].
  lia.
Qed.


Lemma strptime_valid s o :
  strptime s = Some o -> valid_date (year o) (month o) (day o) = true.
Proof.
  unfold strptime. destruct (match_here _ _) as [m|]; [|done].
  destruct (after m); [|done].
  destruct (valid_date _ _ _) eqn:E; [|done]. by intros [= <-].
Qed.

Lemma days_in_month_le y m : (days_in_month y m <= 31)%N.
Proof.
  unfold days_in_month. destruct m as [|q]; [done|].
  repeat (destruct q as [q|q|]; try done); destruct (is_leap y); done.
Qed.

Lemma valid_bounds y m d :
  valid_date y m d = true -> (y < 10000 /\ m < 100 /\ d < 100)%N.
Proof.
  unfold valid_date. intros H.
  repeat (apply andb_prop in H as [H ?]).
  repeat match goal with
         | Hx : (_ <=? _)%N = true |- _ => apply N.leb_le in Hx
         end.
  pose proof (days_in_month_le y m). lia.
Qed.

Lemma canonical_spec k :
  canonical k = true -> exists o, strptime k = Some o /\ k = isoformat o.
Proof.
  unfold canonical. destruct (strptime k) as [o|]; [|done].
  intros H. apply bool_decide_eq_true in H. by exists o.
Qed.

Lemma canonical_order k1 k2 :
  canonical k1 = true -> canonical k2 = true -> str_gt k1 k2 -> later k1 k2.
Proof.
  intros H1 H2. unfold str_gt, later.
  destruct (canonical_spec _ H1) as (o1 & Ho1 & Hk1).
  destruct (canonical_spec _ H2) as (o2 & Ho2 & Hk2).
  rewrite Ho1, Ho2. rewrite Hk1 at 1. rewrite Hk2 at 1.
  destruct (valid_bounds _ _ _ (strptime_valid _ _ Ho1)) as (? & ? & ?).
  destruct (valid_bounds _ _ _ (strptime_valid _ _ Ho2)) as (? & ? & ?).
  by rewrite isoformat_order.
Qed.

Lemma sorted_later l :
  Forall (fun k => canonical k = true) l ->
  StronglySorted str_gt l -> StronglySorted later l.
Proof.
  intros Hc Hs. induction Hs as [|k l Hl IH Hk]; [constructor|].
  apply Forall_cons in Hc as [Hck Hc].
  constructor; [by apply IH|].
  rewrite Forall_forall in Hk, Hc |- *. intros k' Hk'.
  apply canonical_order; [done|by apply Hc|by apply Hk].
Qed.

Lemma in_month_spec mk k : in_month mk k = true <-> month_key k = Some mk.
Proof.
  unfold in_month. destruct (month_key k) as [[y m]|]; [|done].
  destruct mk as [y' m']. simpl. rewrite andb_true_iff, !N.eqb_eq.
  split; [by intros [-> ->]|by intros [= -> ->]].
Qed.

Lemma later_months k1 k2 a b :
  later k1 k2 -> month_key k1 = Some a -> month_key k2 = Some b ->
  month_ltb a b = false.
Proof.
  unfold later, month_key, month_ltb, date_ltb.
  destruct (strptime k1) as [o1|]; [|done].
  destruct (strptime k2) as [o2|]; [|done].
  intros H [= <-] [= <-]. simpl.
  apply not_true_iff_false. intros H'. revert H H'.
  repeat first [rewrite orb_true_iff | rewrite andb_true_iff
               | rewrite N.ltb_lt | rewrite N.eqb_eq].
  lia.
Qed.

Lemma split_two_months l hi lo :
  month_ltb lo hi = true ->
  StronglySorted later l ->
  (forall k, k ∈ l -> month_key k = Some hi \/ month_key k = Some lo) ->
  exists ks1 ks2,
    l = ks1 ++ ks2
    /\ (forall k, k ∈ ks1 -> month_key k = Some hi)
    /\ (forall k, k ∈ ks2 -> month_key k = Some lo).
Proof.
  intros Hlt Hs. induction Hs as [|k l Hl IH Hk]; intros Hm.
  - exists [], []. repeat split; intros k Hk; by apply elem_of_nil in Hk.
  - destruct IH as (ks1 & ks2 & -> & H1 & H2).
    { intros k' Hk'. apply Hm. by right. }
    destruct (Hm k) as [Hhi|Hlo]; [by left|..].
    + exists (k :: ks1), ks2. split; [done|]. split; [|done].
      intros k' Hk'. apply elem_of_cons in Hk' as [->|Hk']; [done|by apply H1].
    + destruct ks1 as [|k1 ks1].
      * exists [], (k :: ks2). split; [done|]. split.
        -- intros k' Hk'. by apply elem_of_nil in Hk'.
        -- intros k' Hk'.
           apply elem_of_cons in Hk' as [->|Hk']; [done|by apply H2].
      * exfalso. rewrite Forall_forall in Hk.
        assert (Hl1 : later k k1) by (apply Hk; by left).
        pose proof (later_months k k1 lo hi Hl1 Hlo (H1 k1 ltac:(by left))).
        congruence.
Qed.

Lemma header_of_date o : header_of (year o, month o) = month_header_line o.
Proof. reflexivity. Qed.

Lemma entries_lines_block entries ks rest mk lines_rest :
  (forall k, k ∈ ks -> month_key k = Some mk) ->
  entries_lines entries rest (Some mk) = Some lines_rest ->
  entries_lines entries (ks ++ rest) (Some mk)
  = Some (card_lines entries ks ++ lines_rest).
Proof.
  intros Hks Hrest. induction ks as [|k ks IH]; [done|].
  assert (Hk : month_key k = Some mk) by (apply Hks; by left).
  unfold month_key in Hk. cbn [app entries_lines card_lines].
  destruct (strptime k) as [o|]; [|done]. injection Hk as <-.
  rewrite IH by (intros k' Hk'; apply Hks; by right).
  rewrite decide_True by done. cbn [app]. unfold desc_of.
  reflexivity.
Qed.

Lemma entries_lines_start entries k ks rest cur mk lines_rest :
  cur <> Some mk ->
  (forall k', k' ∈ k :: ks -> month_key k' = Some mk) ->
  entries_lines entries rest (Some mk) = Some lines_rest ->
  entries_lines entries ((k :: ks) ++ rest) cur
  = Some ([header_of mk] ++ card_lines entries (k :: ks) ++ lines_rest).
Proof.
  intros Hcur Hks Hrest.
  assert (Hk : month_key k = Some mk) by (apply Hks; by left).
  unfold month_key in Hk. cbn [app entries_lines card_lines].
  destruct (strptime k) as [o|]; [|done]. injection Hk as <-.
  rewrite (entries_lines_block entries ks rest _ lines_rest)
    by (done || (intros k' Hk'; apply Hks; by right)).
  rewrite decide_False by congruence.
  rewrite header_of_date. cbn [app]. unfold desc_of.
  reflexivity.
Qed.


Lemma month_ltb_irrefl a : month_ltb a a = false.
Proof. unfold month_ltb. by rewrite !N.ltb_irrefl, N.eqb_refl. Qed.

Lemma month_ltb_total (a b : N * N) :
  a <> b -> month_ltb a b = true \/ month_ltb b a = true.
Proof.
  destruct a as [y m], b as [y' m']. unfold month_ltb. simpl. intros Hne.
  destruct (N.ltb_spec y y'); [by left|].
  destruct (N.ltb_spec y' y); [by right|].
  assert (y = y') as -> by lia. rewrite N.eqb_refl. simpl.
  destruct (N.ltb_spec m m'); [by left|].
  destruct (N.ltb_spec m' m); [by right|].
  assert (m = m') as -> by lia. done.
Qed.

Lemma two_groups_ordered (entries : gmap str info) hi lo :
  forallb canonical (map_to_list entries).*1 = true ->
  month_ltb lo hi = true ->
  (forall k, k ∈ (map_to_list entries).*1 ->
             month_key k = Some hi \/ month_key k = Some lo) ->
  (exists k, k ∈ (map_to_list entries).*1 /\ month_key k = Some hi) ->
  (exists k, k ∈ (map_to_list entries).*1 /\ month_key k = Some lo) ->
  exists ks1 ks2,
    sorted_desc (map_to_list entries).*1 = ks1 ++ ks2
    /\ ks1 <> [] /\ ks2 <> []
    /\ (forall k, k ∈ ks1 -> month_key k = Some hi)
    /\ (forall k, k ∈ ks2 -> month_key k = Some lo)
    /\ StronglySorted later (ks1 ++ ks2)
    /\ generate_entries_html entries
       = Some (join [10%N]
                 ([header_of hi] ++ card_lines entries ks1
                    ++ [header_of lo] ++ card_lines entries ks2)).
Proof.
  intros Hcan Hlt Hm (kA & HkA & HmA) (kB & HkB & HmB).
  set (keys := (map_to_list entries).*1) in *.
  assert (Hne : hi <> lo).
  { intros ->. by rewrite month_ltb_irrefl in Hlt. }
  assert (Hsorted : StronglySorted later (sorted_desc keys)).
  { apply sorted_later.
    - rewrite sorted_desc_perm. apply Forall_forall. intros k Hk.
      rewrite forallb_forall in Hcan. apply Hcan.
      by apply list_elem_of_In.
    - apply sorted_desc_sorted, NoDup_fst_map_to_list. }
  destruct (split_two_months _ hi lo Hlt Hsorted) as (ks1 & ks2 & Hd & H1 & H2).
  { intros k Hk. apply Hm. by rewrite sorted_desc_perm in Hk. }
  assert (Hks1 : ks1 <> []).
  { intros ->. rewrite <- (sorted_desc_perm keys), Hd in HkA.
    apply H2 in HkA. congruence. }
  assert (Hks2 : ks2 <> []).
  { intros ->. rewrite <- (sorted_desc_perm keys), Hd, app_nil_r in HkB.
    apply H1 in HkB. congruence. }
  exists ks1, ks2. split; [done|]. split; [done|]. split; [done|].
  split; [done|]. split; [done|]. split; [by rewrite <- Hd|].
  unfold generate_entries_html. fold keys. rewrite decide_False.
  2:{ intros ->. subst keys. rewrite map_to_list_empty in HkA.
      by apply elem_of_nil in HkA. }
  rewrite Hd. destruct ks1 as [|k1 ks1]; [done|].
  destruct ks2 as [|k2 ks2]; [done|].
  rewrite (entries_lines_start entries k1 ks1 (k2 :: ks2) None hi
             ([header_of lo] ++ card_lines entries (k2 :: ks2) ++ []));
    [by rewrite app_nil_r|done|done|].
  rewrite <- (app_nil_r (k2 :: ks2)) at 1.
  apply entries_lines_start; [congruence|done|done].
Qed.

(** C2 (amended): for an entry mapping whose keys are in the zero-padded
    form of their dates and span exactly two months, the generated region
    has two month headers, the later month first, each followed by the
    cards of its month only, all cards in strictly descending order of
    their dates. *)
Theorem C2_two_months_two_headers (entries : gmap str info) (A B : N * N) :
  forallb canonical (map_to_list entries).*1 = true ->
  spans_two (map_to_list entries).*1 A B = true ->
  exists html,
    generate_entries_html entries = Some html
    /\ two_month_groups entries A B html.
Proof.
  intros Hcan Hspan. unfold spans_two in Hspan.
  apply andb_prop in Hspan as [Hspan HB].
  apply andb_prop in Hspan as [Hspan HA].
  apply andb_prop in Hspan as [Hne Hall].
  assert (HAB : A <> B).
  { intros ->. by rewrite !N.eqb_refl in Hne. }
  assert (Hm : forall k, k ∈ (map_to_list entries).*1 ->
                         month_key k = Some A \/ month_key k = Some B).
  { intros k Hk. rewrite forallb_forall in Hall.
    specialize (Hall k ltac:(by apply list_elem_of_In)).
    apply orb_prop in Hall as [H|H]; apply in_month_spec in H; auto. }
  assert (HeA : exists k, k ∈ (map_to_list entries).*1
                          /\ month_key k = Some A).
  { apply existsb_exists in HA as (k & Hk & H). exists k.
    split; [by apply list_elem_of_In|by apply in_month_spec]. }
  assert (HeB : exists k, k ∈ (map_to_list entries).*1
                          /\ month_key k = Some B).
  { apply existsb_exists in HB as (k & Hk & H). exists k.
    split; [by apply list_elem_of_In|by apply in_month_spec]. }
  destruct (month_ltb_total A B HAB) as [Hlt|Hlt].
  - destruct (two_groups_ordered entries B A Hcan Hlt) as
      (ks1 & ks2 & Hd & Hn1 & Hn2 & H1 & H2 & Hs & Hg);
      [intros k Hk; destruct (Hm k Hk); auto|done|done|].
    eexists. split; [exact Hg|].
    exists B, A, ks1, ks2. split; [by right|]. done.
  - destruct (two_groups_ordered entries A B Hcan Hlt) as
      (ks1 & ks2 & Hd & Hn1 & Hn2 & H1 & H2 & Hs & Hg); [done..|].
    eexists. split; [exact Hg|].
    exists A, B, ks1, ks2. split; [by left|]. done.
Qed.


(** *** Dates that are accepted but not zero-padded *)

Lemma occurs_after P x s : occurs P s -> occurs P (x ++ s).
Proof. intros (a & b & ->). exists (x ++ a), b. by rewrite <- !app_assoc. Qed.

Lemma card_has_href d shown desc :
  occurs (uq "<a href='" ++ d ++ uq ".html'>") (card_body d shown desc).
Proof.
  unfold card_body.
  exists (uq "<div class='update-card'>" ++ [10; 32; 32; 32; 32]%N),
    ([10; 32; 32; 32; 32; 32; 32]%N
       ++ uq "<div class='update-date'>" ++ shown ++ u "</div>"
       ++ [10; 32; 32; 32; 32; 32; 32]%N
       ++ uq "<div class='update-title'>" ++ u "Daily Market Update"
       ++ u "</div>" ++ [10; 32; 32; 32; 32; 32; 32]%N
       ++ uq "<p class='update-desc'>" ++ desc ++ CARD_CLOSING).
  by rewrite <- !app_assoc.
Qed.

Lemma parse_empty_region :
  parse_existing_entries (ENTRY_START ++ ENTRY_END) = ∅.
Proof. vm_compute. reflexivity. Qed.

Lemma read_empty_region :
  universal_newlines (ENTRY_START ++ ENTRY_END) = ENTRY_START ++ ENTRY_END.
Proof. vm_compute. reflexivity. Qed.

(** C9: the date [2026-2-8] passes the orchestrator's validation, yet it
    does not have the form of a card date: [update_index], given a
    description it can encode and a path of the index it can print, writes
    a card for it; no document gives it back as an entry; and in the
    descending string order it comes before the later date [2026-10-01]. *)
Theorem C9_unpadded_date_is_dropped :
  strptime (u "2026-2-8") = Some (Date 2026 2 8)
  /\ is_card_date (u "2026-2-8") = false
  /\ (forall html, parse_existing_entries html !! u "2026-2-8" = None)
  /\ (forall description out,
         writable description = true ->
         printable INDEX_PATH = true ->
         exists w' new,
           update_index (u "2026-2-8") description
             (World {[INDEX_PATH := Text (ENTRY_START ++ ENTRY_END)]} out)
           = (Return tt, w')
           /\ files w' !! INDEX_PATH = Some (Text new)
           /\ occurs (uq "<a href='2026-2-8.html'>") new
           /\ parse_existing_entries new !! u "2026-2-8" = None)
  /\ sorted_desc [u "2026-10-01"; u "2026-2-8"]
     = [u "2026-2-8"; u "2026-10-01"]
  /\ later (u "2026-10-01") (u "2026-2-8").
Proof.
  assert (Hd : strptime (u "2026-2-8") = Some (Date 2026 2 8))
    by (vm_compute; reflexivity).
  assert (Hdrop : forall html,
             parse_existing_entries html !! u "2026-2-8" = None).
  { intros html. destruct (_ !! _) as [i|] eqn:E; [|done].
    apply parsed_keys in E. vm_compute in E. discriminate. }
  split; [done|]. split; [vm_compute; reflexivity|]. split; [done|].
  split; [|split; vm_compute; reflexivity].
  intros description out Hw Hp.
  set (w := World {[INDEX_PATH := Text (ENTRY_START ++ ENTRY_END)]} out).
  assert (Hf : files w !! INDEX_PATH = Some (Text (ENTRY_START ++ ENTRY_END)))
    by apply lookup_singleton_eq.
  set (g := join [10%N]
              [month_header_line (Date 2026 2 8); [];
               generate_card (u "2026-2-8") (Date 2026 2 8) description]).
  assert (Hg : generate_entries_html
                 (merge_entry
                    (parse_existing_entries
                       (universal_newlines (ENTRY_START ++ ENTRY_END)))
                    (u "2026-2-8") description) = Some g).
  { rewrite read_empty_region, parse_empty_region. unfold merge_entry.
    by apply generate_single. }
  assert (Hwn : writable
                  (new_html (universal_newlines (ENTRY_START ++ ENTRY_END)) g)
                = true).
  { apply can_encode_new_html; [vm_compute; reflexivity|].
    apply can_encode_single; [vm_compute; reflexivity|done]. }
  rewrite (update_index_returns w _ (u "2026-2-8") description g Hf);
    [|vm_compute; reflexivity|vm_compute; reflexivity|done..].
  eexists _, _. split; [reflexivity|]. split; [apply lookup_insert_eq|].
  split; [|apply Hdrop].
  unfold new_html. apply (occurs_infix _ g). subst g.
  rewrite join_flat, flat_card.
  rewrite generate_card_body, !app_assoc.
  apply occurs_after.
  change (uq "<a href='2026-2-8.html'>")
    with (uq "<a href='" ++ u "2026-2-8" ++ uq ".html'>").
  apply card_has_href.
Qed.

(** *** The index update, beyond the claims *)

(** X1: when [update_index] ends otherwise than by returning or by an
    encoding error (the index file cannot be read, a marker is missing, or
    a stored date makes [strptime] raise), it has written no file.  When it
    ends by an encoding error, either no file is written (the [ERROR] line
    could not be printed), or the index file is left empty (the new text
    could not be encoded, and opening the file had truncated it), or the
    index file holds the new text (the closing line could not be
    printed). *)
Theorem X1_update_index_failure_and_the_files w o w' date_str description :
  update_index date_str description w = (o, w') ->
  o <> Return tt ->
  (o <> Raise UnicodeEncodeError -> files w' = files w)
  /\ (o = Raise UnicodeEncodeError ->
      files w' = files w
      \/ files w' = <[INDEX_PATH := Text []]> (files w)
      \/ exists new,
          files w' = <[INDEX_PATH := Text new]> (files w)
          /\ writable new = true /\ printable INDEX_PATH = false).
Proof.
  intros Hrun Ho.
  destruct (update_index_cases w date_str description)
    as [(e & _ & H)
       |(raw & html & entries & Hf & Hh & He
         & [(_ & _ & H)|[(_ & _ & H)|[(_ & _ & _ & H)
           |(g & Hs & Hend & Hg
             & [(_ & H)|[(Hw & Hp & H)|(_ & _ & H)]])]]])];
    rewrite H in Hrun; injection Hrun as <- <-; cbn [files];
    try (split; [done|intros _; by left]).
  - split; [done|]. intros _. right. by left.
  - split; [done|]. intros _. right. right. by eexists.
Qed.

Lemma entries_lines_None entries dates :
  forall cur,
    entries_lines entries dates cur = None
    <-> exists k, k ∈ dates /\ strptime k = None.
Proof.
  induction dates as [|k dates IH]; intros cur; cbn [entries_lines].
  - split; [done|]. intros (k & Hk & _). by apply elem_of_nil in Hk.
  - destruct (strptime k) as [o|] eqn:Hk.
    + destruct (entries_lines entries dates (Some (year o, month o)))
        as [rest|] eqn:E.
      * split; [done|]. intros (k' & Hin & Hk').
        apply elem_of_cons in Hin as [->|Hin]; [congruence|].
        assert (Hn : entries_lines entries dates (Some (year o, month o))
                     = None) by (apply IH; eauto).
        congruence.
      * split; [|done]. intros _.
        apply IH in E as (k' & Hin & Hk'). exists k'. split; [by right|done].
    + split; [|done]. intros _. exists k. split; [by left|done].
Qed.

Lemma generate_entries_html_None (entries : gmap str info) :
  generate_entries_html entries = None ->
  exists k, is_Some (entries !! k) /\ strptime k = None.
Proof.
  unfold generate_entries_html.
  destruct (decide (entries = ∅)) as [->|Hne]; [done|].
  destruct (entries_lines _ _ _) as [lines|] eqn:E; [done|]. intros _.
  apply entries_lines_None in E as (k & Hk & Hd).
  exists k. split; [by apply elem_of_sorted_dates|done].
Qed.

(** X3: [generate_entries_html] raises [ValueError] exactly when some key
    of the mapping is rejected by [strptime]; for the empty mapping it
    returns the empty string. *)
Theorem X3_generate_entries_html_raises (entries : gmap str info) :
  (generate_entries_html entries = None
   <-> exists k, is_Some (entries !! k) /\ strptime k = None)
  /\ generate_entries_html ∅ = Some [].
Proof.
  split; [|reflexivity].
  unfold generate_entries_html.
  destruct (decide (entries = ∅)) as [->|Hne].
  - split; [done|]. intros (k & [i Hi] & _). by rewrite lookup_empty in Hi.
  - destruct (entries_lines _ _ _) as [lines|] eqn:E.
    + split; [done|]. intros (k & Hk & Hd).
      assert (Hn : entries_lines entries
                     (sorted_desc (map_to_list entries).*1) None = None).
      { apply entries_lines_None. exists k.
        split; [by apply elem_of_sorted_dates|done]. }
      congruence.
    + split; [|done]. intros _.
      apply entries_lines_None in E as (k & Hk & Hd).
      exists k. split; [by apply elem_of_sorted_dates|done].
Qed.

(** X5: every entry [parse_existing_entries] recovers, from any text, has
    a key of the form of a card date and a description with no whitespace
    at either end. *)
Theorem X5_parsed_entries_well_formed html k i :
  parse_existing_entries html !! k = Some i ->
  is_card_date k = true /\ strip (description i) = description i.
Proof.
  unfold parse_existing_entries. destruct (_ || _); [done|].
  apply (fold_entries_inv
           (fun k i => is_card_date k = true
                       /\ strip (description i) = description i)); [done|].
  intros m Hm. apply finditer_scan_sound in Hm as (p & t & _ & Hm).
  apply card_match_inv in Hm as (d & M & pre & q & _ & Hg & Hd & _).
  destruct (match_groups m d M Hg) as [-> _].
  split; [done|]. apply strip_idem.
Qed.

(** X6: no entry is recovered from a text that lacks a marker, nor from
    one whose first end marker begins before its first start marker ends. *)
Theorem X6_parse_without_region html :
  contains html ENTRY_START = false
  \/ contains html ENTRY_END = false
  \/ (find html ENTRY_END
      <= find html ENTRY_START + Z.of_nat (length ENTRY_START))%Z ->
  parse_existing_entries html = ∅.
Proof.
  unfold contains.
  pose proof (find_ge_m1 html ENTRY_START) as Hs.
  pose proof (find_ge_m1 html ENTRY_END) as He.
  intros [H|[H|H]].
  - apply Z.leb_gt in H. unfold parse_existing_entries.
    replace (find html ENTRY_START) with (-1)%Z by lia. done.
  - apply Z.leb_gt in H. unfold parse_existing_entries.
    replace (find html ENTRY_END) with (-1)%Z by lia.
    by rewrite orb_true_r.
  - destruct (Z.eq_dec (find html ENTRY_START) (-1)%Z) as [E1|E1].
    { unfold parse_existing_entries. by rewrite E1. }
    destruct (Z.eq_dec (find html ENTRY_END) (-1)%Z) as [E2|E2].
    { unfold parse_existing_entries. by rewrite E2, orb_true_r. }
    apply (parse_inverted html (Z.to_nat (find html ENTRY_START))
             (Z.to_nat (find html ENTRY_END))); lia.
Qed.

Lemma START_absent_END t : absent ENTRY_END ENTRY_START t.
Proof. apply absent_lit. vm_compute. reflexivity. Qed.

Lemma well_formed_good (entries : gmap str info) :
  (forall k i, entries !! k = Some i ->
               is_card_date k = true
               /\ strip (description i) = description i
               /\ no_card_end (description i) = true
               /\ contains (description i) ENTRY_END = false) ->
  forall k, is_Some (entries !! k) -> good entries k.
Proof.
  intros H k [i Hi]. destruct (H k i Hi) as (Hk & Hs & Hc & He).
  unfold good, desc_of. rewrite Hi.
  split; [done|]. split; [by apply no_card_end_stable|].
  split; [done|]. by apply not_contains_occurs.
Qed.

(** X4: a card written by [generate_card], put between the markers, is
    read back as the one entry it was written from, whatever date object
    the displayed date was formatted from. *)
Theorem X4_generate_card_parses_back date_str date_obj description :
  is_card_date date_str = true ->
  strip description = description ->
  no_card_end description = true ->
  contains description ENTRY_END = false ->
  parse_existing_entries
    (ENTRY_START ++ generate_card date_str date_obj description ++ ENTRY_END)
  = {[ date_str := Info description ]}.
Proof.
  intros Hd Hs Hc He.
  set (content := generate_card date_str date_obj description).
  set (doc := ENTRY_START ++ content ++ ENTRY_END).
  assert (Hdoc : doc = [] ++ ENTRY_START ++ content ++ ENTRY_END ++ []).
  { subst doc. by rewrite app_nil_r. }
  assert (Hfs : find doc ENTRY_START = Z.of_nat (length (@nil N))).
  { apply (absent_found doc ENTRY_START [] (content ++ ENTRY_END ++ []) Hdoc).
    apply absent_nil. }
  assert (Hfe : find doc ENTRY_END
                = Z.of_nat (length ([] ++ ENTRY_START ++ content))).
  { apply (absent_found doc ENTRY_END _ []).
    { rewrite Hdoc. by rewrite <- !app_assoc. }
    cbn [app]. apply absent_app; [apply START_absent_END|].
    subst content. rewrite generate_card_body.
    apply absent_app; [apply absent_no_lt; [apply tag_like_END|reflexivity]|].
    apply card_absent_END;
      [by apply no_lt_card_date|apply no_lt_date_display
      |by apply not_contains_occurs]. }
  rewrite (parse_shape doc [] content [] Hdoc Hfs Hfe).
  unfold finditer. subst content. rewrite generate_card_body.
  rewrite finditer_skip
    by (apply absent_no_lt; [apply tag_like_OPEN|reflexivity]).
  rewrite <- (app_nil_r (card_body _ _ _)).
  rewrite (finditer_hit card_pattern _ []
             (Match [(2, description); (1, date_str)] [])).
  - cbn [finditer_scan fold_left]. unfold group. cbn [groups group_of Nat.eqb].
    by rewrite Hs, insert_empty.
  - apply card_match;
      [done|apply no_lt_date_display|by apply no_card_end_stable].
  - reflexivity.
  - unfold card_body. intros H. apply (f_equal length) in H.
    rewrite length_app in H. simpl in H. lia.
Qed.

(** X7: the region [generate_entries_html] writes for a mapping, put
    between the markers as [update_index] does, is read back as that
    mapping: provided every key has the form of a card date and every
    description is stripped and holds neither the end of a card nor the end
    marker. *)
Theorem X7_generated_region_parses_back (entries : gmap str info) g :
  (forall k i, entries !! k = Some i ->
               is_card_date k = true
               /\ strip (description i) = description i
               /\ no_card_end (description i) = true
               /\ contains (description i) ENTRY_END = false) ->
  generate_entries_html entries = Some g ->
  parse_existing_entries (ENTRY_START ++ g ++ [10; 32; 32]%N ++ ENTRY_END)
  = entries.
Proof.
  intros Hwf Hg.
  destruct (decide (entries = ∅)) as [->|Hne].
  - injection Hg as <-. rewrite app_nil_l.
    set (doc := ENTRY_START ++ [10; 32; 32]%N ++ ENTRY_END).
    assert (Hdoc : doc = [] ++ ENTRY_START ++ [10; 32; 32]%N
                           ++ ENTRY_END ++ []).
    { subst doc. by rewrite app_nil_r. }
    rewrite (parse_shape doc [] [10; 32; 32]%N [] Hdoc).
    + reflexivity.
    + apply (absent_found doc ENTRY_START []
               ([10; 32; 32]%N ++ ENTRY_END ++ []) Hdoc).
      apply absent_nil.
    + apply (absent_found doc ENTRY_END _ []).
      { rewrite Hdoc. by rewrite <- !app_assoc. }
      cbn [app]. apply absent_app; [apply START_absent_END|].
      apply absent_no_lt; [apply tag_like_END|reflexivity].
  - pose proof (roundtrip_text [] [] [] entries g) as H.
    cbn [app] in H. rewrite !app_nil_r in H. apply H.
    + apply absent_nil.
    + apply START_absent_END.
    + done.
    + by apply well_formed_good.
    + done.
Qed.

(** X2: publishing the same date with the same description a second time
    leaves the index file as the first update wrote it. *)
Theorem X2_update_index_idempotent w w1 raw date_str description :
  files w !! INDEX_PATH = Some (Text raw) ->
  (0 <= find (universal_newlines raw) ENTRY_START)%Z ->
  (find (universal_newlines raw) ENTRY_START + Z.of_nat (length ENTRY_START)
   <= find (universal_newlines raw) ENTRY_END)%Z ->
  is_card_date date_str = true ->
  strip description = description ->
  no_card_end description = true ->
  contains description ENTRY_END = false ->
  update_index date_str description w = (Return tt, w1) ->
  exists w2,
    update_index date_str description w1 = (Return tt, w2)
    /\ files w2 = files w1.
Proof.
  intros Hf H0 Hord Hdate Hstrip Hclose Hend Hrun.
  destruct (first_run w w1 raw date_str description
              Hf H0 Hord Hdate Hstrip Hclose Hend Hrun)
    as (a & content & b & g & g' & Hhtml & HabS & HabE & Hnew & Hg & Hw
        & Hp & -> & Hg' & Hread & Hne' & Hgood' & _).
  set (E0 := parse_existing_entries (universal_newlines raw)) in *.
  set (new1 := (a ++ ENTRY_START) ++ g ++ [10; 32; 32]%N ++ ENTRY_END ++ b)
    in *.
  set (html1 := (a ++ ENTRY_START) ++ g' ++ [10; 32; 32]%N
                  ++ ENTRY_END ++ b) in *.
  assert (Hparse1 : parse_existing_entries html1
                    = merge_entry E0 date_str
                        (universal_newlines description))
    by (by apply (roundtrip_text a content b)).
  destruct (generated_markers a content b _ g' HabS HabE Hne' Hgood' Hg')
    as [Hfs1 Hfe1].
  fold html1 in Hfs1, Hfe1.
  set (w1 := World (<[INDEX_PATH := Text new1]> (files w)) _).
  assert (Hf1 : files w1 !! INDEX_PATH = Some (Text new1))
    by apply lookup_insert_eq.
  assert (Hm : merge_entry (parse_existing_entries html1) date_str
                 description
               = merge_entry E0 date_str description).
  { rewrite Hparse1. unfold merge_entry. apply insert_insert_eq. }
  assert (Hnew2 : new_html html1 g = new1).
  { unfold new_html. rewrite Hfs1, Hfe1.
    rewrite <- Nat2Z.inj_add, <- length_app. subst html1.
    rewrite slice_to_app.
    replace ((a ++ ENTRY_START) ++ g' ++ [10; 32; 32]%N ++ ENTRY_END ++ b)
      with (((a ++ ENTRY_START) ++ g' ++ [10; 32; 32]%N) ++ ENTRY_END ++ b)
      by (by rewrite <- !app_assoc).
    by rewrite slice_from_app. }
  eexists. split.
  - apply (update_index_returns w1 new1 date_str description g Hf1).
    + rewrite Hread. unfold contains. apply Z.leb_le. lia.
    + rewrite Hread. unfold contains. apply Z.leb_le. lia.
    + by rewrite Hread, Hm.
    + by rewrite Hread, Hnew2.
    + done.
  - cbn [files]. rewrite Hread, Hnew2. subst w1. cbn [files].
    by rewrite insert_insert_eq.
Qed.

(** *** The orchestrator, beyond the claims *)

(** What [main] does after the index update, with [--no-push]. *)
Lemma after_index_no_push a w :
  arg_no_push a = true ->
  after_index a w
  = if printable (arg_date a) then
      (Return tt,
       World (files w)
         (stdout w
            ++ [u "  Skipping git (--no-push)";
                [10%N]
                  ++ u "Done! View at: https://daliu.github.io/autotrader/daily/"
                  ++ arg_date a ++ u ".html"]))
    else
      (Raise UnicodeEncodeError,
       World (files w) (stdout w ++ [u "  Skipping git (--no-push)"])).
Proof.
  intros H. unfold after_index. rewrite H. cbn [negb].
  rewrite bind_run.
  change (print (u "  Skipping git (--no-push)") w)
    with (Return tt,
          World (files w) (stdout w ++ [u "  Skipping git (--no-push)"])).
  cbv beta iota. unfold print. cbn [files stdout].
  assert (Hp : printable
                 ([10%N]
                    ++ u "Done! View at: https://daliu.github.io/autotrader/daily/"
                    ++ arg_date a ++ u ".html")
               = printable (arg_date a)).
  { unfold printable. rewrite !can_encode_app.
    change (can_encode stdout_enc [10%N]) with true.
    replace (can_encode stdout_enc
               (u "Done! View at: https://daliu.github.io/autotrader/daily/"))
      with true by (vm_compute; reflexivity).
    replace (can_encode stdout_enc (u ".html")) with true
      by (vm_compute; reflexivity).
    by rewrite andb_true_r. }
  rewrite Hp. destruct (printable (arg_date a)); [|done].
  by rewrite <- app_assoc.
Qed.

Lemma wrapper_not_email s d :
  strptime s = Some d ->
  path_join DAILY_DIR (s ++ u ".html") <> path_join EMAILS_DIR (s ++ u ".html").
Proof.
  intros H. rewrite DAILY_DIR_join by (by eapply date_file_relative).
  destruct (path_join_relative EMAILS_DIR (s ++ u ".html")
              (date_file_relative _ _ H)) as (sep & -> & _).
  rewrite EMAILS_DIR_eq, <- !app_assoc. intros Heq.
  apply app_inv_head in Heq. apply (f_equal length) in Heq.
  rewrite !length_app in Heq. simpl in Heq. lia.
Qed.

(** On the way to the index update the path of the index, and the date,
    have been printed as parts of other lines. *)
Lemma printable_of_progress a date_obj email_html :
  strptime (arg_date a) = Some date_obj ->
  forallb printable (progress_lines a email_html) = true ->
  printable INDEX_PATH = true /\ printable (arg_date a) = true.
Proof.
  intros Hd Hp. unfold progress_lines in Hp. cbn [forallb] in Hp.
  apply andb_prop in Hp as [Hp1 Hp].
  apply andb_prop in Hp as [_ Hp].
  apply andb_prop in Hp as [_ Hp].
  apply andb_prop in Hp as [_ Hp].
  apply andb_prop in Hp as [Hp5 _].
  unfold printable in *. split.
  - rewrite DAILY_DIR_join in Hp5 by (by eapply date_file_relative).
    rewrite INDEX_PATH_eq. rewrite !can_encode_app in Hp5 |- *.
    apply andb_prop in Hp5 as [_ Hp5]. apply andb_prop in Hp5 as [-> _].
    vm_compute. reflexivity.
  - rewrite can_encode_app in Hp1. by apply andb_prop in Hp1 as [_ ?].
Qed.

(** X8: when [main] stops because the index document lacks a marker, the
    email has already been copied and the wrapper page written; the exit
    undoes neither, and the index is as it was.  The first part is the run
    that reaches the index update and finds a marker missing; the second
    part says that every exit of a run whose date parses and whose source
    exists is of this kind. *)
Theorem X8_marker_exit_keeps_written_files a w date_obj email index :
  strptime (arg_date a) = Some date_obj ->
  files w !! arg_source a = Some (Text email) ->
  arg_source a <> path_join EMAILS_DIR (arg_date a ++ u ".html") ->
  forallb printable (progress_lines a (universal_newlines email)) = true ->
  writable (generate_wrapper_page (arg_date a) date_obj) = true ->
  files w !! INDEX_PATH = Some (Text index) ->
  contains (universal_newlines index) ENTRY_START = false
  \/ contains (universal_newlines index) ENTRY_END = false ->
  (exists out,
      main a w
      = (SysExit 1,
         World
           (<[path_join DAILY_DIR (arg_date a ++ u ".html") :=
                Text (generate_wrapper_page (arg_date a) date_obj)]>
              (<[path_join EMAILS_DIR (arg_date a ++ u ".html") :=
                   Text email]> (files w)))
           out))
  /\ forall (w0 : world) code w',
      is_Some (files w0 !! arg_source a) ->
      main a w0 = (SysExit code, w') ->
      exists email0,
        files w0 !! arg_source a = Some (Text email0)
        /\ files w'
           = <[path_join DAILY_DIR (arg_date a ++ u ".html") :=
                 Text (generate_wrapper_page (arg_date a) date_obj)]>
               (<[path_join EMAILS_DIR (arg_date a ++ u ".html") :=
                    Text email0]> (files w0)).
Proof.
  intros Hd Hs Hne Hp Hw Hi Hm. split.
  - assert (Hr : reaches_index a w date_obj email) by done.
    rewrite (main_reaches_index a w _ _ Hr), bind_run.
    destruct (printable_of_progress a date_obj _ Hd Hp) as [Hpi _].
    rewrite (update_index_exits _ index); [eauto| |done..].
    cbn [files]. by rewrite (index_after_copy a w date_obj _ _ Hd).
  - intros w0 code w' [content Hs0] Hx.
    destruct (main_cases a w0 date_obj Hd)
      as [(Hn & _)|[[email0 Hr]|(e & w1 & Hrun & _)]]; [congruence| |congruence].
    pose proof Hr as (_ & Hs0' & _).
    exists email0. split; [done|].
    rewrite (main_reaches_index a w0 _ _ Hr) in Hx.
    apply bind_exit in Hx as [Hx|(? & w3 & _ & Hx)];
      [|by apply no_exit_after_index in Hx].
    by apply update_index_exit in Hx as (_ & ? & _ & _ & _ & ->).
Qed.

Lemma can_encode_lines (enc : N -> bool) entries dates :
  forall cur lines,
    entries_lines entries dates cur = Some lines ->
    (forall k, k ∈ dates ->
               can_encode enc k = true
               /\ can_encode enc (desc_of entries k) = true) ->
    can_encode enc (flat lines) = true.
Proof.
  induction dates as [|k dates IH]; intros cur lines Hl Hk.
  - by injection Hl as <-.
  - apply entries_lines_cons in Hl as (o & rest & Ho & Hrest & ->).
    rewrite !flat_app, flat_card, !can_encode_app.
    rewrite (IH _ _ Hrest) by (intros k' Hk'; apply Hk; by right).
    destruct (Hk k) as [Hk1 Hk2]; [by left|].
    rewrite (can_encode_card _ _ _ _ Hk1 Hk2).
    destruct (decide _); [done|].
    rewrite flat_single, can_encode_app.
    by rewrite (can_encode_ascii _ _ (is_ascii_month_header o)).
Qed.

(** The region generated from entries that can be encoded can be
    encoded. *)
Lemma can_encode_generate (enc : N -> bool) (entries : gmap str info) g :
  generate_entries_html entries = Some g ->
  (forall k i, entries !! k = Some i ->
               can_encode enc k = true
               /\ can_encode enc (description i) = true) ->
  can_encode enc g = true.
Proof.
  intros Hg Hk.
  destruct (decide (entries = ∅)) as [->|Hne]; [by injection Hg as <-|].
  destruct (generate_nonempty entries g Hne Hg) as (lines & Hl & Hflat & _).
  assert (H : can_encode enc (flat lines) = true).
  { apply (can_encode_lines enc entries _ None lines Hl).
    intros k Hin. apply elem_of_sorted_dates in Hin as [i Hi].
    unfold desc_of. rewrite Hi. by apply Hk. }
  rewrite Hflat, can_encode_app in H. by apply andb_prop in H as [_ ?].
Qed.

(** X9: a run with [--no-push] whose date parses, whose source is a file
    of text other than its archive copy, whose index document holds both
    markers and only cards with dates [strptime] accepts, and whose texts
    and lines can be encoded, returns; the files it leaves are the archive
    copy of the source, the wrapper page, and the index with the region
    generated from the recovered entries and the new one; nothing else is
    written. *)
Theorem X9_main_no_push_publishes a w date_obj email index :
  arg_no_push a = true ->
  strptime (arg_date a) = Some date_obj ->
  files w !! arg_source a = Some (Text email) ->
  arg_source a <> path_join EMAILS_DIR (arg_date a ++ u ".html") ->
  forallb printable (progress_lines a (universal_newlines email)) = true ->
  writable (generate_wrapper_page (arg_date a) date_obj) = true ->
  files w !! INDEX_PATH = Some (Text index) ->
  contains (universal_newlines index) ENTRY_START = true ->
  contains (universal_newlines index) ENTRY_END = true ->
  (forall k, is_Some (parse_existing_entries (universal_newlines index) !! k)
             -> is_Some (strptime k)) ->
  writable index = true ->
  writable (arg_date a) = true ->
  writable (extract_description (universal_newlines email)) = true ->
  exists g out,
    generate_entries_html
      (merge_entry (parse_existing_entries (universal_newlines index))
         (arg_date a) (extract_description (universal_newlines email)))
    = Some g
    /\ main a w
       = (Return tt,
          World
            (<[INDEX_PATH := Text (new_html (universal_newlines index) g)]>
               (<[path_join DAILY_DIR (arg_date a ++ u ".html") :=
                    Text (generate_wrapper_page (arg_date a) date_obj)]>
                  (<[path_join EMAILS_DIR (arg_date a ++ u ".html") :=
                       Text email]> (files w))))
            out).
Proof.
  intros Hno Hd Hs Hne Hp Hw Hi Hcs Hce Hkeys Hwi Hwd Hwdesc.
  set (html := universal_newlines index) in *.
  set (desc := extract_description (universal_newlines email)) in *.
  assert (Hr : reaches_index a w date_obj email) by done.
  destruct (printable_of_progress a date_obj _ Hd Hp) as [Hpi Hpd].
  destruct (generate_entries_html
              (merge_entry (parse_existing_entries html) (arg_date a) desc))
    as [g|] eqn:Hg.
  2:{ exfalso.
      destruct (generate_entries_html_None _ Hg) as (k & Hk & Hn).
      assert (Hsome : is_Some (strptime k)).
      { unfold merge_entry in Hk.
        destruct (decide (k = arg_date a)) as [->|Hk'].
        - by eexists.
        - rewrite lookup_insert_ne in Hk by done. by apply Hkeys. }
      destruct Hsome as [? Hsome]. congruence. }
  assert (Hwh : writable html = true)
    by (by apply can_encode_universal_newlines).
  assert (Hwg : writable g = true).
  { apply (can_encode_generate _ _ g Hg). intros k i Hk.
    unfold merge_entry in Hk.
    destruct (decide (k = arg_date a)) as [->|Hk'].
    - rewrite lookup_insert_eq in Hk. by injection Hk as <-.
    - rewrite lookup_insert_ne in Hk by done.
      by apply (parsed_forallb _ html k i Hwh). }
  exists g. eexists. split; [done|].
  rewrite (main_reaches_index a w _ _ Hr), bind_run.
  fold desc.
  rewrite (update_index_returns _ index (arg_date a) desc g);
    [| |done|done|done| |done].
  - rewrite (after_index_no_push a _ Hno), Hpd. reflexivity.
  - cbn [files]. by rewrite (index_after_copy a w date_obj _ _ Hd).
  - by apply can_encode_new_html.
Qed.



(** X11: with [--no-push], however the run ends, every file other than
    the archive copy, the wrapper page and the index is left as it was. *)
Theorem X11_no_push_touches_three_files a w o w' path :
  arg_no_push a = true ->
  main a w = (o, w') ->
  path <> path_join EMAILS_DIR (arg_date a ++ u ".html") ->
  path <> path_join DAILY_DIR (arg_date a ++ u ".html") ->
  path <> INDEX_PATH ->
  files w' !! path = files w !! path.
Proof.
  intros Hno Hrun Hp1 Hp2 Hp3.
  destruct (strptime (arg_date a)) as [date_obj|] eqn:Hd.
  2:{ rewrite (main_invalid_date a w Hd) in Hrun.
      destruct (printable _); by injection Hrun as <- <-. }
  destruct (main_cases a w date_obj Hd)
    as [(_ & _ & Hm)|[[email Hr]|(e & w1 & Hm & Hframe)]].
  - rewrite Hm in Hrun. by injection Hrun as <- <-.
  - rewrite (main_reaches_index a w _ _ Hr), bind_run in Hrun.
    set (w2 := World _ _) in Hrun.
    assert (H2 : files w2 !! path = files w !! path).
    { subst w2. cbn [files]. by rewrite !lookup_insert_ne. }
    destruct (update_index (arg_date a) _ w2) as [[[]|c|e] w3] eqn:Hu;
      pose proof (update_index_frame _ _ _ _ _ path Hu Hp3) as H3.
    + rewrite (after_index_no_push a _ Hno) in Hrun.
      destruct (printable (arg_date a)); injection Hrun as <- <-;
        cbn [files]; congruence.
    + injection Hrun as <- <-. congruence.
    + injection Hrun as <- <-. congruence.
  - rewrite Hm in Hrun. injection Hrun as <- <-. by apply Hframe.
Qed.

Lemma run_git_checked_cases l w :
  exists fs,
    run_git_checked l w = (Return tt, World fs (stdout w))
    \/ run_git_checked l w = (Raise CalledProcessError, World fs (stdout w)).
Proof.
  unfold run_git_checked. rewrite bind_run. unfold run_git.
  destruct (git l (files w)) as [c fs]. exists fs.
  destruct (c =? 0)%Z; [left|right]; reflexivity.
Qed.

(** X12: the commit-and-push step either returns, having printed after
    its first line exactly one of its two closing messages, or raises
    [CalledProcessError], having printed nothing after its first line; it
    ends in no other way. *)
Theorem X12_push_changes_outcomes date_str w o w' :
  push_changes date_str w = (o, w') ->
  (o = Return tt
   /\ (stdout w' = stdout w ++ [u "  Committing and pushing...";
                                u "  Pushed to GitHub!"]
       \/ stdout w' = stdout w
                        ++ [u "  Committing and pushing...";
                            u "  No changes to commit (already up to date)"]))
  \/ (o = Raise CalledProcessError
      /\ stdout w' = stdout w ++ [u "  Committing and pushing..."]).
Proof.
  unfold push_changes. rewrite bind_run.
  change (print (u "  Committing and pushing...") w)
    with (Return tt,
          World (files w) (stdout w ++ [u "  Committing and pushing..."])).
  set (w1 := World (files w) _). cbv beta iota.
  rewrite bind_run.
  destruct (run_git_checked_cases [u "add"; u "autotrader/daily/"] w1)
    as [fs1 [H|H]]; rewrite H; clear H.
  2:{ intros [= <- <-]. right. by split. }
  rewrite bind_run. unfold run_git at 1. cbn [files stdout].
  destruct (git [u "diff"; u "--cached"; u "--quiet"] fs1) as [c2 fs2].
  destruct (c2 =? 0)%Z; cbn [negb].
  { intros [= <- <-]. left. split; [done|]. right.
    cbn [stdout]. subst w1. cbn [stdout]. by rewrite <- app_assoc. }
  rewrite bind_run.
  destruct (run_git_checked_cases
              [u "commit"; u "-m";
               u "daily: " ++ date_str ++ u " market update"]
              (World fs2 (stdout w1))) as [fs3 [H|H]]; rewrite H; clear H.
  2:{ intros [= <- <-]. right. by split. }
  rewrite bind_run.
  destruct (run_git_checked_cases [u "pull"; u "--rebase"]
              (World fs3 (stdout (World fs2 (stdout w1)))))
    as [fs4 [H|H]]; rewrite H; clear H.
  2:{ intros [= <- <-]. right. by split. }
  rewrite bind_run.
  destruct (run_git_checked_cases [u "push"]
              (World fs4 (stdout (World fs3 (stdout (World fs2 (stdout w1)))))))
    as [fs5 [H|H]]; rewrite H; clear H.
  2:{ intros [= <- <-]. right. by split. }
  intros [= <- <-]. left. split; [done|]. left.
  cbn [stdout]. subst w1. cbn [stdout]. by rewrite <- app_assoc.
Qed.

(** *** What a match captures *)

Lemma match_k_sound {R} r :
  forall s caps (k : str -> captures -> option R) res,
    match_k r s caps k = Some res ->
    exists s' caps', matched r s caps s' caps' /\ k s' caps' = Some res.
Proof.
  induction r as [|l|p|a IHa b IHb|a IHa b IHb|p|p|n a IHa];
    intros s caps k res; cbn [match_k matched].
  - intros H. by exists s, caps.
  - destruct (strip_prefix l s) as [s'|] eqn:E; [|done].
    apply strip_prefix_Some in E. intros H. by exists s', caps.
  - destruct s as [|c s]; [done|]. destruct (p c) eqn:Hc; [|done].
    intros H. exists s, caps. split; [by exists c|done].
  - intros H. apply IHa in H as (s1 & caps1 & Ha & H).
    apply IHb in H as (s' & caps' & Hb & H).
    exists s', caps'. split; [by exists s1, caps1|done].
  - destruct (match_k a s caps k) as [x|] eqn:E.
    + intros [= <-]. apply IHa in E as (s' & caps' & Ha & H).
      exists s', caps'. by split; [left|].
    + intros H. apply IHb in H as (s' & caps' & Hb & H).
      exists s', caps'. by split; [right|].
  - intros H. apply star_greedy_inv in H as (ws & s' & -> & Hws & H).
    exists s', caps. split; [by exists ws|done].
  - intros H. apply star_lazy_inv in H as (ws & s' & -> & Hws & H & _).
    exists s', caps. split; [by exists ws|done].
  - intros H. apply IHa in H as (s' & caps1 & Ha & H).
    eexists s', _. split; [by exists caps1|done].
Qed.

Lemma match_here_sound r s m :
  match_here r s = Some m -> matched r s [] (after m) (groups m).
Proof.
  unfold match_here. intros H.
  apply match_k_sound in H as (s' & caps' & Hm & [= <-]). done.
Qed.

Lemma search_sound r s m :
  search r s = Some m -> exists p t, s = p ++ t /\ match_here r t = Some m.
Proof.
  induction s as [|c s IH]; cbn [search].
  - destruct (match_here r []) eqn:E; [|done]. intros [= <-]. by exists [], [].
  - destruct (match_here r (c :: s)) eqn:E.
    + intros [= <-]. by exists [], (c :: s).
    + intros H. destruct (IH H) as (p & t & -> & Ht). by exists (c :: p), t.
Qed.

Ltac inv_matched :=
  repeat match goal with
         | H : exists _, _ |- _ => destruct H as [? H]
         | H : _ /\ _ |- _ => destruct H as [? H]
         | H : _ \/ _ |- _ => destruct H as [H|H]
         end.

Lemma take_consumed_cons c (a b : str) :
  take (length (c :: a ++ b) - length b) (c :: a ++ b) = c :: a.
Proof. apply (take_consumed (c :: a) b). Qed.

Lemma tickers_groups t m :
  match_here tickers_re t = Some m ->
  exists c ws, group m 1 = c :: ws
               /\ isdecimal c = true /\ forallb isdecimal ws = true.
Proof.
  intros H. apply match_here_sound in H. unfold group.
  destruct m as [caps s']. cbn [groups after] in *.
  unfold tickers_re, Plus, Chr in H. cbn [matched] in H.
  inv_matched. subst.
  rewrite take_consumed_cons. cbn [group_of Nat.eqb]. eauto.
Qed.

Lemma score_label_groups s caps s' caps' :
  matched score_label_re s caps s' caps' ->
  exists d ds L Ls,
    caps' = (2, L :: Ls) :: (1, d :: ds) :: caps
    /\ isdecimal d = true /\ forallb isdecimal ds = true
    /\ isupper L = true /\ forallb upper_or_space Ls = true.
Proof.
  unfold score_label_re, Plus, Chr. cbn [matched]. intros H.
  inv_matched. subst.
  rewrite !take_consumed_cons. eauto 10.
Qed.

Lemma stock_groups t m :
  match_here stock_re t = Some m ->
  exists d ds L Ls,
    group m 1 = d :: ds /\ group m 2 = L :: Ls
    /\ isdecimal d = true /\ forallb isdecimal ds = true
    /\ isupper L = true /\ forallb upper_or_space Ls = true.
Proof.
  intros H. apply match_here_sound in H. unfold group.
  destruct m as [caps s']. cbn [groups after] in *.
  unfold stock_re in H. cbn [matched] in H.
  destruct H as (s1 & caps1 & [_ ->] & H).
  apply score_label_groups in H as (d & ds & L & Ls & -> & H).
  exists d, ds, L, Ls. by cbn [group_of Nat.eqb].
Qed.

Lemma crypto_groups t m :
  match_here crypto_re t = Some m ->
  exists d ds L Ls,
    group m 1 = d :: ds /\ group m 2 = L :: Ls
    /\ isdecimal d = true /\ forallb isdecimal ds = true
    /\ isupper L = true /\ forallb upper_or_space Ls = true.
Proof.
  intros H. apply match_here_sound in H. unfold group.
  destruct m as [caps s']. cbn [groups after] in *.
  unfold crypto_re in H. cbn [matched] in H.
  destruct H as (s1 & caps1 & [_ ->] & s2 & caps2 & Hopt & H).
  assert (caps2 = []) as ->.
  { unfold Opt, Plus in Hopt. cbn [matched] in Hopt.
    inv_matched; by subst. }
  apply score_label_groups in H as (d & ds & L & Ls & -> & H).
  exists d, ds, L, Ls. by cbn [group_of Nat.eqb].
Qed.

Lemma trades_groups t m :
  match_here trades_re t = Some m ->
  exists c ws, group m 1 = c :: ws
               /\ isdecimal c = true /\ forallb isdecimal ws = true.
Proof.
  intros H. apply match_here_sound in H. unfold group.
  destruct m as [caps s']. cbn [groups after] in *.
  unfold trades_re, Opt, Plus, Chr in H. cbn [matched] in H.
  inv_matched; subst;
    rewrite take_consumed_cons; cbn [group_of Nat.eqb]; eauto.
Qed.

(** *** The fragments of a description *)

Lemma digits_no_lt ws : forallb isdecimal ws = true -> no_lt ws = true.
Proof.
  unfold no_lt. induction ws as [|c ws IH]; [done|]. cbn [forallb].
  intros H. apply andb_prop in H as [Hc Hws].
  by rewrite (isdecimal_not_lt _ Hc), IH.
Qed.

Lemma title_no_lt b s :
  forallb upper_or_space s = true -> no_lt (title_from b s) = true.
Proof.
  unfold no_lt. revert b; induction s as [|c s IH]; intros b; [done|].
  cbn [forallb title_from]. intros H. apply andb_prop in H as [Hc Hs].
  rewrite (IH _ Hs), andb_true_r.
  apply negb_true_iff, N.eqb_neq.
  unfold upper_or_space in Hc. apply orb_prop in Hc as [Hc|Hc].
  - unfold to_lower, to_upper, islower. rewrite Hc.
    unfold isupper in Hc. apply andb_prop in Hc as [H1 H2].
    apply N.leb_le in H1, H2.
    destruct b; [lia|].
    destruct ((97 <=? c) && (c <=? 122))%N; lia.
  - apply N.eqb_eq in Hc as ->. by destruct b.
Qed.

Lemma not_next_app p (x y : str) :
  x <> [] -> not_next p x = true -> not_next p (x ++ y) = true.
Proof. by destruct x. Qed.

Lemma fragment_ok_app a mid b :
  fragment_ok a -> no_lt mid = true -> fragment_ok b ->
  fragment_ok (a ++ mid ++ b).
Proof.
  intros (Ha & Hal & Haf & Hat) Hmid (Hb & Hbl & Hbf & Hbt).
  split; [by destruct a|].
  split; [by rewrite !no_lt_app, Hal, Hmid, Hbl|].
  split; [by apply not_next_app|].
  rewrite !rev_app_distr, <- app_assoc. apply not_next_app; [|done].
  intros H. apply (f_equal (@rev N)) in H. by rewrite rev_involutive in H.
Qed.

Lemma fragment_ok_join parts :
  parts <> [] -> Forall fragment_ok parts ->
  fragment_ok (join (u " &middot; ") parts).
Proof.
  induction parts as [|p parts IH]; [done|]. intros _ H.
  apply Forall_cons in H as [Hp Hps].
  destruct parts as [|q parts]; [done|].
  change (join (u " &middot; ") (p :: q :: parts))
    with (p ++ u " &middot; " ++ join (u " &middot; ") (q :: parts)).
  apply fragment_ok_app; [done|reflexivity|]. by apply IH.
Qed.

Lemma fragment_ok_strip p : fragment_ok p -> strip p = p.
Proof.
  intros (_ & _ & Hf & Ht). unfold strip, rstrip.
  rewrite (lstrip_fixed p Hf), (lstrip_fixed _ Ht). apply rev_involutive.
Qed.

Lemma no_lt_no_card_end D : no_lt D = true -> no_card_end D = true.
Proof.
  intros H. unfold no_card_end. apply forallb_forall. intros i _.
  assert (Hd : no_lt (drop i D) = true).
  { rewrite <- (take_drop i D), no_lt_app in H.
    by apply andb_prop in H as [_ H]. }
  unfold match_here, card_close_re. cbn [match_k].
  destruct (drop i D) as [|c s] eqn:E; [done|].
  unfold no_lt in Hd. cbn [forallb] in Hd. apply andb_prop in Hd as [Hc _].
  change (u "</p>") with (60%N :: u "/p>"). cbn [strip_prefix].
  rewrite N.eqb_sym. by destruct (c =? 60)%N.
Qed.

Lemma no_lt_no_END D : no_lt D = true -> contains D ENTRY_END = false.
Proof.
  intros H. destruct (contains D ENTRY_END) eqn:E; [|done]. exfalso.
  apply contains_found in E as (a & b & HD & _).
  pose proof (absent_no_lt ENTRY_END D [] tag_like_END H a b) as Hab.
  rewrite app_nil_r in Hab. specialize (Hab HD).
  rewrite HD, !length_app in Hab.
  assert (0 < length ENTRY_END) by (vm_compute; lia). lia.
Qed.

Lemma digits_no_cr ws : forallb isdecimal ws = true -> no_cr ws = true.
Proof.
  unfold no_cr. induction ws as [|c ws IH]; [done|]. cbn [forallb].
  intros H. apply andb_prop in H as [Hc Hws]. rewrite IH, andb_true_r by done.
  destruct (N.eqb_spec c 13) as [->|]; [|done].
  by rewrite isdecimal_ascii in Hc.
Qed.

Lemma title_no_cr b s :
  forallb upper_or_space s = true -> no_cr (title_from b s) = true.
Proof.
  unfold no_cr. revert b; induction s as [|c s IH]; intros b; [done|].
  cbn [forallb title_from]. intros H. apply andb_prop in H as [Hc Hs].
  rewrite (IH _ Hs), andb_true_r.
  apply negb_true_iff, N.eqb_neq.
  unfold upper_or_space in Hc. apply orb_prop in Hc as [Hc|Hc].
  - unfold to_lower, to_upper, islower. rewrite Hc.
    unfold isupper in Hc. apply andb_prop in Hc as [H1 H2].
    apply N.leb_le in H1, H2.
    destruct b; [lia|].
    destruct ((97 <=? c) && (c <=? 122))%N; lia.
  - apply N.eqb_eq in Hc as ->. by destruct b.
Qed.

Lemma no_cr_join parts :
  Forall (fun p => no_cr p = true) parts ->
  no_cr (join (u " &middot; ") parts) = true.
Proof.
  induction parts as [|p parts IH]; [done|]. intros H.
  apply Forall_cons in H as [Hp Hps].
  destruct parts as [|q parts]; [done|].
  change (join (u " &middot; ") (p :: q :: parts))
    with (p ++ u " &middot; " ++ join (u " &middot; ") (q :: parts)).
  rewrite !no_cr_app, Hp, (IH Hps). reflexivity.
Qed.

Lemma no_cr_count c ws (lit : str) :
  isdecimal c = true -> forallb isdecimal ws = true -> no_cr lit = true ->
  no_cr ((c :: ws) ++ lit) = true.
Proof.
  intros Hc Hws Hl. rewrite no_cr_app, Hl, andb_true_r.
  apply digits_no_cr. cbn [forallb]. by rewrite Hc, Hws.
Qed.

Lemma no_cr_sentiment (name : str) d ds L Ls :
  no_cr name = true ->
  isdecimal d = true -> forallb isdecimal ds = true ->
  isupper L = true -> forallb upper_or_space Ls = true ->
  no_cr (name ++ title (strip (L :: Ls)) ++ u " (" ++ (d :: ds)
           ++ u "/100)") = true.
Proof.
  intros Hn Hd Hds HL HLs. rewrite !no_cr_app, Hn. cbn [andb]. unfold title.
  rewrite title_no_cr.
  2:{ apply forallb_strip. cbn [forallb]. unfold upper_or_space at 1.
      by rewrite HL, HLs. }
  rewrite (digits_no_cr (d :: ds)); [reflexivity|].
  cbn [forallb]. by rewrite Hd, Hds.
Qed.

(** No description holds a carriage return. *)
Lemma description_no_cr email_html :
  no_cr (extract_description email_html) = true.
Proof.
  unfold extract_description. set (text := plain_text email_html).
  assert (H : Forall (fun p => no_cr p = true)
                (tickers_part text
                   ++ sentiment_part stock_re (u "Market sentiment: ") text
                   ++ sentiment_part crypto_re (u "Crypto: ") text
                   ++ trades_part text)).
  { repeat apply Forall_app_2.
    - unfold tickers_part. destruct (search tickers_re text) as [m|] eqn:E;
        [|constructor].
      apply search_sound in E as (p & t & _ & E).
      apply tickers_groups in E as (c & ws & -> & Hc & Hws).
      apply Forall_singleton. by apply no_cr_count.
    - unfold sentiment_part. destruct (search stock_re text) as [m|] eqn:E;
        [|constructor].
      apply search_sound in E as (p & t & _ & E).
      apply stock_groups in E
        as (d & ds & L & Ls & -> & -> & H1 & H2 & H3 & H4).
      apply Forall_singleton. by apply no_cr_sentiment.
    - unfold sentiment_part. destruct (search crypto_re text) as [m|] eqn:E;
        [|constructor].
      apply search_sound in E as (p & t & _ & E).
      apply crypto_groups in E
        as (d & ds & L & Ls & -> & -> & H1 & H2 & H3 & H4).
      apply Forall_singleton. by apply no_cr_sentiment.
    - unfold trades_part. destruct (search trades_re text) as [m|] eqn:E;
        [|constructor].
      apply search_sound in E as (p & t & _ & E).
      apply trades_groups in E as (c & ws & -> & Hc & Hws).
      apply Forall_singleton. by apply no_cr_count. }
  destruct (_ ++ _) as [|p parts] eqn:E; [reflexivity|].
  by apply no_cr_join.
Qed.

Section Fragments.
Hypothesis digit_not_space : forall c, isdecimal c = true -> isspace c = false.

Lemma fragment_ok_count c ws (lit : str) :
  isdecimal c = true -> forallb isdecimal ws = true ->
  lit <> [] -> no_lt lit = true -> not_next isspace (rev lit) = true ->
  fragment_ok ((c :: ws) ++ lit).
Proof.
  intros Hc Hws Hne Hl Ht.
  split; [done|].
  split.
  { rewrite no_lt_app, Hl, andb_true_r.
    apply (digits_no_lt (c :: ws)). cbn [forallb]. by rewrite Hc, Hws. }
  split; [cbn [app not_next]; by rewrite (digit_not_space _ Hc)|].
  rewrite rev_app_distr. apply not_next_app; [|done].
  intros H. apply (f_equal (@rev N)) in H. by rewrite rev_involutive in H.
Qed.

Lemma fragment_ok_sentiment (name : str) d ds L Ls :
  name <> [] -> no_lt name = true -> not_next isspace name = true ->
  isdecimal d = true -> forallb isdecimal ds = true ->
  isupper L = true -> forallb upper_or_space Ls = true ->
  fragment_ok (name ++ title (strip (L :: Ls)) ++ u " (" ++ (d :: ds)
                 ++ u "/100)").
Proof.
  intros Hne Hnl Hnf Hd Hds HL HLs.
  split; [by destruct name|].
  split.
  { rewrite !no_lt_app, Hnl. cbn [andb]. unfold title.
    rewrite title_no_lt.
    2:{ apply forallb_strip. cbn [forallb]. unfold upper_or_space at 1.
        by rewrite HL, HLs. }
    rewrite (digits_no_lt (d :: ds)); [reflexivity|].
    cbn [forallb]. by rewrite Hd, Hds. }
  split; [by apply not_next_app|].
  rewrite !app_assoc, rev_app_distr. apply not_next_app; [|reflexivity].
  vm_compute. discriminate.
Qed.

Lemma parts_ok email_html :
  Forall fragment_ok
    (tickers_part (plain_text email_html)
       ++ sentiment_part stock_re (u "Market sentiment: ")
            (plain_text email_html)
       ++ sentiment_part crypto_re (u "Crypto: ") (plain_text email_html)
       ++ trades_part (plain_text email_html)).
Proof.
  set (text := plain_text email_html).
  repeat apply Forall_app_2.
  - unfold tickers_part. destruct (search tickers_re text) as [m|] eqn:E;
      [|constructor].
    apply search_sound in E as (p & t & _ & E).
    apply tickers_groups in E as (c & ws & -> & Hc & Hws).
    apply Forall_singleton.
    by apply fragment_ok_count.
  - unfold sentiment_part. destruct (search stock_re text) as [m|] eqn:E;
      [|constructor].
    apply search_sound in E as (p & t & _ & E).
    apply stock_groups in E as (d & ds & L & Ls & -> & -> & H1 & H2 & H3 & H4).
    apply Forall_singleton.
    by apply fragment_ok_sentiment.
  - unfold sentiment_part. destruct (search crypto_re text) as [m|] eqn:E;
      [|constructor].
    apply search_sound in E as (p & t & _ & E).
    apply crypto_groups in E as (d & ds & L & Ls & -> & -> & H1 & H2 & H3 & H4).
    apply Forall_singleton.
    by apply fragment_ok_sentiment.
  - unfold trades_part. destruct (search trades_re text) as [m|] eqn:E;
      [|constructor].
    apply search_sound in E as (p & t & _ & E).
    apply trades_groups in E as (c & ws & -> & Hc & Hws).
    apply Forall_singleton.
    by apply fragment_ok_count.
Qed.

Lemma description_ok email_html : fragment_ok (extract_description email_html).
Proof.
  unfold extract_description. pose proof (parts_ok email_html) as H.
  destruct (_ ++ _) as [|p parts] eqn:E.
  - split; [vm_compute; discriminate|]. repeat split; reflexivity.
  - by apply fragment_ok_join.
Qed.

(** X13: whatever the email, the description [extract_description]
    returns is not empty, has no whitespace at either end and no [<]; so it
    holds neither the end of a card nor the end marker.  The digits are
    assumed not to be whitespace. *)
Theorem X13_description_fits_a_card email_html :
  extract_description email_html <> []
  /\ strip (extract_description email_html) = extract_description email_html
  /\ no_lt (extract_description email_html) = true
  /\ no_card_end (extract_description email_html) = true
  /\ contains (extract_description email_html) ENTRY_END = false.
Proof.
  pose proof (description_ok email_html) as H.
  pose proof H as (Hne & Hlt & _).
  split; [done|]. split; [by apply fragment_ok_strip|]. split; [done|].
  split; [by apply no_lt_no_card_end|by apply no_lt_no_END].
Qed.

End Fragments.

(** *** From the email to the index *)

(** What is read from a file depends on the files only. *)
Lemma read_file_files path w w' text :
  read_file path w = (Return text, w) -> files w' = files w ->
  read_file path w' = (Return text, w').
Proof.
  unfold read_file. intros H ->.
  destruct (files w !! path) as [[raw|bytes]|]; [|done..].
  by injection H as ->.
Qed.

(** X14: after a run with [--no-push] that returns, for a zero-padded
    date and an index document whose start marker ends before its end
    marker begins, the entries read from the new index are the prior ones
    with the run's date mapped to the description extracted from the
    source email.  The digits are assumed not to be whitespace. *)
Theorem X14_published_entry_is_read_back a w w' email index :
  (forall c, isdecimal c = true -> isspace c = false) ->
  arg_no_push a = true ->
  is_card_date (arg_date a) = true ->
  files w !! arg_source a = Some (Text email) ->
  files w !! INDEX_PATH = Some (Text index) ->
  (0 <= find (universal_newlines index) ENTRY_START)%Z ->
  (find (universal_newlines index) ENTRY_START
   + Z.of_nat (length ENTRY_START)
   <= find (universal_newlines index) ENTRY_END)%Z ->
  main a w = (Return tt, w') ->
  exists new,
    read_file INDEX_PATH w' = (Return new, w')
    /\ parse_existing_entries new
       = <[arg_date a :=
             Info (extract_description (universal_newlines email))]>
           (parse_existing_entries (universal_newlines index)).
Proof.
  intros Hds Hno Hcard Hs Hi H0 Hord Hrun.
  destruct (strptime (arg_date a)) as [date_obj|] eqn:Hd.
  2:{ rewrite (main_invalid_date a w Hd) in Hrun.
      by destruct (printable _). }
  destruct (main_cases a w date_obj Hd)
    as [(_ & _ & Hm)|[[email0 Hr]|(e & w1 & Hm & _)]];
    [congruence| |congruence].
  pose proof Hr as (_ & Hs0 & _).
  assert (email0 = email) as -> by congruence.
  rewrite (main_reaches_index a w _ _ Hr), bind_run in Hrun.
  set (w2 := World _ _) in Hrun.
  assert (Hidx : files w2 !! INDEX_PATH = Some (Text index)).
  { subst w2. cbn [files].
    by rewrite (index_after_copy a w date_obj _ _ Hd). }
  destruct (update_index (arg_date a) _ w2) as [[[]|c|e] w3] eqn:Hu;
    [|discriminate..].
  rewrite (after_index_no_push a _ Hno) in Hrun.
  destruct (printable (arg_date a)); [|discriminate].
  injection Hrun as <-.
  pose proof (description_ok Hds (universal_newlines email)) as Hok.
  pose proof Hok as (_ & Hlt & _).
  destruct (update_index_reads_back w2 w3 index (arg_date a) _
              Hidx H0 Hord Hcard (fragment_ok_strip _ Hok)
              (no_lt_no_card_end _ Hlt) (no_lt_no_END _ Hlt) Hu)
    as (new & Hread & Hparse).
  exists new. split; [by apply (read_file_files _ w3)|].
  rewrite Hparse.
  by rewrite (universal_newlines_no_cr _ (description_no_cr _)).
Qed.

(** X15: scanning the region [generate_entries_html] writes finds one
    card for each key of the mapping, in strictly descending order of the
    date strings. *)
Theorem X15_cards_in_descending_order (entries : gmap str info) g :
  (forall k i, entries !! k = Some i ->
               is_card_date k = true
               /\ strip (description i) = description i
               /\ no_card_end (description i) = true
               /\ contains (description i) ENTRY_END = false) ->
  generate_entries_html entries = Some g ->
  List.map (fun m => group m 1) (finditer card_pattern g)
  = sorted_desc (map_to_list entries).*1
  /\ StronglySorted str_gt (sorted_desc (map_to_list entries).*1).
Proof.
  intros Hwf Hg. split.
  2:{ apply sorted_desc_sorted, NoDup_fst_map_to_list. }
  destruct (decide (entries = ∅)) as [->|Hne].
  { injection Hg as <-. by rewrite map_to_list_empty. }
  destruct (generate_nonempty entries g Hne Hg) as (lines & Hl & Hflat & _).
  assert (Hgood : forall k, k ∈ sorted_desc (map_to_list entries).*1 ->
                            good entries k).
  { intros k Hk. apply well_formed_good; [done|].
    by apply elem_of_sorted_dates. }
  pose proof (lines_finditer entries _ None lines [] Hl Hgood) as H.
  rewrite app_nil_r, Hflat in H. cbn [finditer_scan List.map] in H.
  rewrite app_nil_r in H.
  rewrite finditer_skip in H
    by (apply absent_no_lt; [apply tag_like_OPEN|reflexivity]).
  apply (f_equal (List.map fst)) in H.
  rewrite !List.map_map in H. cbn [entry_of fst] in H.
  unfold finditer. rewrite List.map_id in H. exact H.
Qed.

Lemma head_join (sep p : str) ps : p <> [] -> head (join sep (p :: ps)) = head p.
Proof. destruct p as [|c p]; [done|]. intros _. by destruct ps. Qed.

Lemma parts_head email_html p ps :
  tickers_part (plain_text email_html)
    ++ sentiment_part stock_re (u "Market sentiment: ")
         (plain_text email_html)
    ++ sentiment_part crypto_re (u "Crypto: ") (plain_text email_html)
    ++ trades_part (plain_text email_html) = p :: ps ->
  exists c p', p = c :: p' /\ c <> 68%N.
Proof.
  set (text := plain_text email_html).
  assert (Hdigit : forall c, isdecimal c = true -> c <> 68%N).
  { intros c Hc ->. by rewrite isdecimal_ascii in Hc. }
  unfold tickers_part.
  destruct (search tickers_re text) as [m|] eqn:E1.
  { apply search_sound in E1 as (? & t & _ & E1).
    apply tickers_groups in E1 as (c & ws & -> & Hc & _).
    intros [= <- _]. exists c. eexists. split; [reflexivity|auto]. }
  unfold sentiment_part at 1.
  destruct (search stock_re text) as [m|] eqn:E2.
  { intros [= <- _]. by exists 77%N; eexists. }
  unfold sentiment_part at 1.
  destruct (search crypto_re text) as [m|] eqn:E3.
  { intros [= <- _]. by exists 67%N; eexists. }
  unfold trades_part.
  destruct (search trades_re text) as [m|] eqn:E4; [|done].
  apply search_sound in E4 as (? & t & _ & E4).
  apply trades_groups in E4 as (c & ws & -> & Hc & _).
  intros [= <- _]. exists c. eexists. split; [reflexivity|auto].
Qed.

(** X16: [extract_description] returns the fallback text exactly when
    none of its four patterns is found in the text of the email. *)
Theorem X16_fallback_exactly_when_nothing_matches email_html :
  extract_description email_html = FALLBACK
  <-> search tickers_re (plain_text email_html) = None
      /\ search stock_re (plain_text email_html) = None
      /\ search crypto_re (plain_text email_html) = None
      /\ search trades_re (plain_text email_html) = None.
Proof.
  split.
  - unfold extract_description.
    destruct (_ ++ _) as [|p ps] eqn:E.
    + intros _. revert E.
      unfold tickers_part, sentiment_part, trades_part.
      destruct (search tickers_re _); [done|].
      destruct (search stock_re _); [done|].
      destruct (search crypto_re _); [done|].
      by destruct (search trades_re _).
    + intros H. exfalso.
      apply parts_head in E as (c & p' & -> & Hc).
      apply (f_equal head) in H. rewrite head_join in H by done.
      cbn [head] in H. injection H as ->. done.
  - intros (H1 & H2 & H3 & H4).
    unfold extract_description, tickers_part, sentiment_part, trades_part.
    by rewrite H1, H2, H3, H4.
Qed.

(** *** The order of the cards, and the wrapper page *)

(** X18: for a mapping whose keys are all zero-padded dates, the order in
    which [generate_entries_html] takes the keys is strictly descending
    calendar order, over any number of months. *)
Theorem X18_zero_padded_keys_calendar_order (entries : gmap str info) :
  forallb canonical (map_to_list entries).*1 = true ->
  StronglySorted later (sorted_desc (map_to_list entries).*1).
Proof.
  intros Hc. apply sorted_later.
  - rewrite sorted_desc_perm. apply Forall_forall. intros k Hk.
    rewrite forallb_forall in Hc. apply Hc. by apply list_elem_of_In.
  - apply sorted_desc_sorted, NoDup_fst_map_to_list.
Qed.

Lemma join_elem_occurs sep (l : str) lines :
  l ∈ lines -> occurs l (join sep lines).
Proof.
  induction lines as [|x lines IH]; intros H; [by apply elem_of_nil in H|].
  apply elem_of_cons in H as [->|H].
  - destruct lines as [|y lines].
    + exists [], []. by rewrite app_nil_r.
    + exists [], (sep ++ join sep (y :: lines)). reflexivity.
  - destruct lines as [|y lines]; [by apply elem_of_nil in H|].
    destruct (IH H) as (a & b & Hj).
    exists (x ++ sep ++ a), b.
    change (join sep (x :: y :: lines)) with (x ++ sep ++ join sep (y :: lines)).
    rewrite Hj. by rewrite <- !app_assoc.
Qed.

(** X19: the wrapper page holds an [iframe] whose [src], resolved against
    the directory the page is written to, is the path the email was copied
    to: the page embeds the archived copy of its own date. *)
Theorem X19_wrapper_embeds_archived_email date_str date_obj :
  strptime date_str = Some date_obj ->
  occurs (uq "<iframe src='" ++ (u "emails/" ++ date_str ++ u ".html")
            ++ uq "' class='email-iframe' id='emailFrame'></iframe>")
    (wrapper_page date_str date_obj)
  /\ path_join DAILY_DIR (u "emails/" ++ date_str ++ u ".html")
     = path_join EMAILS_DIR (date_str ++ u ".html").
Proof.
  intros Hd. split.
  - unfold wrapper_page. apply (occurs_infix _ _ [] [10%N]).
    set (line := uq "  <iframe src='emails/" ++ date_str
                   ++ uq ".html' class='email-iframe' id='emailFrame'></iframe>").
    assert (Hin : line ∈ wrapper_lines date_str date_obj).
    { apply list_elem_of_lookup. exists 121. reflexivity. }
    destruct (join_elem_occurs [10%N] line _ Hin) as (a & b & ->).
    exists (a ++ [32; 32]%N), b. subst line.
    rewrite <- !app_assoc. reflexivity.
  - rewrite DAILY_DIR_join by done.
    destruct (path_join_relative EMAILS_DIR (date_str ++ u ".html")
                (date_file_relative _ _ Hd)) as (sep & -> & _ & Hsep).
    rewrite Hsep.
    + rewrite EMAILS_DIR_eq, <- !app_assoc. reflexivity.
    + rewrite EMAILS_DIR_eq. by destruct DAILY_DIR.
    + rewrite EMAILS_DIR_eq.
      change (u "emails") with (u "email" ++ [115%N]).
      rewrite (app_assoc [47%N]), last_app_cons. done.
Qed.

(** *** Zero-padded dates are accepted *)

Lemma digit_facts a :
  (a <= 9)%N ->
  isdecimal (48 + a) = true /\ decimal (48 + a) = Some a
  /\ isspace (48 + a) = false.
Proof.
  intros Ha.
  assert (H : (a = 0 \/ a = 1 \/ a = 2 \/ a = 3 \/ a = 4 \/ a = 5 \/ a = 6
               \/ a = 7 \/ a = 8 \/ a = 9)%N) by lia.
  repeat (destruct H as [->|H]; [by (repeat split)|]).
  subst a. by (repeat split).
Qed.

Lemma int_of_pad2 n : (n < 100)%N -> int_of (pad2 n) = n.
Proof.
  intros Hn. destruct (digits2 n Hn) as (a & b & (Ha & Hb & ->) & ->).
  destruct (digit_facts a Ha) as (_ & Hda & Hsa).
  destruct (digit_facts b Hb) as (_ & Hdb & Hsb).
  unfold int_of. rewrite strip_fixed.
  - cbn [fold_left]. rewrite Hda, Hdb. lia.
  - cbn [not_next]. by rewrite Hsa.
  - cbn [rev app not_next]. by rewrite Hsb.
Qed.

Lemma int_of_pad4 n : (n < 10000)%N -> int_of (pad4 n) = n.
Proof.
  intros Hn.
  destruct (digits4 n Hn) as (a & b & c & e & (Ha & Hb & Hc & He & ->) & ->).
  destruct (digit_facts a Ha) as (_ & Hda & Hsa).
  destruct (digit_facts b Hb) as (_ & Hdb & _).
  destruct (digit_facts c Hc) as (_ & Hdc & _).
  destruct (digit_facts e He) as (_ & Hde & Hse).
  unfold int_of. rewrite strip_fixed.
  - cbn [fold_left]. rewrite Hda, Hdb, Hdc, Hde. lia.
  - cbn [not_next]. by rewrite Hsa.
  - cbn [rev app not_next]. by rewrite Hse.
Qed.

Lemma take_consumed2 (a b : N) (rest : str) :
  take (length (a :: b :: rest) - length rest) (a :: b :: rest) = [a; b].
Proof. apply (take_consumed [a; b] rest). Qed.

Lemma take_consumed4 (a b c e : N) (rest : str) :
  take (length (a :: b :: c :: e :: rest) - length rest)
    (a :: b :: c :: e :: rest) = [a; b; c; e].
Proof. apply (take_consumed [a; b; c; e] rest). Qed.

Lemma year_match {R} y rest caps (k : str -> captures -> option R) r :
  (y < 10000)%N ->
  k rest ((1, pad4 y) :: caps) = Some r ->
  match_k (Grp 1 (Seq (Cls isdecimal) (Seq (Cls isdecimal)
                    (Seq (Cls isdecimal) (Cls isdecimal)))))
    (pad4 y ++ rest) caps k = Some r.
Proof.
  intros Hy Hk.
  destruct (digits4 y Hy) as (a & b & c & e & (Ha & Hb & Hc & He & _) & Hp).
  rewrite Hp in Hk |- *.
  destruct (digit_facts a Ha) as (Ha' & _).
  destruct (digit_facts b Hb) as (Hb' & _).
  destruct (digit_facts c Hc) as (Hc' & _).
  destruct (digit_facts e He) as (He' & _).
  cbn [match_k app]. rewrite Ha', Hb', Hc', He'.
  by rewrite take_consumed4.
Qed.

Ltac pad_case Hk :=
  intros Hk; vm_compute pad2 in Hk |- *;
  cbn [match_k app Chr in_range isdecimal decimal N.eqb N.leb N.ltb N.compare
       Pos.eqb Pos.compare Pos.compare_cont andb];
  rewrite take_consumed2, Hk; reflexivity.

Lemma month_match {R} m rest caps (k : str -> captures -> option R) r :
  (1 <= m <= 12)%N ->
  k rest ((2, pad2 m) :: caps) = Some r ->
  match_k (Grp 2 (Alt (Seq (Chr 49) (Cls (in_range 48 50)))
                   (Alt (Seq (Chr 48) (Cls (in_range 49 57)))
                        (Cls (in_range 49 57)))))
    (pad2 m ++ rest) caps k = Some r.
Proof.
  intros Hm.
  assert (H : (m = 1 \/ m = 2 \/ m = 3 \/ m = 4 \/ m = 5 \/ m = 6 \/ m = 7
               \/ m = 8 \/ m = 9 \/ m = 10 \/ m = 11 \/ m = 12)%N) by lia.
  repeat (destruct H as [->|H]; [pad_case Hk|]). subst m. pad_case Hk.
Qed.

Lemma day_match {R} d rest caps (k : str -> captures -> option R) r :
  (1 <= d <= 31)%N ->
  k rest ((3, pad2 d) :: caps) = Some r ->
  match_k (Grp 3 (Alt (Seq (Chr 51) (Cls (in_range 48 49)))
                   (Alt (Seq (Cls (in_range 49 50)) (Cls isdecimal))
                   (Alt (Seq (Chr 48) (Cls (in_range 49 57)))
                   (Alt (Cls (in_range 49 57))
                        (Seq (Chr 32) (Cls (in_range 49 57))))))))
    (pad2 d ++ rest) caps k = Some r.
Proof.
  intros Hd.
  assert (H : (d = 1 \/ d = 2 \/ d = 3 \/ d = 4 \/ d = 5 \/ d = 6 \/ d = 7
               \/ d = 8 \/ d = 9 \/ d = 10 \/ d = 11 \/ d = 12 \/ d = 13
               \/ d = 14 \/ d = 15 \/ d = 16 \/ d = 17 \/ d = 18 \/ d = 19
               \/ d = 20 \/ d = 21 \/ d = 22 \/ d = 23 \/ d = 24 \/ d = 25
               \/ d = 26 \/ d = 27 \/ d = 28 \/ d = 29 \/ d = 30
               \/ d = 31)%N) by lia.
  repeat (destruct H as [->|H]; [pad_case Hk|]). subst d. pad_case Hk.
Qed.

Lemma match_chr {R} c s caps (k : str -> captures -> option R) :
  match_k (Chr c) (c :: s) caps k = k s caps.
Proof. unfold Chr. cbn [match_k]. by rewrite N.eqb_refl. Qed.

Lemma strptime_isoformat_match y m d :
  (y < 10000)%N -> (1 <= m <= 12)%N -> (1 <= d <= 31)%N ->
  match_here strptime_re (isoformat (Date y m d))
  = Some (Match [(3, pad2 d); (2, pad2 m); (1, pad4 y)] []).
Proof.
  intros Hy Hm Hd. unfold match_here, strptime_re, isoformat.
  cbn [year month day].
  rewrite match_seq. apply year_match; [done|]. cbv beta.
  rewrite match_seq.
  change ([45%N] ++ pad2 m ++ [45%N] ++ pad2 d)
    with (45%N :: pad2 m ++ [45%N] ++ pad2 d).
  rewrite match_chr, match_seq. apply month_match; [done|]. cbv beta.
  rewrite match_seq.
  change ([45%N] ++ pad2 d) with (45%N :: pad2 d).
  rewrite match_chr. rewrite <- (app_nil_r (pad2 d)).
  apply day_match; [done|]. reflexivity.
Qed.

(** X20: every calendar date, written zero-padded as [YYYY-MM-DD], is
    accepted by [strptime] as that date and has the form of a card
    date. *)
Theorem X20_zero_padded_date_is_accepted y m d :
  valid_date y m d = true ->
  strptime (isoformat (Date y m d)) = Some (Date y m d)
  /\ is_card_date (isoformat (Date y m d)) = true.
Proof.
  intros Hv. pose proof Hv as Hb. unfold valid_date in Hb.
  repeat (apply andb_prop in Hb as [Hb ?]).
  repeat match goal with H : (_ <=? _)%N = true |- _ => apply N.leb_le in H end.
  pose proof (days_in_month_le y m).
  assert (Hy : (y < 10000)%N) by lia.
  assert (Hm : (1 <= m <= 12)%N) by lia.
  assert (Hd : (1 <= d <= 31)%N) by lia.
  split.
  - unfold strptime. rewrite strptime_isoformat_match by done.
    cbn [after]. unfold group. cbn [groups group_of Nat.eqb].
    rewrite int_of_pad4, !int_of_pad2 by lia. by rewrite Hv.
  - unfold isoformat. cbn [year month day].
    destruct (digits4 y Hy) as (a & b & c & e & (Ha & Hb' & Hc & He & _) & ->).
    destruct (digits2 m ltac:(lia)) as (m1 & m2 & (Hm1 & Hm2 & _) & ->).
    destruct (digits2 d ltac:(lia)) as (d1 & d2 & (Hd1 & Hd2 & _) & ->).
    cbn [app is_card_date].
    rewrite (proj1 (digit_facts a Ha)), (proj1 (digit_facts b Hb')),
      (proj1 (digit_facts c Hc)), (proj1 (digit_facts e He)),
      (proj1 (digit_facts m1 Hm1)), (proj1 (digit_facts m2 Hm2)),
      (proj1 (digit_facts d1 Hd1)), (proj1 (digit_facts d2 Hd2)).
    reflexivity.
Qed.

(** *** Collapsing whitespace *)

Lemma sub_scan_skip r repl (a b : str) :
  sub_scan r repl (a ++ b) (length a) = sub_scan r repl b 0.
Proof.
  induction a as [|c a IH]; simpl; [|done].
  destruct b; simpl; done.
Qed.

Lemma space_run s :
  exists ws, s = ws ++ lstrip s /\ forallb isspace ws = true.
Proof.
  induction s as [|c s (ws & Hs & Hws)]; simpl; [by exists []|].
  destruct (isspace c) eqn:E; [|by exists []].
  exists (c :: ws). simpl. rewrite E, Hws. split; [by f_equal|done].
Qed.

Lemma spaces_match ws rest :
  ws <> [] -> forallb isspace ws = true -> not_next isspace rest = true ->
  match_here spaces_re (ws ++ rest) = Some (Match [] rest).
Proof.
  intros Hne Hws Hrest. destruct ws as [|c ws]; [done|].
  cbn [forallb] in Hws. apply andb_prop in Hws as [Hc Hws].
  unfold match_here, spaces_re, Plus. cbn [match_k app]. rewrite Hc.
  by apply star_greedy_app.
Qed.

Lemma spaces_no_match c s :
  isspace c = false -> match_here spaces_re (c :: s) = None.
Proof.
  intros Hc. unfold match_here, spaces_re, Plus. cbn [match_k].
  by rewrite Hc.
Qed.

Lemma collapse_run ws rest :
  ws <> [] -> forallb isspace ws = true -> not_next isspace rest = true ->
  re_sub spaces_re (u " ") (ws ++ rest)
  = 32%N :: re_sub spaces_re (u " ") rest.
Proof.
  intros Hne Hws Hrest. unfold re_sub.
  pose proof (spaces_match ws rest Hne Hws Hrest) as Hm.
  destruct ws as [|c ws]; [done|].
  cbn [app sub_scan]. change (c :: ws ++ rest) with ((c :: ws) ++ rest).
  rewrite Hm. cbn [after]. rewrite length_app.
  replace (length (c :: ws) + length rest - length rest)
    with (S (length ws)) by (simpl; lia).
  by rewrite sub_scan_skip.
Qed.

Lemma collapse_keep c s :
  isspace c = false ->
  re_sub spaces_re (u " ") (c :: s) = c :: re_sub spaces_re (u " ") s.
Proof.
  intros Hc. unfold re_sub. cbn [sub_scan].
  by rewrite (spaces_no_match c s Hc).
Qed.

Lemma collapse_single_spaced n :
  forall s, length s <= n ->
            single_spaced (re_sub spaces_re (u " ") s) = true
            /\ (not_next isspace s = true ->
                not_next isspace (re_sub spaces_re (u " ") s) = true).
Proof.
  induction n as [|n IH]; intros s Hn.
  { destruct s; [done|simpl in Hn; lia]. }
  destruct s as [|c s]; [done|].
  destruct (isspace c) eqn:Hc.
  - destruct (space_run (c :: s)) as (ws & Hs & Hws).
    assert (Hne : ws <> []).
    { intros ->. pose proof (lstrip_not_next (c :: s)) as Hl.
      change ([] ++ lstrip (c :: s)) with (lstrip (c :: s)) in Hs.
      rewrite <- Hs in Hl. cbn [not_next] in Hl. by rewrite Hc in Hl. }
    pose proof (lstrip_not_next (c :: s)) as Hrest.
    assert (Heq : re_sub spaces_re (u " ") (c :: s)
                  = 32%N :: re_sub spaces_re (u " ") (lstrip (c :: s))).
    { rewrite Hs at 1. by apply collapse_run. }
    rewrite Heq.
    destruct (IH (lstrip (c :: s))) as [H1 H2].
    { apply (f_equal length) in Hs. rewrite length_app in Hs.
      destruct ws; [done|]. cbn [length] in Hs, Hn. lia. }
    split.
    + cbn [single_spaced]. rewrite H1, (H2 Hrest). reflexivity.
    + cbn [not_next]. by rewrite Hc.
  - rewrite (collapse_keep c s Hc).
    destruct (IH s) as [H1 _]; [simpl in Hn; lia|].
    split.
    + cbn [single_spaced]. by rewrite Hc, H1.
    + intros _. cbn [not_next]. by rewrite Hc.
Qed.

(** X21: in the text [extract_description] searches, every whitespace
    character is a space and no two are adjacent: line breaks, tabs and
    runs of whitespace of the email, and the gaps left by its tags, each
    become one space. *)
Theorem X21_plain_text_is_single_spaced email_html :
  single_spaced (plain_text email_html) = true.
Proof.
  unfold plain_text.
  by apply (collapse_single_spaced
              (length (re_sub tag_re (u " ") email_html))).
Qed.

(** *** One header for each month *)

Lemma month_key_strptime k mk :
  month_key k = Some mk ->
  exists o, strptime k = Some o /\ mk = (year o, month o).
Proof.
  unfold month_key. destruct (strptime k) as [o|]; [|done].
  intros [= <-]. by exists o.
Qed.

Lemma entries_lines_runs entries ks :
  (forall k, k ∈ ks -> is_Some (month_key k)) ->
  forall cur,
    entries_lines entries ks cur
    = Some match month_runs ks with
           | [] => []
           | (mk, run) :: runs =>
               (if decide (Some mk = cur) then [] else [header_of mk])
                 ++ card_lines entries run
                 ++ concat (List.map (run_lines entries) runs)
           end.
Proof.
  induction ks as [|k ks IH]; intros Hks cur; [done|].
  destruct (Hks k) as [mk Hmk]; [by left|].
  destruct (month_key_strptime k mk Hmk) as (o & Ho & ->).
  cbn [entries_lines month_runs]. rewrite Ho, Hmk.
  rewrite IH by (intros k' Hk'; apply Hks; by right).
  fold (desc_of entries k).
  destruct (month_runs ks) as [|[mk' run] runs].
  - cbn [card_lines]. rewrite Ho. cbn [List.map concat].
    by rewrite !app_nil_r.
  - destruct (decide ((year o, month o) = mk')) as [<-|Hne].
    + rewrite (decide_True (P := Some (year o, month o)
                                 = Some (year o, month o))) by done.
      cbn [card_lines]. rewrite Ho.
      rewrite <- !app_assoc. reflexivity.
    + rewrite (decide_False (P := Some mk' = Some (year o, month o)))
        by congruence.
      cbn [card_lines List.map concat run_lines fst snd]. rewrite Ho.
      rewrite <- !app_assoc. reflexivity.
Qed.

Lemma month_runs_concat ks :
  (forall k, k ∈ ks -> is_Some (month_key k)) ->
  concat (List.map snd (month_runs ks)) = ks.
Proof.
  induction ks as [|k ks IH]; intros Hks; [done|].
  destruct (Hks k) as [mk Hmk]; [by left|].
  cbn [month_runs]. rewrite Hmk.
  specialize (IH (fun k' Hk' => Hks k' (list_elem_of_further _ _ _ Hk'))).
  destruct (month_runs ks) as [|[mk' run] runs].
  - by rewrite <- IH.
  - destruct (decide (mk = mk')); cbn [List.map concat snd app] in *;
      by rewrite <- IH.
Qed.

Lemma month_runs_members ks r :
  r ∈ month_runs ks ->
  r.2 <> [] /\ (forall k, k ∈ r.2 -> k ∈ ks /\ month_key k = Some r.1).
Proof.
  revert r; induction ks as [|k ks IH]; intros r; cbn [month_runs].
  { intros H. by apply elem_of_nil in H. }
  assert (Hrec : forall r', r' ∈ month_runs ks ->
                 r'.2 <> [] /\ (forall k', k' ∈ r'.2 ->
                                k' ∈ k :: ks /\ month_key k' = Some r'.1)).
  { intros r' Hr'. destruct (IH r' Hr') as [H1 H2]. split; [done|].
    intros k' Hk'. destruct (H2 k' Hk'). split; [by right|done]. }
  destruct (month_key k) as [mk|] eqn:Hmk; [|apply Hrec].
  destruct (month_runs ks) as [|[mk' run] runs] eqn:E.
  - intros H. apply list_elem_of_singleton in H as ->. cbn [fst snd].
    split; [done|]. intros k' Hk'.
    apply list_elem_of_singleton in Hk' as ->. split; [by left|done].
  - destruct (decide (mk = mk')) as [<-|Hne]; intros H;
      apply elem_of_cons in H as [->|H].
    + cbn [fst snd]. split; [done|]. intros k' Hk'.
      apply elem_of_cons in Hk' as [->|Hk']; [split; [by left|done]|].
      destruct (Hrec (mk, run)) as [_ H2]; [by left|]. by apply H2.
    + apply Hrec. by right.
    + cbn [fst snd]. split; [done|]. intros k' Hk'.
      apply list_elem_of_singleton in Hk' as ->. split; [by left|done].
    + by apply Hrec.
Qed.

Lemma month_ltb_le_trans a b c :
  month_ltb a b = true -> month_ltb c b = false -> month_ltb a c = true.
Proof.
  destruct a as [a1 a2], b as [b1 b2], c as [c1 c2]. unfold month_ltb.
  cbn [fst snd].
  destruct (N.ltb_spec a1 b1), (N.eqb_spec a1 b1), (N.ltb_spec a2 b2),
    (N.ltb_spec c1 b1), (N.eqb_spec c1 b1), (N.ltb_spec c2 b2),
    (N.ltb_spec a1 c1), (N.eqb_spec a1 c1), (N.ltb_spec a2 c2);
    cbn [orb andb]; intros; try done; lia.
Qed.

Lemma month_runs_descending ks :
  StronglySorted later ks ->
  StronglySorted (fun r1 r2 => month_ltb r2.1 r1.1 = true) (month_runs ks).
Proof.
  induction 1 as [|k ks Hs IH Hk]; [constructor|].
  cbn [month_runs].
  destruct (month_key k) as [mk|] eqn:Hmk; [|done].
  assert (Hle : forall r, r ∈ month_runs ks -> month_ltb mk r.1 = false).
  { intros r Hr. destruct (month_runs_members ks r Hr) as [Hne Hmem].
    destruct (r.2) as [|k' run'] eqn:E; [done|].
    destruct (Hmem k') as [Hin Hk']; [by left|].
    rewrite Forall_forall in Hk.
    by apply (later_months k k' mk r.1 (Hk k' Hin)). }
  destruct (month_runs ks) as [|[mk' run] runs] eqn:E.
  - repeat constructor.
  - apply StronglySorted_inv in IH as [IHs IHh].
    destruct (decide (mk = mk')) as [<-|Hne].
    + by constructor.
    + assert (Hlt : month_ltb mk' mk = true).
      { destruct (month_ltb_total mk mk' Hne) as [H|H]; [|done].
        pose proof (Hle (mk', run) ltac:(by left)) as Hf.
        cbn [fst] in Hf. congruence. }
      constructor; [by constructor|].
      constructor; [done|].
      rewrite Forall_forall in IHh |- *. intros r Hr.
      apply (month_ltb_le_trans _ mk'); [by apply IHh|].
      apply (Hle (mk', run)). by left.
Qed.

(** X22: for a mapping whose keys are all zero-padded dates,
    [generate_entries_html] writes, for each run of the sorted keys that
    lies in one month, one header and then the cards of the run; the
    months of the runs are strictly descending, so each month has exactly
    one header and the headers come latest month first. *)
Theorem X22_one_header_per_month (entries : gmap str info) :
  forallb canonical (map_to_list entries).*1 = true ->
  generate_entries_html entries
  = Some (join [10%N]
            (concat (List.map (run_lines entries)
                       (month_runs (sorted_desc (map_to_list entries).*1)))))
  /\ concat (List.map snd (month_runs (sorted_desc (map_to_list entries).*1)))
     = sorted_desc (map_to_list entries).*1
  /\ (forall r, r ∈ month_runs (sorted_desc (map_to_list entries).*1) ->
                r.2 <> [] /\ forall k, k ∈ r.2 -> month_key k = Some r.1)
  /\ StronglySorted (fun r1 r2 => month_ltb r2.1 r1.1 = true)
       (month_runs (sorted_desc (map_to_list entries).*1)).
Proof.
  intros Hc.
  set (ks := sorted_desc (map_to_list entries).*1).
  assert (Hcan : Forall (fun k => canonical k = true) ks).
  { subst ks. rewrite sorted_desc_perm. apply Forall_forall. intros k Hk.
    rewrite forallb_forall in Hc. apply Hc. by apply list_elem_of_In. }
  assert (Hkeys : forall k, k ∈ ks -> is_Some (month_key k)).
  { intros k Hk. rewrite Forall_forall in Hcan.
    destruct (canonical_spec k (Hcan k Hk)) as (o & Ho & _).
    unfold month_key. rewrite Ho. by eexists. }
  assert (Hsorted : StronglySorted later ks).
  { apply sorted_later; [done|].
    apply sorted_desc_sorted, NoDup_fst_map_to_list. }
  split; [|split; [by apply month_runs_concat|split]].
  - unfold generate_entries_html.
    destruct (decide (entries = ∅)) as [->|Hne].
    { subst ks. by rewrite map_to_list_empty. }
    fold ks. rewrite (entries_lines_runs entries ks Hkeys None).
    destruct (month_runs ks) as [|[mk run] runs]; [done|].
    rewrite decide_False by done. reflexivity.
  - intros r Hr. destruct (month_runs_members ks r Hr) as [H1 H2].
    split; [done|]. intros k Hk. by apply H2.
  - by apply month_runs_descending.
Qed.

End Publish.

(** ** Concrete runs *)

(** Witness of C1: publishing 2026-02-18 into an index that holds the
    card of 2026-02-17. *)
Lemma C1_update_index_roundtrip_witness :
  exists new,
    read_file (INDEX_PATH site)
      (update_index ascii_only site utf8 utf8 (u "2026-02-18")
         (u "630 tickers analyzed") (world_with site example_index)).2
    = (Return new,
       (update_index ascii_only site utf8 utf8 (u "2026-02-18")
          (u "630 tickers analyzed") (world_with site example_index)).2)
    /\ parse_existing_entries ascii_only new
       = <[u "2026-02-18" :=
             Info (universal_newlines (u "630 tickers analyzed"))]>
           (parse_existing_entries ascii_only
              (universal_newlines example_index))
    /\ (no_cr (u "630 tickers analyzed") = true ->
        parse_existing_entries ascii_only new
        = <[u "2026-02-18" := Info (u "630 tickers analyzed")]>
            (parse_existing_entries ascii_only
               (universal_newlines example_index))).
Proof.
  apply (C1_update_index_roundtrip ascii_only site utf8 utf8
           (world_with site example_index) _ example_index).
  - vm_compute; reflexivity.
  - vm_compute; discriminate.
  - vm_compute; discriminate.
  - vm_compute; reflexivity.
  - vm_compute; reflexivity.
  - vm_compute; reflexivity.
  - vm_compute; reflexivity.
  - vm_compute; reflexivity.
Defined.

Ltac differs_at d :=
  let H := fresh in
  intros H; apply (f_equal (fun m : gmap str info => m !! d)) in H;
  vm_compute in H; discriminate H.

Ltac runs_and_differs d :=
  eexists _, _; split; [vm_compute; reflexivity|];
  split; [vm_compute; reflexivity|]; differs_at d.

(** Counterexample of C1.  Each index document below holds both markers,
    the update completes, and the entries read from the new index file are
    not the prior entries with the target entry inserted: with the end
    marker before the start marker; with a date that is not zero-padded;
    with a description that holds the end of a card; with a description
    that starts with a space; with a description that holds the end marker;
    with a description that holds a carriage return. *)
Lemma C1_counterexample :
  (contains inverted_index ENTRY_START = true
   /\ contains inverted_index ENTRY_END = true
   /\ exists w' new,
       update_index ascii_only site utf8 utf8 (u "2026-02-18") (u "x")
         (world_with site inverted_index) = (Return tt, w')
       /\ read_file (INDEX_PATH site) w' = (Return new, w')
       /\ parse_existing_entries ascii_only new
          <> <[u "2026-02-18" := Info (u "x")]>
               (parse_existing_entries ascii_only inverted_index))
  /\ (exists w' new,
       update_index ascii_only site utf8 utf8 (u "2026-2-8") (u "x")
         (world_with site empty_index) = (Return tt, w')
       /\ read_file (INDEX_PATH site) w' = (Return new, w')
       /\ parse_existing_entries ascii_only new
          <> <[u "2026-2-8" := Info (u "x")]>
               (parse_existing_entries ascii_only empty_index))
  /\ (exists w' new,
       update_index ascii_only site utf8 utf8 (u "2026-02-18")
         (u "a</p></a></div>b")
         (world_with site empty_index) = (Return tt, w')
       /\ read_file (INDEX_PATH site) w' = (Return new, w')
       /\ parse_existing_entries ascii_only new
          <> <[u "2026-02-18" := Info (u "a</p></a></div>b")]>
               (parse_existing_entries ascii_only empty_index))
  /\ (exists w' new,
       update_index ascii_only site utf8 utf8 (u "2026-02-18") (u " x")
         (world_with site empty_index) = (Return tt, w')
       /\ read_file (INDEX_PATH site) w' = (Return new, w')
       /\ parse_existing_entries ascii_only new
          <> <[u "2026-02-18" := Info (u " x")]>
               (parse_existing_entries ascii_only empty_index))
  /\ (exists w' new,
       update_index ascii_only site utf8 utf8 (u "2026-02-18")
         (u "a" ++ ENTRY_END ++ u "b")
         (world_with site empty_index) = (Return tt, w')
       /\ read_file (INDEX_PATH site) w' = (Return new, w')
       /\ parse_existing_entries ascii_only new
          <> <[u "2026-02-18" := Info (u "a" ++ ENTRY_END ++ u "b")]>
               (parse_existing_entries ascii_only empty_index))
  /\ (strip (u "a" ++ [13%N] ++ u "b") = u "a" ++ [13%N] ++ u "b"
      /\ no_card_end (u "a" ++ [13%N] ++ u "b") = true
      /\ contains (u "a" ++ [13%N] ++ u "b") ENTRY_END = false
      /\ exists w' new,
          update_index ascii_only site utf8 utf8 (u "2026-02-18")
            (u "a" ++ [13%N] ++ u "b")
            (world_with site empty_index) = (Return tt, w')
          /\ read_file (INDEX_PATH site) w' = (Return new, w')
          /\ parse_existing_entries ascii_only new
             <> <[u "2026-02-18" := Info (u "a" ++ [13%N] ++ u "b")]>
                  (parse_existing_entries ascii_only empty_index)).
Proof.
  split.
  { split; [vm_compute; reflexivity|].
    split; [vm_compute; reflexivity|].
    runs_and_differs (u "2026-02-18"). }
  split; [runs_and_differs (u "2026-2-8")|].
  split; [runs_and_differs (u "2026-02-18")|].
  split; [runs_and_differs (u "2026-02-18")|].
  split; [runs_and_differs (u "2026-02-18")|].
  split; [vm_compute; reflexivity|].
  split; [vm_compute; reflexivity|].
  split; [vm_compute; reflexivity|].
  runs_and_differs (u "2026-02-18").
Qed.

(** Witness of C2: three zero-padded dates of February and March 2026. *)
Lemma C2_two_months_two_headers_witness :
  exists html,
    generate_entries_html ascii_only two_month_entries = Some html
    /\ two_month_groups ascii_only two_month_entries
         (2026, 2)%N (2026, 3)%N html.
Proof.
  apply (C2_two_months_two_headers ascii_only two_month_entries).
  - vm_compute; reflexivity.
  - vm_compute; reflexivity.
Defined.

(** A two-element list cut into two non-empty parts. *)
Lemma split_pair {A : Type} (l1 l2 : list A) (a b : A) :
  l1 ++ l2 = [a; b] -> l1 <> [] -> l2 <> [] -> l1 = [a] /\ l2 = [b].
Proof.
  intros H H1 H2.
  destruct l1 as [|x [|y l1]]; [done| |].
  - by injection H as -> ->.
  - destruct l2; [done|].
    apply (f_equal length) in H. rewrite length_app in H. simpl in H. lia.
Qed.

(** Counterexample of C2.  The keys [2026-2-08] and [2026-10-01] span
    February and October 2026; the string order puts [2026-2-08] first, so
    the February header and card come before the October ones, and the
    headers are in ascending order. *)
Lemma C2_counterexample :
  spans_two ascii_only (map_to_list unpadded_entries).*1
    (2026, 2)%N (2026, 10)%N = true
  /\ generate_entries_html ascii_only unpadded_entries
     = Some (join [10%N]
               ([header_of (2026, 2)%N]
                  ++ card_lines ascii_only unpadded_entries [u "2026-2-08"]
                  ++ [header_of (2026, 10)%N]
                  ++ card_lines ascii_only unpadded_entries [u "2026-10-01"]))
  /\ month_ltb (2026, 2)%N (2026, 10)%N = true
  /\ forall html,
      ~ two_month_groups ascii_only unpadded_entries
          (2026, 2)%N (2026, 10)%N html.
Proof.
  split; [vm_compute; reflexivity|].
  split; [vm_compute; reflexivity|].
  split; [reflexivity|].
  intros html (hi & lo & ks1 & ks2 & Hab & Hlt & Hs & Hn1 & Hn2 & H1 & H2 & _).
  assert (Hk : sorted_desc (map_to_list unpadded_entries).*1
               = [u "2026-2-08"; u "2026-10-01"]) by (vm_compute; reflexivity).
  rewrite Hk in Hs.
  destruct (split_pair _ _ _ _ (eq_sym Hs) Hn1 Hn2) as [-> ->].
  specialize (H1 _ (list_elem_of_here _ _)).
  specialize (H2 _ (list_elem_of_here _ _)).
  vm_compute in H1.
  vm_compute in H2.
  injection H1 as <-. injection H2 as <-.
  vm_compute in Hlt. discriminate Hlt.
Qed.

(** Witness of C3: an update of the index with one card. *)
Lemma C3_splice_preserves_outside_witness :
  (exists region,
      files (update_index ascii_only site utf8 utf8 (u "2026-02-18") (u "x")
               (world_with site example_index)).2 !! INDEX_PATH site
      = Some (Text (u "<html>" ++ ENTRY_START ++ region ++ ENTRY_END
                      ++ u "</html>")))
  /\ forall path, path <> INDEX_PATH site ->
       files (update_index ascii_only site utf8 utf8 (u "2026-02-18") (u "x")
                (world_with site example_index)).2 !! path
       = files (world_with site example_index) !! path.
Proof.
  apply (C3_splice_preserves_outside ascii_only site utf8 utf8
           (world_with site example_index) _ (u "<html>") example_region
           (u "</html>") (u "2026-02-18") (u "x")).
  - vm_compute; reflexivity.
  - vm_compute; reflexivity.
  - vm_compute; reflexivity.
  - vm_compute; reflexivity.
  - vm_compute; reflexivity.
  - vm_compute; reflexivity.
Defined.

(** Counterexample of C3.  Both index documents hold both markers and the
    update completes.  In the first, the line before the start marker ends
    with a carriage return and a line feed, and the new file holds a line
    feed alone there; in the second, the end marker comes before the start
    marker.  In neither is the new text the old one with the text between a
    start marker and a later end marker replaced. *)
Lemma C3_counterexample :
  (contains crlf_index ENTRY_START = true
   /\ contains crlf_index ENTRY_END = true
   /\ exists w' new,
       update_index ascii_only site utf8 utf8 (u "2026-02-18") (u "x")
         (world_with site crlf_index) = (Return tt, w')
       /\ files w' !! INDEX_PATH site = Some (Text new)
       /\ take 8 crlf_index = u "<html>" ++ [13; 10]%N
       /\ take 8 new = u "<html>" ++ [10%N] ++ u "<"
       /\ ~ spliced crlf_index new)
  /\ (contains inverted_index ENTRY_START = true
      /\ contains inverted_index ENTRY_END = true
      /\ exists w' new,
          update_index ascii_only site utf8 utf8 (u "2026-02-18") (u "x")
            (world_with site inverted_index) = (Return tt, w')
          /\ files w' !! INDEX_PATH site = Some (Text new)
          /\ ~ spliced inverted_index new).
Proof.
  split.
  - split; [vm_compute; reflexivity|]. split; [vm_compute; reflexivity|].
    eexists _, _. split; [vm_compute; reflexivity|].
    split; [vm_compute; reflexivity|].
    split; [vm_compute; reflexivity|].
    split; [vm_compute; reflexivity|].
    intros (before & between & region & after & Hold & Hnew).
    pose proof (find_le_occurrence _ _ _ _ Hold) as Hle.
    assert (Hf : find crlf_index ENTRY_START = 8%Z)
      by (vm_compute; reflexivity).
    rewrite Hf in Hle.
    apply (f_equal (take 8)) in Hold, Hnew.
    rewrite take_app_le in Hold, Hnew by lia.
    rewrite <- Hnew in Hold. vm_compute in Hold. discriminate Hold.
  - split; [vm_compute; reflexivity|]. split; [vm_compute; reflexivity|].
    eexists _, _. split; [vm_compute; reflexivity|].
    split; [vm_compute; reflexivity|].
    intros (before & between & region & after & Hold & _).
    pose proof (find_le_occurrence _ _ _ _ Hold) as Hle.
    assert (Hf : find inverted_index ENTRY_START = 35%Z)
      by (vm_compute; reflexivity).
    rewrite Hf in Hle.
    apply (f_equal length) in Hold. rewrite !length_app in Hold.
    assert (Hl : length inverted_index
                 = 19 + length ENTRY_START + length ENTRY_END)
      by (vm_compute; reflexivity).
    assert (He : length ENTRY_END = 23) by (vm_compute; reflexivity).
    rewrite Hl in Hold. lia.
Qed.

(** Counterexample of C4.  In the first run the date parses, the source
    file exists and the index document holds both markers, yet the run ends
    with status 1: the card date [2026-02-30] read from the index makes
    [strptime] raise [ValueError] in [generate_entries_html], which nothing
    catches.  In the second run the index document has no markers, yet the
    run does not reach the check for them: the source does not decode, and
    the run ends with an uncaught [UnicodeDecodeError], having printed no
    [ERROR] line. *)
Lemma C4_counterexample :
  let a := Args (u "2026-02-18") (u "/tmp/email.html") true in
  let w := world_with_email site bad_date_index in
  ((main ascii_only site plain_page quiet_git utf8 utf8 a w).1
   = Raise ValueError
   /\ exit_status (main ascii_only site plain_page quiet_git utf8 utf8 a w).1
      = 1%Z
   /\ strptime ascii_only (arg_date a) = Some (Date 2026 2 18)
   /\ is_Some (files w !! arg_source a)
   /\ files w !! INDEX_PATH site = Some (Text bad_date_index)
   /\ contains bad_date_index ENTRY_START = true
   /\ contains bad_date_index ENTRY_END = true
   /\ ~ input_error ascii_only site plain_page utf8 utf8 a w)
  /\ (main ascii_only site plain_page quiet_git utf8 utf8 a
        (world_with_bytes site)
      = (Raise UnicodeDecodeError,
         World (<[path_join (EMAILS_DIR site) (u "2026-02-18.html") :=
                    Bytes [255%N]]> (files (world_with_bytes site)))
           [u "Publishing daily email for 2026-02-18";
            u "  Source: /tmp/email.html";
            u "  Copied email to /site/autotrader/daily/emails/2026-02-18.html"])
      /\ is_Some (files (world_with_bytes site) !! arg_source a)
      /\ files (world_with_bytes site) !! INDEX_PATH site
         = Some (Text bare_index)
      /\ contains (universal_newlines bare_index) ENTRY_START = false).
Proof.
  intros a w. split.
  - split; [vm_compute; reflexivity|].
    split; [vm_compute; reflexivity|].
    split; [vm_compute; reflexivity|].
    split; [exists (Text example_text); vm_compute; reflexivity|].
    split; [vm_compute; reflexivity|].
    split; [vm_compute; reflexivity|].
    split; [vm_compute; reflexivity|].
    intros [[H _]|[(_ & H & _)|(o & email & index & _ & H & Hm & _)]].
    + vm_compute in H. discriminate H.
    + vm_compute in H. discriminate H.
    + assert (Hi : files w !! INDEX_PATH site = Some (Text bad_date_index))
        by (vm_compute; reflexivity).
      rewrite Hi in H. injection H as <-.
      destruct Hm as [Hm|Hm]; vm_compute in Hm; discriminate Hm.
  - split; [vm_compute; reflexivity|].
    split; [exists (Bytes [255%N]); vm_compute; reflexivity|].
    split; vm_compute; reflexivity.
Qed.

(** Witness of C5: publishing 2026-02-18 twice, with two descriptions,
    into an index that holds the card of 2026-02-17. *)
Lemma C5_merge_twice_second_wins_witness :
  let w := world_with site example_index in
  let w1 :=
    (update_index ascii_only site utf8 utf8 (u "2026-02-18") (u "first")
       w).2 in
  let w2 :=
    (update_index ascii_only site utf8 utf8 (u "2026-02-18") (u "second")
       w1).2 in
  exists new w2',
    files w2 !! INDEX_PATH site = Some (Text new)
    /\ parse_existing_entries ascii_only new
       = merge_entry
           (parse_existing_entries ascii_only
              (universal_newlines example_index))
           (u "2026-02-18") (u "second")
    /\ parse_existing_entries ascii_only new !! u "2026-02-18"
       = Some (Info (u "second"))
    /\ length
         (filter (fun k => k = u "2026-02-18")
            (List.map (fun m => group m 1)
               (finditer (card_pattern ascii_only)
                  (slice new
                     (find new ENTRY_START + Z.of_nat (length ENTRY_START))
                     (find new ENTRY_END))))) = 1
    /\ update_index ascii_only site utf8 utf8 (u "2026-02-18") (u "second") w
       = (Return tt, w2')
    /\ files w2' = files w2.
Proof.
  intros w w1 w2.
  apply (C5_merge_twice_second_wins ascii_only site utf8 utf8 ∅
           (u "2026-02-18") (u "first") (u "second") w w1 w2 example_index).
  - vm_compute; reflexivity.
  - vm_compute; discriminate.
  - vm_compute; discriminate.
  - vm_compute; reflexivity.
  - vm_compute; reflexivity.
  - vm_compute; reflexivity.
  - vm_compute; reflexivity.
  - vm_compute; reflexivity.
  - vm_compute; reflexivity.
  - vm_compute; reflexivity.
  - vm_compute; reflexivity.
  - vm_compute; reflexivity.
Defined.

(** Counterexample of C6: the fragments are joined with the seven
    characters [ &middot; ] of the source, not with the character U+00B7. *)
Lemma C6_counterexample :
  extract_description ascii_only example_text <> claimed_description.
Proof. vm_compute. discriminate. Qed.

(** Witness of C7: a fragment with spaces around its colon. *)
Lemma C7_leftmost_ticker_fragment_witness :
  exists rest,
    extract_description ascii_only (u "<p>Total Tickers : 630 today</p>")
    = u "630" ++ u " tickers analyzed" ++ rest.
Proof.
  apply (C7_leftmost_ticker_fragment ascii_only
           (u "<p>Total Tickers : 630 today</p>")
           (u " ") (u " ") (u " ") 54%N (u "30") (u " today ")).
  all: vm_compute; reflexivity.
Defined.

(** Counterexample of C7.  A fragment inside a tag is removed with the tag,
    and of two fragments only the first is reported. *)
Lemma C7_counterexample :
  (let email_html := uq "<a title='Total Tickers: 630'>x</a>" in
   contains email_html (u "Total Tickers: 630") = true
   /\ extract_description ascii_only email_html = FALLBACK
   /\ contains (extract_description ascii_only email_html)
        (u "630 tickers analyzed") = false)
  /\ (let email_html := u "Total Tickers: 5 of Total Tickers: 630" in
      contains email_html (u "Total Tickers: 630") = true
      /\ extract_description ascii_only email_html = u "5 tickers analyzed"
      /\ contains (extract_description ascii_only email_html)
           (u "630 tickers analyzed") = false).
Proof. vm_compute. repeat split. Qed.

(** Witness of C8: a text with no statistic. *)
Lemma C8_fallback_when_nothing_matches_witness :
  extract_description ascii_only (u "<p>No statistics today</p>") = FALLBACK.
Proof.
  apply C8_fallback_when_nothing_matches; vm_compute; reflexivity.
Defined.

(** Witness of C9: the description [x], with UTF-8 for the files and for
    standard output. *)
Lemma C9_unpadded_date_is_dropped_witness :
  exists w' new,
    update_index ascii_only site utf8 utf8 (u "2026-2-8") (u "x")
      (World {[INDEX_PATH site := Text (ENTRY_START ++ ENTRY_END)]} [])
    = (Return tt, w')
    /\ files w' !! INDEX_PATH site = Some (Text new)
    /\ occurs (uq "<a href='2026-2-8.html'>") new
    /\ parse_existing_entries ascii_only new !! u "2026-2-8" = None.
Proof.
  destruct (C9_unpadded_date_is_dropped ascii_only site utf8 utf8)
    as (_ & _ & _ & H & _).
  apply H; vm_compute; reflexivity.
Defined.

(** Witness of C10: the end marker, six characters, the start marker. *)
Lemma C10_markers_out_of_order_witness :
  exists w' new,
    update_index ascii_only site utf8 utf8 (u "2026-02-18") (u "x")
      (world_with site inverted_index) = (Return tt, w')
    /\ files w' !! INDEX_PATH site = Some (Text new)
    /\ duplicated_between (universal_newlines inverted_index) new.
Proof.
  apply (C10_markers_out_of_order ascii_only site utf8 utf8
           (world_with site inverted_index) inverted_index).
  - vm_compute; reflexivity.
  - vm_compute; split; [discriminate|reflexivity].
  - eexists; vm_compute; reflexivity.
  - vm_compute; reflexivity.
  - vm_compute; reflexivity.
  - vm_compute; reflexivity.
  - vm_compute; reflexivity.
Defined.

(** ** Further properties, and their concrete runs *)

(** X17: with [--no-push] the run does not depend on git: whatever the
    version-control tool would do, the outcome, the files and the output
    are the same. *)
Theorem X17_no_push_never_runs_git
        (nd : N -> option N) (SCRIPT_DIR : str)
        (generate_wrapper_page : str -> date -> str)
        (git1 git2 : list str -> gmap str data -> Z * gmap str data)
        (file_enc stdout_enc : N -> bool)
        (a : args) (w : world) :
  arg_no_push a = true ->
  main nd SCRIPT_DIR generate_wrapper_page git1 file_enc stdout_enc a w
  = main nd SCRIPT_DIR generate_wrapper_page git2 file_enc stdout_enc a w.
Proof.
  intros H. unfold main. rewrite H. reflexivity.
Qed.

(** Witness of X17: a git that succeeds and one that fails. *)
Lemma X17_no_push_never_runs_git_witness :
  main ascii_only site plain_page quiet_git utf8 utf8 example_args
    (world_with_email site example_index)
  = main ascii_only site plain_page failing_git utf8 utf8 example_args
      (world_with_email site example_index).
Proof.
  apply X17_no_push_never_runs_git. reflexivity.
Defined.

(** Witness of X1: an index document without markers. *)
Lemma X1_update_index_failure_and_the_files_witness :
  files (update_index ascii_only site utf8 utf8 (u "2026-02-18") (u "x")
           (world_with site bare_index)).2
  = files (world_with site bare_index).
Proof.
  apply (X1_update_index_failure_and_the_files ascii_only site utf8 utf8
           _ (SysExit 1%Z) _ (u "2026-02-18") (u "x")).
  - vm_compute; reflexivity.
  - discriminate.
  - discriminate.
Defined.

(** A description that UTF-8 cannot encode (a lone surrogate): the index
    file is left empty. *)
Lemma surrogate_description_empties_the_index :
  update_index ascii_only site utf8 utf8 (u "2026-02-18") [55296%N]
    (world_with site example_index)
  = (Raise UnicodeEncodeError, world_with site []).
Proof. vm_compute. reflexivity. Qed.

(** Witness of X2: publishing 2026-02-18 twice. *)
Lemma X2_update_index_idempotent_witness :
  exists w2,
    update_index ascii_only site utf8 utf8 (u "2026-02-18") (u "new")
      (update_index ascii_only site utf8 utf8 (u "2026-02-18") (u "new")
         (world_with site example_index)).2
    = (Return tt, w2)
    /\ files w2
       = files (update_index ascii_only site utf8 utf8 (u "2026-02-18")
                  (u "new") (world_with site example_index)).2.
Proof.
  apply (X2_update_index_idempotent ascii_only site utf8 utf8
           (world_with site example_index) _ example_index).
  - vm_compute; reflexivity.
  - vm_compute; discriminate.
  - vm_compute; discriminate.
  - vm_compute; reflexivity.
  - vm_compute; reflexivity.
  - vm_compute; reflexivity.
  - vm_compute; reflexivity.
  - vm_compute; reflexivity.
Defined.

(** Witness of X4: one card. *)
Lemma X4_generate_card_parses_back_witness :
  parse_existing_entries ascii_only
    (ENTRY_START
       ++ generate_card (u "2026-02-18") (Date 2026 2 18)
            (u "630 tickers analyzed")
       ++ ENTRY_END)
  = {[ u "2026-02-18" := Info (u "630 tickers analyzed") ]}.
Proof.
  apply X4_generate_card_parses_back; vm_compute; reflexivity.
Defined.

(** Witness of X5: the entry of the example index. *)
Lemma X5_parsed_entries_well_formed_witness :
  is_card_date ascii_only (u "2026-02-17") = true
  /\ strip (description (Info (u "630 tickers analyzed")))
     = description (Info (u "630 tickers analyzed")).
Proof.
  apply (X5_parsed_entries_well_formed ascii_only example_index).
  vm_compute; reflexivity.
Defined.

(** Witness of X6: the end marker before the start marker. *)
Lemma X6_parse_without_region_witness :
  parse_existing_entries ascii_only inverted_index = ∅.
Proof.
  apply X6_parse_without_region. right. right. vm_compute; discriminate.
Defined.

(** The entries of the example fit a card. *)
Lemma two_month_entries_fit :
  forall k i, two_month_entries !! k = Some i ->
              is_card_date ascii_only k = true
              /\ strip (description i) = description i
              /\ no_card_end (description i) = true
              /\ contains (description i) ENTRY_END = false.
Proof.
  apply map_Forall_lookup.
  apply (bool_decide_unpack _). vm_compute. exact I.
Qed.

(** The card dates of the example index are calendar dates. *)
Lemma example_index_dates :
  forall k,
    is_Some (parse_existing_entries ascii_only
               (universal_newlines example_index) !! k) ->
    is_Some (strptime ascii_only k).
Proof.
  intros k [i Hi]. revert k i Hi. apply map_Forall_lookup.
  apply (bool_decide_unpack _). vm_compute. exact I.
Qed.

(** No ASCII digit is whitespace. *)
Lemma ascii_digit_not_space c :
  isdecimal ascii_only c = true -> isspace c = false.
Proof.
  unfold isdecimal, decimal, ascii_only.
  destruct (c <? 128)%N; [|done].
  destruct ((48 <=? c) && (c <=? 57))%N eqn:E; [|done]. intros _.
  apply andb_prop in E as [H1 H2]. apply N.leb_le in H1, H2.
  assert (Hc : (c = 48 \/ c = 49 \/ c = 50 \/ c = 51 \/ c = 52 \/ c = 53
                \/ c = 54 \/ c = 55 \/ c = 56 \/ c = 57)%N) by lia.
  repeat destruct Hc as [->|Hc]; try reflexivity. by subst c.
Qed.

(** Witness of X7: the entries of February and March 2026. *)
Lemma X7_generated_region_parses_back_witness :
  exists g,
    generate_entries_html ascii_only two_month_entries = Some g
    /\ parse_existing_entries ascii_only
         (ENTRY_START ++ g ++ [10; 32; 32]%N ++ ENTRY_END)
       = two_month_entries.
Proof.
  destruct (generate_entries_html ascii_only two_month_entries) as [g|] eqn:E;
    [|vm_compute in E; discriminate E].
  exists g. split; [reflexivity|].
  apply X7_generated_region_parses_back; [apply two_month_entries_fit|exact E].
Defined.

(** Witness of X8: a run on an index document without markers. *)
Lemma X8_marker_exit_keeps_written_files_witness :
  exists out,
    main ascii_only site plain_page quiet_git utf8 utf8 example_args
      (world_with_email site bare_index)
    = (SysExit 1,
       World
         (<[path_join (DAILY_DIR site) (arg_date example_args ++ u ".html") :=
              Text (plain_page (arg_date example_args) (Date 2026 2 18))]>
            (<[path_join (EMAILS_DIR site)
                 (arg_date example_args ++ u ".html") := Text example_text]>
               (files (world_with_email site bare_index))))
         out).
Proof.
  apply (X8_marker_exit_keeps_written_files ascii_only site plain_page
           quiet_git utf8 utf8 example_args
           (world_with_email site bare_index)
           (Date 2026 2 18) example_text bare_index).
  - vm_compute; reflexivity.
  - vm_compute; reflexivity.
  - vm_compute; discriminate.
  - vm_compute; reflexivity.
  - vm_compute; reflexivity.
  - vm_compute; reflexivity.
  - left. vm_compute; reflexivity.
Defined.

(** Witness of X9: a run on the index with one card. *)
Lemma X9_main_no_push_publishes_witness :
  exists g out,
    generate_entries_html ascii_only
      (merge_entry
         (parse_existing_entries ascii_only
            (universal_newlines example_index))
         (arg_date example_args)
         (extract_description ascii_only
            (universal_newlines example_text))) = Some g
    /\ main ascii_only site plain_page quiet_git utf8 utf8 example_args
         (world_with_email site example_index)
       = (Return tt,
          World
            (<[INDEX_PATH site :=
                 Text (new_html (universal_newlines example_index) g)]>
               (<[path_join (DAILY_DIR site)
                    (arg_date example_args ++ u ".html") :=
                    Text (plain_page (arg_date example_args)
                            (Date 2026 2 18))]>
                  (<[path_join (EMAILS_DIR site)
                       (arg_date example_args ++ u ".html") :=
                       Text example_text]>
                     (files (world_with_email site example_index)))))
            out).
Proof.
  apply (X9_main_no_push_publishes ascii_only site plain_page quiet_git
           utf8 utf8 example_args (world_with_email site example_index)
           (Date 2026 2 18) example_text example_index).
  - reflexivity.
  - vm_compute; reflexivity.
  - vm_compute; reflexivity.
  - vm_compute; discriminate.
  - vm_compute; reflexivity.
  - vm_compute; reflexivity.
  - vm_compute; reflexivity.
  - vm_compute; reflexivity.
  - vm_compute; reflexivity.
  - apply example_index_dates.
  - vm_compute; reflexivity.
  - vm_compute; reflexivity.
  - vm_compute; reflexivity.
Defined.

(** Witness of X11: the source email is left as it was. *)
Lemma X11_no_push_touches_three_files_witness :
  files (main ascii_only site plain_page quiet_git utf8 utf8 example_args
           (world_with_email site example_index)).2 !! u "/tmp/email.html"
  = files (world_with_email site example_index) !! u "/tmp/email.html".
Proof.
  apply (X11_no_push_touches_three_files ascii_only site plain_page quiet_git
           utf8 utf8 example_args (world_with_email site example_index)
           (main ascii_only site plain_page quiet_git utf8 utf8 example_args
              (world_with_email site example_index)).1).
  - reflexivity.
  - vm_compute; reflexivity.
  - vm_compute; discriminate.
  - vm_compute; discriminate.
  - vm_compute; discriminate.
Defined.

(** Witness of X12: a git whose first command fails. *)
Lemma X12_push_changes_outcomes_witness :
  ((push_changes failing_git utf8 (u "2026-02-18")
      (world_with site example_index)).1 = Return tt
   /\ (stdout (push_changes failing_git utf8 (u "2026-02-18")
                 (world_with site example_index)).2
       = stdout (world_with site example_index)
           ++ [u "  Committing and pushing..."; u "  Pushed to GitHub!"]
       \/ stdout (push_changes failing_git utf8 (u "2026-02-18")
                    (world_with site example_index)).2
          = stdout (world_with site example_index)
              ++ [u "  Committing and pushing...";
                  u "  No changes to commit (already up to date)"]))
  \/ ((push_changes failing_git utf8 (u "2026-02-18")
         (world_with site example_index)).1 = Raise CalledProcessError
      /\ stdout (push_changes failing_git utf8 (u "2026-02-18")
                   (world_with site example_index)).2
         = stdout (world_with site example_index)
             ++ [u "  Committing and pushing..."]).
Proof.
  apply (X12_push_changes_outcomes failing_git utf8 (u "2026-02-18")
           (world_with site example_index)).
  vm_compute; reflexivity.
Defined.

(** Witness of X13: the example email, with the ASCII digits. *)
Lemma X13_description_fits_a_card_witness :
  extract_description ascii_only example_text <> []
  /\ strip (extract_description ascii_only example_text)
     = extract_description ascii_only example_text
  /\ no_lt (extract_description ascii_only example_text) = true
  /\ no_card_end (extract_description ascii_only example_text) = true
  /\ contains (extract_description ascii_only example_text) ENTRY_END = false.
Proof.
  apply (X13_description_fits_a_card ascii_only ascii_digit_not_space).
Defined.

(** Witness of X14: a run on the index with one card. *)
Lemma X14_published_entry_is_read_back_witness :
  exists new,
    read_file (INDEX_PATH site)
      (main ascii_only site plain_page quiet_git utf8 utf8 example_args
         (world_with_email site example_index)).2
    = (Return new,
       (main ascii_only site plain_page quiet_git utf8 utf8 example_args
          (world_with_email site example_index)).2)
    /\ parse_existing_entries ascii_only new
       = <[arg_date example_args :=
             Info (extract_description ascii_only
                     (universal_newlines example_text))]>
           (parse_existing_entries ascii_only
              (universal_newlines example_index)).
Proof.
  apply (X14_published_entry_is_read_back ascii_only site plain_page quiet_git
           utf8 utf8 example_args (world_with_email site example_index) _
           example_text example_index).
  - apply ascii_digit_not_space.
  - reflexivity.
  - vm_compute; reflexivity.
  - vm_compute; reflexivity.
  - vm_compute; reflexivity.
  - vm_compute; discriminate.
  - vm_compute; discriminate.
  - vm_compute; reflexivity.
Defined.

(** Witness of X15: the entries of February and March 2026. *)
Lemma X15_cards_in_descending_order_witness :
  exists g,
    generate_entries_html ascii_only two_month_entries = Some g
    /\ List.map (fun m => group m 1) (finditer (card_pattern ascii_only) g)
       = sorted_desc (map_to_list two_month_entries).*1
    /\ StronglySorted str_gt (sorted_desc (map_to_list two_month_entries).*1).
Proof.
  destruct (generate_entries_html ascii_only two_month_entries) as [g|] eqn:E;
    [|vm_compute in E; discriminate E].
  exists g. split; [reflexivity|].
  apply X15_cards_in_descending_order; [apply two_month_entries_fit|exact E].
Defined.

(** Witness of X18: the entries of February and March 2026. *)
Lemma X18_zero_padded_keys_calendar_order_witness :
  StronglySorted (later ascii_only)
    (sorted_desc (map_to_list two_month_entries).*1).
Proof.
  apply X18_zero_padded_keys_calendar_order. vm_compute; reflexivity.
Defined.

(** Witness of X19: the page of 2026-02-18. *)
Lemma X19_wrapper_embeds_archived_email_witness :
  occurs (uq "<iframe src='" ++ (u "emails/" ++ u "2026-02-18" ++ u ".html")
            ++ uq "' class='email-iframe' id='emailFrame'></iframe>")
    (wrapper_page (u "2026-02-18") (Date 2026 2 18))
  /\ path_join (DAILY_DIR site) (u "emails/" ++ u "2026-02-18" ++ u ".html")
     = path_join (EMAILS_DIR site) (u "2026-02-18" ++ u ".html").
Proof.
  apply (X19_wrapper_embeds_archived_email ascii_only site).
  vm_compute; reflexivity.
Defined.

(** Witness of X20: 29 February 2024. *)
Lemma X20_zero_padded_date_is_accepted_witness :
  strptime ascii_only (isoformat (Date 2024 2 29)) = Some (Date 2024 2 29)
  /\ is_card_date ascii_only (isoformat (Date 2024 2 29)) = true.
Proof.
  apply X20_zero_padded_date_is_accepted. vm_compute; reflexivity.
Defined.

(** An email with a line break and a tab between its tags. *)
Lemma plain_text_example :
  plain_text (u "<p>Total" ++ [10; 9]%N ++ u "Tickers:</p>  <b>630</b>")
  = u " Total Tickers: 630 ".
Proof. vm_compute. reflexivity. Qed.

(** Witness of X22: the entries of February and March 2026. *)
Lemma X22_one_header_per_month_witness :
  generate_entries_html ascii_only two_month_entries
  = Some (join [10%N]
            (concat (List.map (run_lines ascii_only two_month_entries)
                       (month_runs ascii_only
                          (sorted_desc (map_to_list two_month_entries).*1)))))
  /\ concat (List.map snd
               (month_runs ascii_only
                  (sorted_desc (map_to_list two_month_entries).*1)))
     = sorted_desc (map_to_list two_month_entries).*1
  /\ (forall r,
         r ∈ month_runs ascii_only
               (sorted_desc (map_to_list two_month_entries).*1) ->
         r.2 <> [] /\ forall k, k ∈ r.2 -> month_key ascii_only k = Some r.1)
  /\ StronglySorted (fun r1 r2 => month_ltb r2.1 r1.1 = true)
       (month_runs ascii_only
          (sorted_desc (map_to_list two_month_entries).*1)).
Proof.
  apply X22_one_header_per_month. vm_compute; reflexivity.
Defined.
